(** * ai-refactor-tool: the analysis and task-generation pipeline of [src/index.js]

    A shallow embedding of the analysis pipeline ([runAnalysis] and the
    functions it calls), of the task backlog generator and of the task
    selection of the [work] command, followed by the properties of the
    specification that concern them.

    Conventions.
    - A JavaScript string is a [string]: its characters are the UTF-16
      code units of the JavaScript string, and the model covers the texts
      whose code units fit in one byte.
    - A JavaScript number is a [Z]; every number of the pipeline is an
      integer count or size.
    - A plain object used as a dictionary is an association list in
      insertion order, which is the order [Object.keys] and
      [JSON.stringify] enumerate keys that are not array indices.  The
      keys of the pipeline are file extensions, the text [no-extension]
      and relative paths of files that carry an extension: none is an
      array index and none is the name of a property that objects
      inherit.
    - An exception is the [Throw] case of [Result]; code that writes files
      runs in a state-and-exception monad over the file system.
    - What the commands print on the console is left out. *)

From Stdlib Require Import List String Ascii ZArith Lia Bool Arith.
From Stdlib Require Import Permutation Sorted.
Import ListNotations.
Set Warnings "-register-all".
Open Scope string_scope.
Open Scope list_scope.

(** ** JavaScript strings *)

Module JsString.

Definition newline : ascii := ascii_of_nat 10.

Definition between (lo hi : nat) (c : ascii) : bool :=
  let n := nat_of_ascii c in (lo <=? n)%nat && (n <=? hi)%nat.

(** [String.prototype.startsWith]. *)
Fixpoint startsWith (p s : string) : bool :=
  match p, s with
  | EmptyString, _ => true
  | String a p', String b s' => Ascii.eqb a b && startsWith p' s'
  | String _ _, EmptyString => false
  end.

(** [String.prototype.includes]. *)
Fixpoint includes (p s : string) : bool :=
  startsWith p s ||
  match s with
  | EmptyString => false
  | String _ s' => includes p s'
  end.

(** The text that follows the prefix [p], when [s] starts with it. *)
Fixpoint dropPrefix (p s : string) : option string :=
  match p, s with
  | EmptyString, _ => Some s
  | String a p', String b s' =>
      if Ascii.eqb a b then dropPrefix p' s' else None
  | String _ _, EmptyString => None
  end.

(** [content.split(LF).length]: one more than the number of line
    feeds. *)
Fixpoint countLines (s : string) : nat :=
  match s with
  | EmptyString => 1
  | String c s' =>
      if Ascii.eqb c newline then S (countLines s') else countLines s'
  end.

(** Longest prefix whose characters satisfy [p], and the rest. *)
Fixpoint span (p : ascii -> bool) (s : string) : string * string :=
  match s with
  | EmptyString => (EmptyString, EmptyString)
  | String c s' =>
      if p c then let (a, b) := span p s' in (String c a, b)
      else (EmptyString, s)
  end.

(** [String.prototype.toLowerCase] on one code unit below 256: the
    letters A-Z, and the Latin-1 capitals U+00C0-U+00DE but U+00D7. *)
Definition lowerChar (c : ascii) : ascii :=
  let n := nat_of_ascii c in
  if between 65 90 c then ascii_of_nat (n + 32)
  else if between 192 222 c && negb (n =? 215)%nat then ascii_of_nat (n + 32)
  else c.

Fixpoint toLowerCase (s : string) : string :=
  match s with
  | EmptyString => EmptyString
  | String c s' => String (lowerChar c) (toLowerCase s')
  end.

(** [String(n)] for a non-negative integer: its decimal digits. *)
Definition digit (n : nat) : ascii := ascii_of_nat (48 + n mod 10).

Fixpoint digitsFuel (fuel n : nat) (acc : string) : string :=
  match fuel with
  | O => acc
  | S f =>
      let acc' := String (digit n) acc in
      if (n <? 10)%nat then acc' else digitsFuel f (n / 10) acc'
  end.

Definition ofNat (n : nat) : string := digitsFuel (S n) n EmptyString.

Fixpoint repeatChar (c : ascii) (n : nat) : string :=
  match n with
  | O => EmptyString
  | S k => String c (repeatChar c k)
  end.

(** [s.padStart(width, c)] with a one-character filler. *)
Definition padStart (width : nat) (c : ascii) (s : string) : string :=
  repeatChar c (width - String.length s) ++ s.

(** [Array.prototype.includes] on an array of strings. *)
Definition arrayIncludes (l : list string) (s : string) : bool :=
  existsb (String.eqb s) l.

(** [Array.prototype.join]. *)
Definition join (sep : string) (l : list string) : string :=
  String.concat sep l.

End JsString.

(** ** Regular expressions

    The three shapes of regular expression the analysis uses: the
    patterns built by [calculateComplexity], and the two import patterns
    of [analyzeJavaScriptFile]. *)

Module Regex.
Import JsString.

(** [\w] without the unicode and ignore-case flags. *)
Definition isWordChar (c : ascii) : bool :=
  between 48 57 c || between 65 90 c || between 97 122 c
  || (nat_of_ascii c =? 95)%nat.

(** [\s] on code units below 256. *)
Definition isSpace (c : ascii) : bool :=
  between 9 13 c || (nat_of_ascii c =? 32)%nat || (nat_of_ascii c =? 160)%nat.

(** The characters [.] does not match (no dotAll flag). *)
Definition isLineTerminator (c : ascii) : bool :=
  (nat_of_ascii c =? 10)%nat || (nat_of_ascii c =? 13)%nat.

(** The class of the three quote characters (single, double,
    backtick). *)
Definition isQuote (c : ascii) : bool :=
  (nat_of_ascii c =? 39)%nat || (nat_of_ascii c =? 34)%nat
  || (nat_of_ascii c =? 96)%nat.

(** Patterns without quantifier: a disjunction of sequences of atoms. *)
Inductive atom : Type :=
| WordBoundary
| Lit (c : ascii).

Definition pattern : Type := list (list atom).

(** [new RegExp(source)] for the sources [calculateComplexity] builds:
    a backslash followed by [b] is the word-boundary assertion, [|]
    separates alternatives, and any other character stands for itself
    (none of the keywords holds another metacharacter). *)
Fixpoint parseAlt (src : string) (cur : list atom) : pattern :=
  match src with
  | EmptyString => [rev cur]
  | String c rest =>
      if Ascii.eqb c "|"%char then rev cur :: parseAlt rest []
      else if Ascii.eqb c "\"%char then
        match rest with
        | String d rest' =>
            if Ascii.eqb d "b"%char then parseAlt rest' (WordBoundary :: cur)
            else parseAlt rest' (Lit d :: cur)
        | EmptyString => [rev (Lit c :: cur)]
        end
      else parseAlt rest (Lit c :: cur)
  end.

Definition RegExp (src : string) : pattern := parseAlt src [].

Definition headIsWord (s : string) : bool :=
  match s with
  | EmptyString => false
  | String c _ => isWordChar c
  end.

(** Match a sequence at the current position; [prevWord] tells whether
    the character before the position is a word character.  The result
    is the length of the match. *)
Fixpoint matchSeq (atoms : list atom) (prevWord : bool) (s : string)
  : option nat :=
  match atoms with
  | [] => Some O
  | WordBoundary :: r =>
      if xorb prevWord (headIsWord s) then matchSeq r prevWord s else None
  | Lit c :: r =>
      match s with
      | String d s' =>
          if Ascii.eqb c d then option_map S (matchSeq r (isWordChar d) s')
          else None
      | EmptyString => None
      end
  end.

(** The first alternative that matches wins. *)
Fixpoint matchPattern (p : pattern) (prevWord : bool) (s : string)
  : option nat :=
  match p with
  | [] => None
  | alt :: p' =>
      match matchSeq alt prevWord s with
      | Some n => Some n
      | None => matchPattern p' prevWord s
      end
  end.

(** A matcher tried at one position. *)
Definition matcher : Type := bool -> string -> option nat.

(** The scan of a global ([g]) regular expression: try every position
    from the left; after a match of length [n > 0] resume at its end,
    after an empty match resume one code unit further.  [skip] counts
    the characters of the last match still to step over. *)
Fixpoint scanG (m : matcher) (prevWord : bool) (skip : nat) (s : string)
  : list string :=
  match skip with
  | S k =>
      match s with
      | EmptyString => []
      | String c s' => scanG m (isWordChar c) k s'
      end
  | O =>
      match m prevWord s with
      | Some n =>
          substring 0 n s ::
          match s with
          | EmptyString => []
          | String c s' => scanG m (isWordChar c) (pred n) s'
          end
      | None =>
          match s with
          | EmptyString => []
          | String c s' => scanG m (isWordChar c) 0 s'
          end
      end
  end.

(** [content.match(re)] for a global [re]: the array of the matched
    texts, or [null] ([None]) when there is none. *)
Definition matchG (m : matcher) (content : string) : option (list string) :=
  match scanG m false 0 content with
  | [] => None
  | l => Some l
  end.

(** The tail shared by the two import patterns: the word [from], one
    or more spaces, a quote, one or more characters that are not
    quotes (the capture group) and a quote.  Each greedy repetition is
    followed by a character outside its class, so no backtracking
    changes the outcome.  The result is the length of the match and the
    captured text. *)
Definition fromClause (s : string) : option (nat * string) :=
  match dropPrefix "from" s with
  | None => None
  | Some r1 =>
      let (spaces, r2) := span isSpace r1 in
      match spaces, r2 with
      | String _ _, String q r3 =>
          if isQuote q then
            let (specifier, r4) := span (fun c => negb (isQuote c)) r3 in
            match specifier, r4 with
            | String _ _, String _ _ =>
                Some (4 + String.length spaces + 1
                      + String.length specifier + 1, specifier)%nat
            | _, _ => None
            end
          else None
      | _, _ => None
      end
  end.

(** The lazy [.*?] followed by the tail: the tail is tried first, and
    one more character that is not a line terminator is consumed only
    when it fails. *)
Fixpoint lazyThenFrom (s : string) : option nat :=
  match fromClause s with
  | Some (n, _) => Some n
  | None =>
      match s with
      | EmptyString => None
      | String c s' =>
          if isLineTerminator c then None
          else option_map S (lazyThenFrom s')
      end
  end.

(** The pattern [import.*?from\s+Q([^Q]+)Q], where [Q] is the class of
    the quote characters, tried at one position. *)
Definition importPattern : matcher :=
  fun _ s =>
    match dropPrefix "import" s with
    | Some r => option_map (Nat.add 6) (lazyThenFrom r)
    | None => None
    end.

(** [imp.match(re)] for the pattern [from\s+Q([^Q]+)Q] without the [g]
    flag: the capture group of the leftmost match. *)
Fixpoint matchFromCapture (imp : string) : option string :=
  match fromClause imp with
  | Some (_, specifier) => Some specifier
  | None =>
      match imp with
      | EmptyString => None
      | String _ imp' => matchFromCapture imp'
      end
  end.

End Regex.

(** ** Complexity *)

Import JsString Regex.

Definition complexityKeywords : list string :=
  ["if"; "else"; "for"; "while"; "case"; "catch"; "return"; "&&"; "||"].

(** [calculateComplexity(content)]. *)
Definition calculateComplexity (content : string) : Z :=
  fold_left
    (fun complexity keyword =>
       let regex := RegExp ("\b" ++ keyword ++ "\b") in
       match matchG (matchPattern regex) content with
       | Some matches => (complexity + Z.of_nat (List.length matches))%Z
       | None => complexity
       end)
    complexityKeywords 1%Z.

Definition sample_if_else : string :=
  "if (x) { return 1; } else { return 2; }".


(** ** Analysis of one source file *)

(** A JavaScript exception with its message, or a value. *)
Inductive Result (A : Type) : Type :=
| Ok (a : A)
| Throw (message : string).
Arguments Ok {A} a.
Arguments Throw {A} message.

(** The object [analyzeJavaScriptFile] returns: the full record of the
    [try] block, or the record of the [catch] block, which has an [error]
    and neither [linesOfCode], [hasTests] nor [frameworks]. *)
Inductive AnalysisResult : Type :=
| Analyzed (imports exports : list string) (complexity linesOfCode : Z)
           (hasTests : bool) (frameworks : list string)
| Failed (error : string).

(** Property reads on an analysis; [None] is [undefined]. *)
Definition ar_error (a : AnalysisResult) : option string :=
  match a with
  | Analyzed _ _ _ _ _ _ => None
  | Failed e => Some e
  end.

Definition ar_imports (a : AnalysisResult) : list string :=
  match a with
  | Analyzed imports _ _ _ _ _ => imports
  | Failed _ => []
  end.

Definition ar_complexity (a : AnalysisResult) : Z :=
  match a with
  | Analyzed _ _ complexity _ _ _ => complexity
  | Failed _ => 0%Z
  end.

Definition ar_linesOfCode (a : AnalysisResult) : option Z :=
  match a with
  | Analyzed _ _ _ linesOfCode _ _ => Some linesOfCode
  | Failed _ => None
  end.

Definition ar_hasTests (a : AnalysisResult) : option bool :=
  match a with
  | Analyzed _ _ _ _ hasTests _ => Some hasTests
  | Failed _ => None
  end.

Definition ar_frameworks (a : AnalysisResult) : option (list string) :=
  match a with
  | Analyzed _ _ _ _ _ frameworks => Some frameworks
  | Failed _ => None
  end.

(** [x || 0] on a number that may be [undefined]. *)
Definition orZero (x : option Z) : Z :=
  match x with
  | Some v => v
  | None => 0%Z
  end.

(** The imports of [analyzeJavaScriptFile]: every text the global import
    pattern matches, and of each the capture of the [from] pattern. *)
Definition importMatches (content : string) : list string :=
  match matchG importPattern content with
  | Some l => l
  | None => []
  end.

Definition extractImports (content : string) : list string :=
  flat_map
    (fun imp =>
       match matchFromCapture imp with
       | Some specifier => [specifier]
       | None => []
       end)
    (importMatches content).


(** ** Paths *)

(** A path below the scanned directory is the list of its components;
    [path.join(dir, item)] adds one component, and the relative path of
    the code is the components joined by the separator. *)
Definition Path : Type := list string.

Definition pathJoin (dir : Path) (item : string) : Path := dir ++ [item].

Definition relative (p : Path) : string := join "/" p.

Definition basename (p : Path) : string := last p "".

Fixpoint lastDotSuffix (s : string) : option string :=
  match s with
  | EmptyString => None
  | String c s' =>
      match lastDotSuffix s' with
      | Some r => Some r
      | None => if Ascii.eqb c "."%char then Some s else None
      end
  end.

(** [path.extname] on one path component: from its last dot to its end,
    and empty when there is no dot, when the only dot comes first, and
    for the parent directory entry. *)
Definition extnameOfName (name : string) : string :=
  match name with
  | EmptyString => ""
  | String _ rest =>
      match lastDotSuffix rest with
      | Some ext => if String.eqb name ".." then "" else ext
      | None => ""
      end
  end.

Definition extname (p : Path) : string := extnameOfName (basename p).

(** The components of a relative path given as a string. *)
Fixpoint splitPath (s : string) : list string :=
  match s with
  | EmptyString => [""]
  | String c s' =>
      if Ascii.eqb c "/"%char then "" :: splitPath s'
      else match splitPath s' with
           | [] => [String c ""]
           | h :: t => String c h :: t
           end
  end.

(** [path.extname] and [path.dirname] on a relative path string. *)
Definition extnameOfString (s : string) : string :=
  extnameOfName (last (splitPath s) "").

Definition dirnameOfString (s : string) : string :=
  match removelast (splitPath s) with
  | [] => "."
  | l => join "/" l
  end.

(** ** Constants *)

Definition ANALYSIS_DIR : string := "ai-analysis".
Definition ANALYSIS_SUMMARY_FILE : string := "analysis_summary.md".
Definition MACHINE_CONTEXT_FILE : string := "machine_context.json".
Definition TASK_BACKLOG_FILE : string := "task_backlog.json".
Definition CODE_INVENTORY_FILE : string := "code_inventory.json".
Definition DEPENDENCY_MAP_FILE : string := "dependency_map.json".
Definition METRICS_FILE : string := "code_metrics.json".

Definition SUPPORTED_EXTENSIONS : list string :=
  [".js"; ".jsx"; ".ts"; ".tsx"; ".vue"; ".svelte"; ".astro";
   ".json"; ".md"; ".css"; ".scss"; ".sass"; ".less";
   ".html"; ".htm"; ".xml"; ".yml"; ".yaml"; ".toml"].

(** The extensions [runAnalysis] sends to [analyzeJavaScriptFile]. *)
Definition SOURCE_EXTENSIONS : list string :=
  [".js"; ".jsx"; ".ts"; ".tsx"; ".vue"; ".svelte"; ".astro"].

(** The file names [runAnalysis] sends to [analyzeConfigFile]. *)
Definition CONFIG_NAMES : list string :=
  ["package.json"; "composer.json"; "requirements.txt"].

Definition isTextFile (filePath : Path) : bool :=
  let ext := toLowerCase (extname filePath) in
  arrayIncludes SUPPORTED_EXTENSIONS ext.

(** ** Objects used as dictionaries *)

Section Dictionary.
Context {A : Type}.

Fixpoint objGet (o : list (string * A)) (k : string) : option A :=
  match o with
  | [] => None
  | (k', v) :: o' => if String.eqb k' k then Some v else objGet o' k
  end.

(** [o[k] = v]: an existing key keeps its place, a new key comes
    last. *)
Fixpoint objSet (o : list (string * A)) (k : string) (v : A)
  : list (string * A) :=
  match o with
  | [] => [(k, v)]
  | (k', v') :: o' =>
      if String.eqb k' k then (k', v) :: o' else (k', v') :: objSet o' k v
  end.

Definition objKeys (o : list (string * A)) : list string := map fst o.

End Dictionary.

(** ** Documents *)

Definition Date : Type := Z.

Record FileRecord : Type := {
  path : Path;
  relativePath : string;
  size : Z;
  modified : Date;
  hash : string
}.

(** A file record of the inventory, with its two derived fields. *)
Record InventoryFile : Type := {
  record : FileRecord;
  extension : string;
  directory : string
}.

Record CodeInventory : Type := {
  totalFiles : Z;
  totalSize : Z;
  fileTypes : list (string * Z);
  files : list InventoryFile
}.

Record DependencyMap : Type := {
  internal : list (string * list string);
  external : list string
}.

(** A value [JSON.parse] returns. *)
#[local] Unset Elimination Schemes.
Inductive json : Type :=
| JNull
| JBool (b : bool)
| JNum (n : Z)
| JStr (s : string)
| JArr (l : list json)
| JObj (l : list (string * json)).
#[local] Set Elimination Schemes.

(** The [content] of a config analysis: parsed for the JS package
    manifest, the raw text otherwise. *)
Inductive ConfigContent : Type :=
| Parsed (v : json)
| Raw (s : string).

Record ConfigAnalysis : Type := {
  configType : string;
  content : ConfigContent
}.

Record ConfigEntry : Type := {
  cf_file : string;
  cf_type : string;
  cf_content : ConfigContent
}.

Record Metrics : Type := {
  totalLinesOfCode : Z;
  totalComplexity : Z;
  frameworks : list string;
  hasTests : bool;
  configFiles : list ConfigEntry
}.

Record Summary : Type := {
  fileCount : Z;
  sm_totalSize : Z;
  linesOfCode : Z;
  complexity : Z;
  sm_frameworks : list string;
  sm_hasTests : bool
}.

Record MachineContext : Type := {
  timestamp : Date;
  projectPath : string;
  analysisVersion : string;
  summary : Summary;
  mc_files : list (string * AnalysisResult);
  dependencies : DependencyMap;
  mc_metrics : Metrics
}.

Record Task : Type := {
  id : string;
  title : string;
  priority : string;
  status : string;
  description : string;
  estimatedEffort : string;
  tags : list string;
  sourceFiles : list string;
  prompt : string
}.

Record Backlog : Type := {
  version : string;
  generated : Date;
  totalTasks : Z;
  tasks : list Task
}.

(** What [runAnalysis] hands to [fs.writeFileSync]: the value given to
    [JSON.stringify], or the arguments of [generateAnalysisSummary] and
    the date it reads. *)
Inductive Artifact : Type :=
| InventoryDoc (inventory : CodeInventory)
| DependencyDoc (dependencyMap : DependencyMap)
| MetricsDoc (metrics : Metrics)
| SummaryDoc (inventory : CodeInventory)
             (analysis : list (string * AnalysisResult))
             (dependencies : DependencyMap) (metrics : Metrics)
             (projectPath : string) (date : Date)
| ContextDoc (context : MachineContext)
| BacklogDoc (backlog : Backlog).

(** ** The platform

    What the pipeline takes from Node and from its libraries, as far as
    the pipeline observes it.  [babelParse content] is the message of the
    exception [babelParser.parse] throws on [content], if it throws;
    [jsonParse] is [JSON.parse]; [byteLength] and [md5hex] give the size
    and the digest of a file written with a given text; [render] is the
    text written for an artifact ([JSON.stringify] of a document, or the
    text of [generateAnalysisSummary]); [clock n] is the date the [n]-th
    reading of the clock returns.  Two functions of the analyzer are
    kept abstract here as well, since no property below depends on what
    they compute: [exportNames] stands for the two export patterns and
    [detectFrameworks] for the table of framework patterns. *)
Record Platform : Type := {
  babelParse : string -> option string;
  jsonParse : string -> Result json;
  exportNames : string -> list string;
  detectFrameworks : string -> list string;
  byteLength : string -> Z;
  md5hex : string -> string;
  render : Artifact -> string;
  clock : nat -> Date
}.

(** ** The file system below the scanned directory *)

Record FileData : Type := {
  accessible : bool;     (* false: reading or writing it throws *)
  text : string;         (* what readFileSync(path, 'utf8') returns *)
  byteSize : Z;          (* stat.size *)
  mtime : Date;          (* stat.mtime *)
  digest : string        (* the hex MD5 of its bytes *)
}.

(** A directory lists its entries in the order [fs.readdirSync] returns
    them. *)
Inductive Node : Type :=
| File (d : FileData)
| Dir (entries : list (string * Node)).

Fixpoint lookup (n : Node) (p : Path) : option Node :=
  match p with
  | [] => Some n
  | name :: p' =>
      match n with
      | Dir entries =>
          match objGet entries name with
          | Some child => lookup child p'
          | None => None
          end
      | File _ => None
      end
  end.

(** The scanned directory itself may be missing. *)
Definition Disk : Type := option Node.

Definition find (disk : Disk) (p : Path) : option Node :=
  match disk with
  | Some root => lookup root p
  | None => None
  end.

Definition existsSync (disk : Disk) (p : Path) : bool :=
  match find disk p with
  | Some _ => true
  | None => false
  end.

Definition readFile (disk : Disk) (p : Path) : Result FileData :=
  match find disk p with
  | Some (File d) =>
      if accessible d then Ok d else Throw "EACCES: permission denied"
  | Some (Dir _) => Throw "EISDIR: illegal operation on a directory"
  | None => Throw "ENOENT: no such file or directory"
  end.

(** [fs.readFileSync(p, 'utf8')]. *)
Definition readFileSync (disk : Disk) (p : Path) : Result string :=
  match readFile disk p with
  | Ok d => Ok (text d)
  | Throw e => Throw e
  end.

(** [getFileHash(p)]. *)
Definition getFileHash (disk : Disk) (p : Path) : Result string :=
  match readFile disk p with
  | Ok d => Ok (digest d)
  | Throw e => Throw e
  end.

Definition bindR {A B : Type} (r : Result A) (k : A -> Result B) : Result B :=
  match r with
  | Ok a => k a
  | Throw e => Throw e
  end.

(** ** Analysis of one file *)

Section Analyzers.
Variable P : Platform.

(** [analyzeJavaScriptFile(filePath)]: the [try] block, and the record
    of the [catch] block when reading or parsing throws. *)
Definition analyzeJavaScriptFile (disk : Disk) (filePath : Path)
  : AnalysisResult :=
  match readFileSync disk filePath with
  | Throw message => Failed message
  | Ok content =>
      match babelParse P content with
      | Some message => Failed message
      | None =>
          Analyzed
            (extractImports content)
            (exportNames P content)
            (calculateComplexity content)
            (Z.of_nat (countLines content))
            (includes "test(" content || includes "describe(" content
             || includes "it(" content)
            (detectFrameworks P content)
      end
  end.

Definition configTypes : list (string * string) :=
  [("package.json", "npm"); ("composer.json", "composer");
   ("requirements.txt", "python"); ("Gemfile", "ruby");
   ("go.mod", "go"); ("Cargo.toml", "rust")].

(** [analyzeConfigFile(filePath)]; nothing here catches what the read
    or [JSON.parse] throws. *)
Definition analyzeConfigFile (disk : Disk) (filePath : Path)
  : Result ConfigAnalysis :=
  let fileName := basename filePath in
  bindR (readFileSync disk filePath) (fun content =>
  let type :=
    match objGet configTypes fileName with
    | Some t => t
    | None => "unknown"
    end in
  bindR
    (if String.eqb fileName "package.json"
     then bindR (jsonParse P content) (fun v => Ok (Parsed v))
     else Ok (Raw content))
    (fun c => Ok {| configType := type; content := c |})).

End Analyzers.

(** ** Directory traversal *)

Definition defaultIgnorePatterns : list string :=
  [".git"; "node_modules"; ".next"; "dist"; "build"].

(** The [options] of [runAnalysis]: [None] when no [ignorePatterns] is
    given. *)
Definition Options : Type := option (list string).

Definition ignorePatternsOf (options : Options) : list string :=
  match options with
  | Some l => l
  | None => defaultIgnorePatterns
  end.

Definition ignored (ignorePatterns : list string) (item : string) : bool :=
  existsb (fun pattern => includes pattern item) ignorePatterns.

Section Traversal.
Variable ignorePatterns : list string.

(** [traverse(fullPath)] when the node at [fullPath] is a directory:
    the loop over its items.  On a file node, it is the last branch of
    the loop for that item, which records a text file. *)
Fixpoint traverse (fullPath : Path) (n : Node) {struct n}
  : Result (list FileRecord) :=
  match n with
  | Dir entries =>
      (fix loop (items : list (string * Node)) : Result (list FileRecord) :=
         match items with
         | [] => Ok []
         | (item, child) :: rest =>
             if ignored ignorePatterns item then loop rest
             else
               bindR (traverse (pathJoin fullPath item) child) (fun found =>
               bindR (loop rest) (fun more => Ok (found ++ more)))
         end) entries
  | File d =>
      if isTextFile fullPath then
        if accessible d then
          Ok [{| path := fullPath;
                 relativePath := relative fullPath;
                 size := byteSize d;
                 modified := mtime d;
                 hash := digest d |}]
        else Throw "EACCES: permission denied"
      else Ok []
  end.

End Traversal.

(** [traverseDirectory(dir, options)], [dir] being the scanned
    directory. *)
Definition traverseDirectory (disk : Disk) (options : Options)
  : Result (list FileRecord) :=
  match disk with
  | Some (Dir entries) => traverse (ignorePatternsOf options) [] (Dir entries)
  | Some (File _) => Throw "ENOTDIR: not a directory"
  | None => Throw "ENOENT: no such file or directory"
  end.

(** ** The inventory *)

Definition inventoryFile (f : FileRecord) : InventoryFile :=
  {| record := f;
     extension := extnameOfString (relativePath f);
     directory := dirnameOfString (relativePath f) |}.

(** The count of file types: [fileTypes[ext] = (fileTypes[ext] || 0) + 1]. *)
Definition countFileType (fileTypes : list (string * Z)) (file : InventoryFile)
  : list (string * Z) :=
  let ext := if String.eqb (extension file) "" then "no-extension"
             else extension file in
  objSet fileTypes ext (orZero (objGet fileTypes ext) + 1)%Z.

Definition makeInventory (found : list FileRecord) : CodeInventory :=
  let inventoryFiles := map inventoryFile found in
  {| totalFiles := Z.of_nat (List.length found);
     totalSize := fold_left (fun sum f => (sum + size f)%Z) found 0%Z;
     fileTypes := fold_left countFileType inventoryFiles [];
     files := inventoryFiles |}.

(** ** The per-file pass of [runAnalysis] *)

(** The three values the loop over the inventory updates. *)
Record Analysis : Type := {
  fileAnalysis : list (string * AnalysisResult);
  dependencyMap : DependencyMap;
  metrics : Metrics
}.

Definition initialAnalysis : Analysis :=
  {| fileAnalysis := [];
     dependencyMap := {| internal := []; external := [] |};
     metrics := {| totalLinesOfCode := 0; totalComplexity := 0;
                   frameworks := []; hasTests := false;
                   configFiles := [] |} |}.

(** [Set.prototype.add] on a set kept in insertion order. *)
Definition setAdd (set : list string) (x : string) : list string :=
  if arrayIncludes set x then set else set ++ [x].

(** The body of the loop over the imports of the file [importer]. *)
Definition addImport (importer : string) (dm : DependencyMap) (imp : string)
  : DependencyMap :=
  if startsWith "." imp then
    let edges := match objGet (internal dm) importer with
                 | Some l => l
                 | None => []
                 end in
    {| internal := objSet (internal dm) importer (edges ++ [imp]);
       external := external dm |}
  else if arrayIncludes (external dm) imp then dm
  else {| internal := internal dm; external := external dm ++ [imp] |}.

Definition isSourceFile (file : InventoryFile) : bool :=
  arrayIncludes SOURCE_EXTENSIONS (extname (path (record file))).

Definition isConfigFile (file : InventoryFile) : bool :=
  arrayIncludes CONFIG_NAMES (basename (path (record file))).

Section Pipeline.
Variable P : Platform.

(** The branch of the loop for a source file, given its analysis. *)
Definition recordSource (st : Analysis) (file : InventoryFile)
    (analysis : AnalysisResult) : Analysis :=
  let m := metrics st in
  {| fileAnalysis :=
       objSet (fileAnalysis st) (relativePath (record file)) analysis;
     dependencyMap :=
       fold_left (addImport (relativePath (record file)))
                 (ar_imports analysis) (dependencyMap st);
     metrics :=
       {| totalLinesOfCode :=
            (totalLinesOfCode m + orZero (ar_linesOfCode analysis))%Z;
          totalComplexity :=
            (totalComplexity m + ar_complexity analysis)%Z;
          frameworks :=
            match ar_frameworks analysis with
            | Some l => fold_left setAdd l (frameworks m)
            | None => frameworks m
            end;
          hasTests :=
            match ar_hasTests analysis with
            | Some true => true
            | _ => hasTests m
            end;
          configFiles := configFiles m |} |}.

(** The branch of the loop for a config file, given its analysis. *)
Definition recordConfig (st : Analysis) (file : InventoryFile)
    (configAnalysis : ConfigAnalysis) : Analysis :=
  let m := metrics st in
  {| fileAnalysis := fileAnalysis st;
     dependencyMap := dependencyMap st;
     metrics :=
       {| totalLinesOfCode := totalLinesOfCode m;
          totalComplexity := totalComplexity m;
          frameworks := frameworks m;
          hasTests := hasTests m;
          configFiles :=
            configFiles m ++
            [{| cf_file := relativePath (record file);
                cf_type := configType configAnalysis;
                cf_content := content configAnalysis |}] |} |}.

(** One turn of the loop [codeInventory.files.forEach]. *)
Definition analyzeFile (disk : Disk) (st : Analysis) (file : InventoryFile)
  : Result Analysis :=
  let fullPath := path (record file) in
  if isSourceFile file then
    Ok (recordSource st file (analyzeJavaScriptFile P disk fullPath))
  else if isConfigFile file then
    bindR (analyzeConfigFile P disk fullPath) (fun configAnalysis =>
    Ok (recordConfig st file configAnalysis))
  else Ok st.

(** The loop; an exception leaves it at once. *)
Fixpoint analyzeFiles (disk : Disk) (st : Analysis)
    (inventoryFiles : list InventoryFile) : Result Analysis :=
  match inventoryFiles with
  | [] => Ok st
  | file :: rest =>
      bindR (analyzeFile disk st file) (fun st' =>
      analyzeFiles disk st' rest)
  end.

End Pipeline.

(** ** The task backlog *)

Definition taskIdentifier (taskId : nat) : string :=
  "T-" ++ padStart 3 "0" (ofNat taskId).

Definition testingTask (taskId : nat) : Task :=
  {| id := taskIdentifier taskId;
     title := "Add Testing Framework Setup";
     priority := "high";
     status := "pending";
     description :=
       "Set up a testing framework and create initial test structure";
     estimatedEffort := "medium";
     tags := ["testing"; "setup"];
     sourceFiles := ["package.json"];
     prompt := "Please help set up a comprehensive testing framework for this project. Analyze the current tech stack and recommend appropriate testing tools. Create basic test structure and configuration files." |}.

(** The keys of [context.files] whose analysis has a complexity that is
    truthy and above 20. *)
Definition highComplexityFiles (analysis : list (string * AnalysisResult))
  : list string :=
  filter
    (fun f =>
       match objGet analysis f with
       | Some a =>
           negb (ar_complexity a =? 0)%Z && (20 <? ar_complexity a)%Z
       | None => false
       end)
    (objKeys analysis).

Definition refactorTask (taskId : nat) (context : MachineContext) : Task :=
  {| id := taskIdentifier taskId;
     title := "Refactor High Complexity Functions";
     priority := "medium";
     status := "pending";
     description :=
       "Identify and refactor functions with high cyclomatic complexity";
     estimatedEffort := "large";
     tags := ["refactoring"; "complexity"];
     sourceFiles := highComplexityFiles (mc_files context);
     prompt := "Please analyze these high-complexity files and suggest refactoring strategies to reduce complexity while maintaining functionality." |}.

(** [generateTaskBacklog(context)]; [now] is the date read for the
    [generated] field.  The pair threaded through the two rules is the
    array [tasks] and the counter [taskId]. *)
Definition generateTaskBacklog (context : MachineContext) (now : Date)
  : Backlog :=
  let s0 : list Task * nat := ([], 1%nat) in
  let s1 :=
    if negb (sm_hasTests (summary context))
    then (fst s0 ++ [testingTask (snd s0)], S (snd s0))
    else s0 in
  let s2 :=
    if (100 <? complexity (summary context))%Z
    then (fst s1 ++ [refactorTask (snd s1) context], S (snd s1))
    else s1 in
  {| version := "3.0";
     generated := now;
     totalTasks := Z.of_nat (List.length (fst s2));
     tasks := fst s2 |}.

(** ** Writing below the scanned directory *)

(** [fs.mkdirSync(dir, { recursive: true })] for a directory [name]
    right below the scanned directory, which is created with it when it
    is missing. *)
Definition mkdirSync (disk : Disk) (name : string) : Result Disk :=
  match disk with
  | None => Ok (Some (Dir [(name, Dir [])]))
  | Some (Dir entries) => Ok (Some (Dir (entries ++ [(name, Dir [])])))
  | Some (File _) => Throw "ENOTDIR: not a directory"
  end.

(** Create or overwrite the file [name] among the entries of a
    directory. *)
Fixpoint writeEntry (entries : list (string * Node)) (name : string)
    (d : FileData) : Result (list (string * Node)) :=
  match entries with
  | [] => Ok [(name, File d)]
  | (n, x) :: rest =>
      if String.eqb n name then
        match x with
        | File old =>
            if accessible old then Ok ((n, File d) :: rest)
            else Throw "EACCES: permission denied"
        | Dir _ => Throw "EISDIR: illegal operation on a directory"
        end
      else bindR (writeEntry rest name d) (fun rest' => Ok ((n, x) :: rest'))
  end.

Fixpoint writeInDir (entries : list (string * Node)) (dir name : string)
    (d : FileData) : Result (list (string * Node)) :=
  match entries with
  | [] => Throw "ENOENT: no such file or directory"
  | (n, x) :: rest =>
      if String.eqb n dir then
        match x with
        | Dir sub =>
            bindR (writeEntry sub name d) (fun sub' =>
            Ok ((n, Dir sub') :: rest))
        | File _ => Throw "ENOTDIR: not a directory"
        end
      else bindR (writeInDir rest dir name d) (fun rest' =>
           Ok ((n, x) :: rest'))
  end.

(** The disk after [fs.writeFileSync(path.join(dir, name), data)], the
    file getting the data [d]. *)
Definition writeFile (disk : Disk) (dir name : string) (d : FileData)
  : Result Disk :=
  match disk with
  | Some (Dir entries) =>
      bindR (writeInDir entries dir name d) (fun entries' =>
      Ok (Some (Dir entries')))
  | Some (File _) => Throw "ENOTDIR: not a directory"
  | None => Throw "ENOENT: no such file or directory"
  end.

(** ** The monad of [runAnalysis]

    The state is the disk, the number of clock readings so far and the
    artifacts written so far, in the order of the writes; an exception
    keeps the state reached. *)
Record State : Type := {
  st_disk : Disk;
  st_ticks : nat;
  st_written : list (string * Artifact)
}.

Definition M (A : Type) : Type := State -> State * Result A.

Definition ret {A : Type} (a : A) : M A := fun s => (s, Ok a).

Definition bind {A B : Type} (m : M A) (k : A -> M B) : M B :=
  fun s =>
    match m s with
    | (s', Ok a) => k a s'
    | (s', Throw e) => (s', Throw e)
    end.

Notation "x <- m ;; k" := (bind m (fun x => k))
  (at level 61, m at next level, right associativity).
Notation "m ;;; k" := (bind m (fun _ => k))
  (at level 61, right associativity).

(** A computation that reads the disk and may throw. *)
Definition reading {A : Type} (f : Disk -> Result A) : M A :=
  fun s => (s, f (st_disk s)).

Section Run.
Variable P : Platform.

(** [new Date()]. *)
Definition newDate : M Date :=
  fun s =>
    ({| st_disk := st_disk s; st_ticks := S (st_ticks s);
        st_written := st_written s |},
     Ok (clock P (st_ticks s))).

(** [createDirectory(analysisDir)]. *)
Definition createDirectory : M unit :=
  fun s =>
    if negb (existsSync (st_disk s) [ANALYSIS_DIR]) then
      match mkdirSync (st_disk s) ANALYSIS_DIR with
      | Ok disk' =>
          ({| st_disk := disk'; st_ticks := st_ticks s;
              st_written := st_written s |}, Ok tt)
      | Throw e => (s, Throw e)
      end
    else (s, Ok tt).

(** [fs.writeFileSync(path.join(analysisDir, name), text)], where
    [text] is the rendering of the artifact. *)
Definition writtenData (a : Artifact) (ticks : nat) : FileData :=
  let data := render P a in
  {| accessible := true; text := data;
     byteSize := byteLength P data;
     mtime := clock P ticks;
     digest := md5hex P data |}.

Definition writeFileSync (name : string) (a : Artifact) : M unit :=
  fun s =>
    match writeFile (st_disk s) ANALYSIS_DIR name
            (writtenData a (st_ticks s)) with
    | Ok disk' =>
        ({| st_disk := disk'; st_ticks := S (st_ticks s);
            st_written := st_written s ++ [(name, a)] |}, Ok tt)
    | Throw e => (s, Throw e)
    end.

Definition summaryOf (inventory : CodeInventory) (m : Metrics) : Summary :=
  {| fileCount := totalFiles inventory;
     sm_totalSize := totalSize inventory;
     linesOfCode := totalLinesOfCode m;
     complexity := totalComplexity m;
     sm_frameworks := frameworks m;
     sm_hasTests := hasTests m |}.

(** Step 1 of [runAnalysis]: the analysis directory, the traversal,
    and the inventory, which is written at once. *)
Definition inventoryPhase (options : Options) : M CodeInventory :=
  createDirectory ;;;
  found <- reading (fun disk => traverseDirectory disk options) ;;
  let codeInventory := makeInventory found in
  writeFileSync CODE_INVENTORY_FILE (InventoryDoc codeInventory) ;;;
  ret codeInventory.

(** Step 2: the loop over the files of the inventory. *)
Definition analysisPhase (codeInventory : CodeInventory) : M Analysis :=
  reading (fun disk =>
    analyzeFiles P disk initialAnalysis (files codeInventory)).

Definition machineContextOf (baseDir : string) (codeInventory : CodeInventory)
    (st : Analysis) (now : Date) : MachineContext :=
  {| timestamp := now;
     projectPath := baseDir;
     analysisVersion := "3.0";
     summary := summaryOf codeInventory (metrics st);
     mc_files := fileAnalysis st;
     dependencies := dependencyMap st;
     mc_metrics := metrics st |}.

(** Steps 3 to 6: the five other artifacts. *)
Definition reportPhase (baseDir : string) (codeInventory : CodeInventory)
    (st : Analysis) : M unit :=
  writeFileSync DEPENDENCY_MAP_FILE (DependencyDoc (dependencyMap st)) ;;;
  writeFileSync METRICS_FILE (MetricsDoc (metrics st)) ;;;
  date <- newDate ;;
  writeFileSync ANALYSIS_SUMMARY_FILE
    (SummaryDoc codeInventory (fileAnalysis st) (dependencyMap st)
                (metrics st) baseDir date) ;;;
  now <- newDate ;;
  let machineContext := machineContextOf baseDir codeInventory st now in
  writeFileSync MACHINE_CONTEXT_FILE (ContextDoc machineContext) ;;;
  generated <- newDate ;;
  writeFileSync TASK_BACKLOG_FILE
    (BacklogDoc (generateTaskBacklog machineContext generated)).

(** [runAnalysis(baseDir, options)] once the directory is known to
    exist: its numbered steps in their order. *)
Definition analysisPass (baseDir : string) (options : Options) : M unit :=
  codeInventory <- inventoryPhase options ;;
  st <- analysisPhase codeInventory ;;
  reportPhase baseDir codeInventory st.

(** How a command ends. *)
Inductive Outcome : Type :=
| Completed
| Uncaught (message : string)
| Exit (code : Z).

(** [runAnalysis(baseDir, options)] on a disk and a clock: the state
    it leaves, with the artifacts it wrote, and how it ended. *)
Definition runAnalysis (baseDir : string) (options : Options)
    (disk : Disk) (ticks : nat) : State * Outcome :=
  let s := {| st_disk := disk; st_ticks := ticks; st_written := [] |} in
  if negb (existsSync disk []) then (s, Exit 1)
  else
    match analysisPass baseDir options s with
    | (s', Ok _) => (s', Completed)
    | (s', Throw e) => (s', Uncaught e)
    end.

End Run.

(** ** The work command *)

(** How [runWork] ends once the backlog is read: the run of the prompt
    composition for the selected task is [Prompt]. *)
Inductive WorkOutcome : Type :=
| BacklogNotFound
| AllCompleted
| PendingListed (pendingTasks : list Task)
| TaskNotFound
| Prompt (task : Task).

(** [runWork(analysisDir, options)]: [backlogFile] is the parsed backlog
    file, if the file exists, and [taskOption] is [options.task], which
    is falsy when it is missing or the empty text. *)
Definition runWork (backlogFile : option Backlog) (taskOption : option string)
  : WorkOutcome :=
  match backlogFile with
  | None => BacklogNotFound
  | Some backlog =>
      match taskOption with
      | Some (String c rest) =>
          let taskId := String c rest in
          match List.find
                  (fun t => String.eqb (toLowerCase (id t))
                                       (toLowerCase taskId))
                  (tasks backlog) with
          | Some task => Prompt task
          | None => TaskNotFound
          end
      | _ =>
          let pendingTasks :=
            filter (fun t => String.eqb (status t) "pending")
                   (tasks backlog) in
          match pendingTasks with
          | [] => AllCompleted
          | _ => PendingListed pendingTasks
          end
      end
  end.

(** ** A platform and directories for the examples

    The platform of the examples agrees with Node on the texts the
    examples use: Babel parses the sample sources, and [JSON.parse]
    accepts the empty object and rejects a lone brace. *)
Module Sample.

Definition platform : Platform :=
  {| babelParse := fun _ => None;
     jsonParse := fun s =>
       if String.eqb s "{}" then Ok (JObj [])
       else Throw "Unexpected end of JSON input";
     exportNames := fun _ => [];
     detectFrameworks := fun _ => [];
     byteLength := fun s => Z.of_nat (String.length s);
     md5hex := fun s => s;
     render := fun _ => "";
     clock := fun n => Z.of_nat n |}.

Definition file (content : string) : Node :=
  File {| accessible := true; text := content;
          byteSize := Z.of_nat (String.length content);
          mtime := 0%Z; digest := content |}.

Definition oneSource : Disk :=
  Some (Dir [("a.js", file sample_if_else)]).

Definition brokenManifest : Disk :=
  Some (Dir [("a.js", file sample_if_else); ("package.json", file "{")]).

(** A file that imports a sibling and a package that bears the
    relative path of the file itself. *)
Definition selfNamed : Disk :=
  Some (Dir [("utils.js",
              file ("import a from './a';" ++ String newline
                    "import b from 'utils.js';"))]).


(** The files of the inventory of a directory. *)
Definition inventoryOf (disk : Disk) : list InventoryFile :=
  match traverseDirectory disk None with
  | Ok found => files (makeInventory found)
  | Throw _ => []
  end.

(** The per-file pass on a directory. *)
Definition passOn (disk : Disk) : Result Analysis :=
  analyzeFiles platform disk initialAnalysis (inventoryOf disk).

End Sample.


Definition writtenDependencyMap (s : State) : option DependencyMap :=
  match objGet (st_written s) DEPENDENCY_MAP_FILE with
  | Some (DependencyDoc dm) => Some dm
  | _ => None
  end.

Definition writtenMetrics (s : State) : option Metrics :=
  match objGet (st_written s) METRICS_FILE with
  | Some (MetricsDoc m) => Some m
  | _ => None
  end.

(** The invariant of the specification on the dependency map, in its
    words: no specifier of the external set is a key of the internal
    mapping. *)
Definition externalAvoidsInternalKeys (dm : DependencyMap) : Prop :=
  forall specifier,
    In specifier (external dm) -> objGet (internal dm) specifier = None.


(** ** The complexity score in the words of the specification

    A second definition, written from the specification and not from
    the code: one, plus the whole-word occurrences of the seven keywords,
    plus the occurrences of the two operators as tokens. *)
Module SpecComplexity.

(** The occurrences of [keyword] that have no word character right
    before and none right after. *)
Fixpoint wholeWordCount (keyword : string) (prevWord : bool) (s : string)
  : nat :=
  (match dropPrefix keyword s with
   | Some rest => if negb prevWord && negb (headIsWord rest) then 1 else 0
   | None => 0
   end
   +
   match s with
   | EmptyString => 0
   | String c s' => wholeWordCount keyword (isWordChar c) s'
   end)%nat.

(** The occurrences of an operator, read from the left without
    overlap. *)
Fixpoint tokenCount (operator : string) (skip : nat) (s : string) : nat :=
  match s with
  | EmptyString => 0
  | String c s' =>
      match skip with
      | S k => tokenCount operator k s'
      | O =>
          if startsWith operator s
          then S (tokenCount operator (pred (String.length operator)) s')
          else tokenCount operator 0 s'
      end
  end.

Definition keywords : list string :=
  ["if"; "else"; "for"; "while"; "case"; "catch"; "return"].

Definition operators : list string := ["&&"; "||"].

Definition complexity (content : string) : Z :=
  (1
   + Z.of_nat (list_sum (map (fun k => wholeWordCount k false content)
                             keywords))
   + Z.of_nat (list_sum (map (fun o => tokenCount o 0 content)
                             operators)))%Z.

End SpecComplexity.

(** ** Vocabulary of the properties of the per-file pass *)

Definition sumZ (l : list Z) : Z := fold_right Z.add 0%Z l.

(** A specifier that begins with a dot, the test of [runAnalysis]. *)
Definition isRelative (imp : string) : bool := startsWith "." imp.

(** The elements of a list at their first occurrence, in order. *)
Definition firstOccurrences (l : list string) : list string :=
  rev (nodup string_dec (rev l)).

Definition nonEmpty {A : Type} (l : list A) : option (list A) :=
  match l with
  | [] => None
  | _ => Some l
  end.

(** An analysis that carries no error. *)
Definition succeeded (a : AnalysisResult) : bool :=
  match ar_error a with
  | None => true
  | Some _ => false
  end.

Section PassVocabulary.
Variable P : Platform.
Variable disk : Disk.

(** The analysis the loop computes for a source file. *)
Definition analysisOf (file : InventoryFile) : AnalysisResult :=
  analyzeJavaScriptFile P disk (path (record file)).

(** The analyses of the source files of an inventory, in scan order. *)
Definition sourceResults (inventoryFiles : list InventoryFile)
  : list AnalysisResult :=
  map analysisOf (filter isSourceFile inventoryFiles).

(** The same analyses, each with the relative path of its file. *)
Definition sourceEntries (inventoryFiles : list InventoryFile)
  : list (string * AnalysisResult) :=
  map (fun file => (relativePath (record file), analysisOf file))
      (filter isSourceFile inventoryFiles).

(** Every import of every source file with the relative path of the
    file it is extracted from, in scan and extraction order. *)
Definition importPairs (inventoryFiles : list InventoryFile)
  : list (string * string) :=
  flat_map
    (fun file =>
       map (pair (relativePath (record file))) (ar_imports (analysisOf file)))
    (filter isSourceFile inventoryFiles).

End PassVocabulary.

(** The relative specifiers imported under the key [importer]. *)
Definition edgesUnder (importer : string) (pairs : list (string * string))
  : list string :=
  map snd
    (filter (fun ki => String.eqb (fst ki) importer && isRelative (snd ki))
            pairs).

(** The specifiers that are not relative. *)
Definition packagesOf (pairs : list (string * string)) : list string :=
  filter (fun imp => negb (isRelative imp)) (map snd pairs).

Definition addPair (dm : DependencyMap) (ki : string * string)
  : DependencyMap :=
  addImport (fst ki) dm (snd ki).

Definition emptyDependencyMap : DependencyMap :=
  {| internal := []; external := [] |}.

(** The artifact files in the order [runAnalysis] writes them. *)
Definition artifactOrder : list string :=
  [CODE_INVENTORY_FILE; DEPENDENCY_MAP_FILE; METRICS_FILE;
   ANALYSIS_SUMMARY_FILE; MACHINE_CONTEXT_FILE; TASK_BACKLOG_FILE].

(** The state a run starts from. *)
Definition initialState (disk : Disk) (ticks : nat) : State :=
  {| st_disk := disk; st_ticks := ticks; st_written := [] |}.


(** ** Vocabulary of the properties of two runs *)

(** The paths the per-file pass reads: those of the source files and of
    the config files. *)
Definition analyzedPath (p : Path) : bool :=
  arrayIncludes SOURCE_EXTENSIONS (extname p)
  || arrayIncludes CONFIG_NAMES (basename p).

Definition analyzedRecord (f : FileRecord) : bool := analyzedPath (path f).


(** Whether a write of the file [name] succeeds among the entries of a
    directory, and in the analysis directory of a disk. *)
Definition writableEntry (sub : list (string * Node)) (name : string) : bool :=
  match objGet sub name with
  | None => true
  | Some (File old) => accessible old
  | Some (Dir _) => false
  end.

Definition writable (disk : Disk) (name : string) : bool :=
  match disk with
  | Some (Dir entries) =>
      match objGet entries ANALYSIS_DIR with
      | Some (Dir sub) => writableEntry sub name
      | _ => false
      end
  | _ => false
  end.


(** The disk [d'] is the disk [d] after writes the per-file pass does
    not see: the pass reads the same, the traversal finds the same files
    up to records the pass does not read (and the very same when the
    analysis directory is ignored), and what was writable still is. *)
Definition Extends (d d' : Disk) : Prop :=
  (forall p, analyzedPath p = true -> readFile d' p = readFile d p)
  /\ (forall options found,
         traverseDirectory d options = Ok found ->
         exists found',
           traverseDirectory d' options = Ok found'
           /\ filter analyzedRecord found' = filter analyzedRecord found
           /\ (ignored (ignorePatternsOf options) ANALYSIS_DIR = true ->
               found' = found))
  /\ (forall m, writable d m = true -> writable d' m = true).

(** ** Vocabulary of the properties of the work command *)

(** Equality of identifiers once both are put in lower case. *)
Definition sameIdentifier (taskId : string) (t : Task) : Prop :=
  toLowerCase (id t) = toLowerCase taskId.

Module WorkExample.

Definition backlog : Backlog :=
  {| version := "3.0"; generated := 0%Z; totalTasks := 1%Z;
     tasks := [testingTask 1] |}.

End WorkExample.

(** ** Vocabulary of the properties of the complexity score *)

(** The literal atoms of a keyword. *)
Fixpoint lits (keyword : string) : list atom :=
  match keyword with
  | EmptyString => []
  | String c k => Lit c :: lits k
  end.

(** Every character of [keyword] is a word character ([w] true) or none
    is ([w] false). *)
Fixpoint uniform (w : bool) (keyword : string) : bool :=
  match keyword with
  | EmptyString => true
  | String c k => Bool.eqb (isWordChar c) w && uniform w k
  end.

(** The occurrences of [keyword] that have a word boundary on both
    sides, the characters of the keyword being of the class [w]: right
    before and right after comes a character of the other class, or an
    end of the text when [w] is true. *)
Fixpoint boundedCount (w : bool) (keyword : string) (prevWord : bool)
    (s : string) : nat :=
  (match dropPrefix keyword s with
   | Some rest =>
       if Bool.eqb prevWord (negb w) && Bool.eqb (headIsWord rest) (negb w)
       then 1 else 0
   | None => 0
   end
   +
   match s with
   | EmptyString => 0
   | String c s' => boundedCount w keyword (isWordChar c) s'
   end)%nat.

(** The positions stepped over after a match all follow a character of
    the class [w]. *)
Fixpoint skipsInside (w : bool) (prevWord : bool) (skip : nat) (s : string)
  : Prop :=
  match skip with
  | O => True
  | S k =>
      prevWord = w
      /\ match s with
         | EmptyString => True
         | String c s' => skipsInside w (isWordChar c) k s'
         end
  end.

(** The pattern [new RegExp] builds for a keyword without
    metacharacter. *)
Definition boundedPattern (keyword : string) : pattern :=
  [WordBoundary :: lits keyword ++ [WordBoundary]].

(** ** Vocabulary of the properties of the traversal *)

(** Induction on a node, with the property at hand for the children of
    a directory. *)
Fixpoint Node_induction (Q : Node -> Prop)
    (Hfile : forall d, Q (File d))
    (Hdir : forall entries,
        Forall (fun entry => Q (snd entry)) entries -> Q (Dir entries))
    (n : Node) {struct n} : Q n :=
  match n with
  | File d => Hfile d
  | Dir entries =>
      Hdir entries
        ((fix children (l : list (string * Node))
            : Forall (fun entry => Q (snd entry)) l :=
            match l with
            | [] => Forall_nil _
            | entry :: rest =>
                Forall_cons entry (Node_induction Q Hfile Hdir (snd entry))
                            (children rest)
            end) entries)
  end.

(** [Found ignorePatterns fullPath n f]: below the node [n], which
    stands at [fullPath], there is a readable text file that no ignored
    name leads to, and [f] is the record of that file. *)
Inductive Found (ignorePatterns : list string)
  : Path -> Node -> FileRecord -> Prop :=
| Found_file (fullPath : Path) (d : FileData) :
    isTextFile fullPath = true -> accessible d = true ->
    Found ignorePatterns fullPath (File d)
      {| path := fullPath; relativePath := relative fullPath;
         size := byteSize d; modified := mtime d; hash := digest d |}
| Found_item (fullPath : Path) (entries : list (string * Node))
    (item : string) (child : Node) (f : FileRecord) :
    In (item, child) entries -> ignored ignorePatterns item = false ->
    Found ignorePatterns (pathJoin fullPath item) child f ->
    Found ignorePatterns fullPath (Dir entries) f.

(** [Unreadable ignorePatterns fullPath n]: below [n] there is a text
    file that cannot be read and that no ignored name leads to. *)
Inductive Unreadable (ignorePatterns : list string) : Path -> Node -> Prop :=
| Unreadable_file (fullPath : Path) (d : FileData) :
    isTextFile fullPath = true -> accessible d = false ->
    Unreadable ignorePatterns fullPath (File d)
| Unreadable_item (fullPath : Path) (entries : list (string * Node))
    (item : string) (child : Node) :
    In (item, child) entries -> ignored ignorePatterns item = false ->
    Unreadable ignorePatterns (pathJoin fullPath item) child ->
    Unreadable ignorePatterns fullPath (Dir entries).

(** A name of a directory entry holds no separator. *)
Definition validName (name : string) : bool := negb (includes "/" name).

(** A directory tree as a file system has it: the names of a directory
    are distinct and hold no separator. *)
Fixpoint wellFormed (n : Node) : Prop :=
  match n with
  | File _ => True
  | Dir entries =>
      NoDup (map fst entries)
      /\ (fix children (l : list (string * Node)) : Prop :=
            match l with
            | [] => True
            | entry :: rest =>
                validName (fst entry) = true /\ wellFormed (snd entry)
                /\ children rest
            end) entries
  end.

(** ** Vocabulary of the properties of the inventory and the metrics *)

(** The key under which [runAnalysis] counts a file of the inventory. *)
Definition typeKey (file : InventoryFile) : string :=
  if String.eqb (extension file) "" then "no-extension" else extension file.

(** The number of files of an inventory counted under a key. *)
Definition filesOfType (key : string) (inventoryFiles : list InventoryFile)
  : Z :=
  Z.of_nat (count_occ string_dec (map typeKey inventoryFiles) key).

(** An analysis whose [hasTests] is true. *)
Definition reportsTests (a : AnalysisResult) : bool :=
  match ar_hasTests a with
  | Some true => true
  | _ => false
  end.

(** The frameworks of an analysis, none for a failed one. *)
Definition frameworksOf (a : AnalysisResult) : list string :=
  match ar_frameworks a with
  | Some l => l
  | None => []
  end.


(** ** More directories for the examples *)

Module MoreSamples.

(** A source file beside a package manifest that holds the empty
    object. *)
Definition tree : Node :=
  Dir [("a.js", Sample.file sample_if_else);
       ("package.json", Sample.file "{}")].

Definition withManifest : Disk := Some tree.

(** The records of its traversal and the outcome of its per-file
    pass. *)
Definition found : list FileRecord :=
  match traverseDirectory withManifest None with
  | Ok l => l
  | Throw _ => []
  end.

Definition pass : Analysis :=
  match analyzeFiles Sample.platform withManifest initialAnalysis
          (files (makeInventory found)) with
  | Ok st => st
  | Throw _ => initialAnalysis
  end.

(** The record of a source file that is no longer on the disk. *)
Definition goneFile : InventoryFile :=
  inventoryFile {| path := ["gone.js"]; relativePath := "gone.js";
                   size := 0%Z; modified := 0%Z; hash := "" |}.


End MoreSamples.

(** ** Vocabulary of the properties of a run on the disk *)

(** [Untouched d d']: every path reads on [d'] as it reads on [d], but
    the analysis directory itself and the six artifact files in it. *)
Definition Untouched (d d' : Disk) : Prop :=
  forall p,
    p <> [ANALYSIS_DIR] ->
    (forall name, In name artifactOrder -> p <> [ANALYSIS_DIR; name]) ->
    readFile d' p = readFile d p.

(** A computation of the run keeps the disk untouched, and the scanned
    directory in existence, when it starts on a state where the scanned
    directory exists. *)
Definition Keeps {A : Type} (m : M A) : Prop :=
  forall s s' r,
    existsSync (st_disk s) [] = true ->
    m s = (s', r) ->
    Untouched (st_disk s) (st_disk s')
    /\ existsSync (st_disk s') [] = true.

(** Every artifact written so far is on the disk with its text. *)
Definition Recorded (P : Platform) (s : State) : Prop :=
  forall name a,
    In (name, a) (st_written s) ->
    readFileSync (st_disk s) [ANALYSIS_DIR; name] = Ok (render P a).

(** A computation of the run that writes artifacts under the names
    [names] at most: started where the artifacts written so far are on
    the disk and none bears one of these names, it ends where the
    artifacts written so far are on the disk, and has written under
    these names only. *)
Definition Writes (P : Platform) {A : Type} (names : list string) (m : M A)
  : Prop :=
  forall s s' r,
    Recorded P s ->
    (forall n, In n names -> ~ In n (map fst (st_written s))) ->
    m s = (s', r) ->
    Recorded P s'
    /\ (forall n, In n (map fst (st_written s')) ->
                  In n (map fst (st_written s)) \/ In n names).

Module LongSample.

(** A directory with one source file of a hundred letters. *)
Definition text : string := repeatChar "a" 100.

Definition disk : Disk := Some (Dir [("long.js", Sample.file text)]).

Definition theFile : InventoryFile :=
  inventoryFile {| path := ["long.js"]; relativePath := "long.js";
                   size := 100%Z; modified := 0%Z; hash := text |}.

End LongSample.

(** The number a text of decimal digits stands for, read from the left
    with [acc] as the value of what has been read. *)
Fixpoint decimalValue (s : string) (acc : nat) : nat :=
  match s with
  | EmptyString => acc
  | String c s' => decimalValue s' (10 * acc + (nat_of_ascii c - 48))
  end.

(** ** The export pattern and the framework patterns

    The export patterns of [analyzeJavaScriptFile] and the patterns of
    [detectFrameworks], on the text of a file.  The analysis itself
    takes both results from the platform. *)

Module Detection.

(** The classes [[a-zA-Z_$]] and [[a-zA-Z0-9_$]]. *)
Definition isIdentifierStart (c : ascii) : bool :=
  between 97 122 c || between 65 90 c
  || (nat_of_ascii c =? 95)%nat || (nat_of_ascii c =? 36)%nat.

Definition isIdentifierPart (c : ascii) : bool :=
  between 97 122 c || between 65 90 c || between 48 57 c
  || (nat_of_ascii c =? 95)%nat || (nat_of_ascii c =? 36)%nat.

(** One or more spaces and an identifier, which is the capture group:
    the length matched and the identifier.  The character after the
    spaces starts the identifier, so it is not a space, and the
    identifier is the last element of its patterns: both greedy
    repetitions take all they can. *)
Definition nameAfterSpaces (s : string) : option (nat * string) :=
  let (spaces, r) := span isSpace s in
  match spaces, r with
  | String _ _, String c r' =>
      if isIdentifierStart c then
        let (tail, _) := span isIdentifierPart r' in
        Some (String.length spaces + 1 + String.length tail, String c tail)%nat
      else None
  | _, _ => None
  end.

Definition declarationKeywords : list string :=
  ["class"; "function"; "const"; "let"; "var"].

(** The alternatives of the keyword group, tried in order, each
    followed by the spaces and the identifier. *)
Fixpoint declarationOf (keywords : list string) (s : string)
  : option (nat * string) :=
  match keywords with
  | [] => None
  | keyword :: rest =>
      match dropPrefix keyword s with
      | Some r =>
          match nameAfterSpaces r with
          | Some (n, name) => Some (String.length keyword + n, name)%nat
          | None => declarationOf rest s
          end
      | None => declarationOf rest s
      end
  end.

(** The pattern [(?:class|function|const|let|var)\s+(I)], where [I] is
    an identifier, tried at one position. *)
Definition declaration (s : string) : option (nat * string) :=
  declarationOf declarationKeywords s.

(** The pattern [export\s+(?:default\s+)?(?:class|...)\s+(I)] tried at
    one position: the optional group is tried first, then skipped. *)
Definition exportPattern : matcher :=
  fun _ s =>
    match dropPrefix "export" s with
    | None => None
    | Some r0 =>
        let (spaces, r1) := span isSpace r0 in
        match spaces with
        | EmptyString => None
        | String _ _ =>
            let withDefault :=
              match dropPrefix "default" r1 with
              | None => None
              | Some r2 =>
                  let (spaces2, r3) := span isSpace r2 in
                  match spaces2 with
                  | EmptyString => None
                  | String _ _ =>
                      option_map
                        (fun d => (7 + String.length spaces2 + fst d)%nat)
                        (declaration r3)
                  end
              end in
            match withDefault with
            | Some n => Some (6 + String.length spaces + n)%nat
            | None =>
                option_map (fun d => (6 + String.length spaces + fst d)%nat)
                           (declaration r1)
            end
        end
    end.

(** [exp.match(re)] for the declaration pattern without the [g] flag:
    the capture group of the leftmost match. *)
Fixpoint matchDeclaration (exp : string) : option string :=
  match declaration exp with
  | Some (_, name) => Some name
  | None =>
      match exp with
      | EmptyString => None
      | String _ exp' => matchDeclaration exp'
      end
  end.

Definition exportMatches (content : string) : list string :=
  match matchG exportPattern content with
  | Some l => l
  | None => []
  end.

(** The array [exports] of [analyzeJavaScriptFile]. *)
Definition extractExports (content : string) : list string :=
  flat_map
    (fun exp =>
       match matchDeclaration exp with
       | Some name => [name]
       | None => []
       end)
    (exportMatches content).

(** [re.test(content)] for a pattern without flags: some alternative
    matches at some position, the end of the text included. *)
Fixpoint existsSuffix (f : string -> bool) (s : string) : bool :=
  f s ||
  match s with
  | EmptyString => false
  | String _ s' => existsSuffix f s'
  end.

Definition test (alternatives : list (string -> bool)) (content : string)
  : bool :=
  existsSuffix (fun s => existsb (fun alternative => alternative s)
                                 alternatives)
               content.

(** The alternatives of the framework patterns, each tried at one
    position.  A literal text: *)
Definition literal (l : string) : string -> bool := startsWith l.

(** [.*?x]: the text [x] after characters that are no line
    terminators. *)
Fixpoint lazyThen (x : string) (s : string) : bool :=
  startsWith x s ||
  match s with
  | EmptyString => false
  | String c s' => negb (isLineTerminator c) && lazyThen x s'
  end.

(** [import.*?x]. *)
Definition importThen (x : string) (s : string) : bool :=
  match dropPrefix "import" s with
  | Some r => lazyThen x r
  | None => false
  end.

(** [from\s+QnameQ], where [Q] is the class of the quote characters. *)
Definition fromQuoted (name : string) (s : string) : bool :=
  match dropPrefix "from" s with
  | None => false
  | Some r1 =>
      let (spaces, r2) := span isSpace r1 in
      match spaces, r2 with
      | String _ _, String q r3 =>
          isQuote q &&
          match dropPrefix name r3 with
          | Some (String q' _) => isQuote q'
          | _ => false
          end
      | _, _ => false
      end
  end.

(** [require\(QnameQ\)]. *)
Definition requireQuoted (name : string) (s : string) : bool :=
  match dropPrefix "require(" s with
  | Some (String q r) =>
      isQuote q &&
      match dropPrefix name r with
      | Some (String q' r') => isQuote q' && startsWith ")" r'
      | _ => false
      end
  | _ => false
  end.

(** [l$]: the literal text [l] at the end of the content. *)
Definition atEnd (l : string) : string -> bool := String.eqb l.

(** [---[\s\S]*?---]: three dashes, and three dashes again anywhere
    after them. *)
Definition fenced (s : string) : bool :=
  match dropPrefix "---" s with
  | Some r => includes "---" r
  | None => false
  end.

Definition frameworkPatterns : list (string * list (string -> bool)) :=
  [("React", [importThen "React"; fromQuoted "react"; literal "jsx";
              literal "useState"; literal "useEffect"]);
   ("Vue", [importThen "Vue"; fromQuoted "vue"; atEnd ".vue";
            literal "<template>"]);
   ("Angular", [importThen "@angular"; literal "Component(";
                literal "Injectable("; literal "NgModule("]);
   ("Svelte", [importThen "svelte"; atEnd ".svelte"; literal "<script>"]);
   ("Astro", [atEnd ".astro"; fenced; importThen "astro"]);
   ("Express", [requireQuoted "express"; fromQuoted "express"]);
   ("Next.js", [literal "next/"; literal "getStaticProps";
                literal "getServerSideProps"]);
   ("Nuxt.js", [literal "nuxt"; literal "asyncData"; literal "fetch("])].

(** [detectFrameworks(content)]. *)
Definition detectFrameworks (content : string) : list string :=
  map fst (filter (fun entry => test (snd entry) content) frameworkPatterns).

End Detection.

(** ** The prompt of the work command

    What [runWork] composes for the task it has selected.  The files a
    task names are looked up below the project path of the machine
    context, which is any path of the host: the host gives
    [path.join], [fs.existsSync], [fs.readFileSync], the working
    directory and the text of a number. *)

Module Composer.

Record Host : Type := {
  joinPath : string -> string -> string;
  fileExists : string -> bool;
  readText : string -> Result string;
  cwd : string;
  numberText : Z -> string
}.

Definition lf : string := String newline "".

(** [s || fallback] on texts. *)
Definition orElse (s fallback : string) : string :=
  match s with
  | EmptyString => fallback
  | String _ _ => s
  end.

(** [s.slice(1)]. *)
Definition slice1 (s : string) : string :=
  match s with
  | EmptyString => ""
  | String _ rest => rest
  end.

Section OnHost.
Variable H : Host.

(** [context?.projectPath || process.cwd()]. *)
Definition baseDirOf (context : option MachineContext) : string :=
  match context with
  | Some c => orElse (projectPath c) (cwd H)
  | None => cwd H
  end.

(** The callback of [task.sourceFiles.map]. *)
Definition fileSection (baseDir file : string) : Result string :=
  let fullPath := joinPath H baseDir file in
  if fileExists H fullPath then
    bindR (readText H fullPath) (fun content =>
    Ok ("### " ++ file ++ lf ++ "```" ++ slice1 (extnameOfString file) ++ lf
        ++ content ++ lf ++ "```")%string)
  else Ok ("### " ++ file ++ " (Not Found)")%string.

Fixpoint fileSections (baseDir : string) (sourceFiles : list string)
  : Result (list string) :=
  match sourceFiles with
  | [] => Ok []
  | file :: rest =>
      bindR (fileSection baseDir file) (fun section =>
      bindR (fileSections baseDir rest) (fun sections =>
      Ok (section :: sections)))
  end.

Definition sourceContext (context : option MachineContext) (task : Task)
  : Result string :=
  match sourceFiles task with
  | [] => Ok ""
  | files =>
      bindR (fileSections (baseDirOf context) files) (fun sections =>
      Ok (join (lf ++ lf)%string sections))
  end.

Definition contextSentence (context : option MachineContext) : string :=
  match context with
  | Some c =>
      ("This is part of a "
       ++ orElse (join ", " (sm_frameworks (summary c))) "JavaScript"
       ++ " project with " ++ numberText H (fileCount (summary c))
       ++ " files and " ++ numberText H (linesOfCode (summary c))
       ++ " lines of code.")%string
  | None => ""
  end.

Definition enhancedPrompt (context : option MachineContext) (task : Task)
  : Result string :=
  bindR (sourceContext context task) (fun sources =>
  Ok ("# Task: " ++ title task ++ lf
      ++ lf
      ++ description task ++ lf
      ++ lf
      ++ "**Priority:** " ++ priority task ++ lf
      ++ "**Estimated Effort:** " ++ estimatedEffort task ++ lf
      ++ "**Tags:** " ++ orElse (join ", " (tags task)) "none" ++ lf
      ++ lf
      ++ "## Context" ++ lf
      ++ contextSentence context ++ lf
      ++ lf
      ++ prompt task ++ lf
      ++ lf
      ++ "## Source Files" ++ lf
      ++ orElse sources "No source files specified for this task." ++ lf
      ++ lf
      ++ "---" ++ lf
      ++ "*Generated by AI Refactoring Tool v3.0*")%string).

End OnHost.

(** A host on which no file exists. *)
Definition emptyHost : Host :=
  {| joinPath := fun a b => (a ++ "/" ++ b)%string;
     fileExists := fun _ => false;
     readText := fun _ => Throw "ENOENT: no such file or directory";
     cwd := "/";
     numberText := fun _ => "0" |}.

End Composer.

(** ** The shebang line of the build script

    [scripts/build.js] on the text of [src/index.js]: the text it
    leaves in the file. *)

Module Build.

Definition shebang : string := "#!/usr/bin/env node".

Definition withShebang (content : string) : string :=
  if negb (startsWith shebang content)
  then (shebang ++ String newline (String newline "")) ++ content
  else content.

End Build.

(** ** The analysis summary

    [generateAnalysisSummary]: the text of the report.  The host gives
    the text of a number, of a size in kilobytes with two decimals and
    of a date. *)

Module Report.

Record Formats : Type := {
  numberText : Z -> string;
  kilobytes : Z -> string;       (* (n / 1024).toFixed(2) *)
  isoDate : Date -> string       (* date.toISOString() *)
}.

Definition lf : string := String newline "".

(** [entries.sort(([,a], [,b]) => b - a)]: by falling count; the sort
    is stable, so entries of equal count keep their order. *)
Fixpoint insertByCount (x : string * Z) (l : list (string * Z))
  : list (string * Z) :=
  match l with
  | [] => [x]
  | y :: l' =>
      if (snd x <? snd y)%Z then y :: insertByCount x l' else x :: y :: l'
  end.

Definition sortByCount (l : list (string * Z)) : list (string * Z) :=
  fold_right insertByCount [] l.

(** [a.complexity && a.complexity > 20]. *)
Definition isHighComplexity (a : AnalysisResult) : bool :=
  negb (ar_complexity a =? 0)%Z && (20 <? ar_complexity a)%Z.

(** [a.linesOfCode && a.linesOfCode > 500]. *)
Definition isLarge (a : AnalysisResult) : bool :=
  match ar_linesOfCode a with
  | Some n => negb (n =? 0)%Z && (500 <? n)%Z
  | None => false
  end.

Definition highComplexityCount (analysis : list (string * AnalysisResult))
  : nat :=
  List.length (filter (fun entry => isHighComplexity (snd entry)) analysis).

Definition largeFileCount (analysis : list (string * AnalysisResult)) : nat :=
  List.length (filter (fun entry => isLarge (snd entry)) analysis).

(** The packages shown, and the line that counts the others. *)
Definition shownDependencies (dependencies : DependencyMap) : list string :=
  firstn 10 (external dependencies).

Definition hiddenDependencies (dependencies : DependencyMap) : option nat :=
  if (10 <? List.length (external dependencies))%nat
  then Some (List.length (external dependencies) - 10)%nat
  else None.

Section Formatted.
Variable F : Formats.

Definition count (n : nat) : string := numberText F (Z.of_nat n).

Definition frameworksLine (metrics : Metrics) : string :=
  match frameworks metrics with
  | [] => "- **Frameworks**: None detected"
  | l => "- **Frameworks**: " ++ join ", " l
  end.

Definition fileDistribution (inventory : CodeInventory) : string :=
  join lf
    (map (fun entry =>
            ("- **" ++ fst entry ++ "**: " ++ numberText F (snd entry)
             ++ " files")%string)
         (sortByCount (fileTypes inventory))).

Definition configurationFiles (metrics : Metrics) : string :=
  match join lf
          (map (fun cf => ("- **" ++ cf_file cf ++ "**: " ++ cf_type cf)%string)
               (configFiles metrics)) with
  | EmptyString => "None found"
  | text => text
  end.

Definition externalDependencies (dependencies : DependencyMap) : string :=
  (join lf (map (fun dep => "- " ++ dep) (shownDependencies dependencies))
   ++ lf
   ++ match hiddenDependencies dependencies with
      | Some n => "... and " ++ count n ++ " more"
      | None => ""
      end)%string.

Definition generateAnalysisSummary (inventory : CodeInventory)
    (analysis : list (string * AnalysisResult))
    (dependencies : DependencyMap) (metrics : Metrics)
    (projectPath : string) (now : Date) : string :=
  ("# AI Refactoring Analysis Report" ++ lf
   ++ lf
   ++ "## Project Overview" ++ lf
   ++ "- **Project Path**: " ++ projectPath ++ lf
   ++ "- **Analysis Date**: " ++ isoDate F now ++ lf
   ++ "- **Total Files**: " ++ numberText F (totalFiles inventory) ++ lf
   ++ "- **Total Size**: " ++ kilobytes F (totalSize inventory) ++ " KB" ++ lf
   ++ "- **Lines of Code**: " ++ numberText F (totalLinesOfCode metrics) ++ lf
   ++ "- **Total Complexity**: " ++ numberText F (totalComplexity metrics)
   ++ lf
   ++ lf
   ++ "## Technology Stack" ++ lf
   ++ frameworksLine metrics ++ lf
   ++ "- **Has Tests**: " ++ (if hasTests metrics then "Yes" else "No") ++ lf
   ++ lf
   ++ "## File Distribution" ++ lf
   ++ fileDistribution inventory ++ lf
   ++ lf
   ++ "## Configuration Files" ++ lf
   ++ configurationFiles metrics ++ lf
   ++ lf
   ++ "## External Dependencies" ++ lf
   ++ externalDependencies dependencies ++ lf
   ++ lf
   ++ "## Potential Refactoring Areas" ++ lf
   ++ lf
   ++ "### Code Quality" ++ lf
   ++ "- Files with high complexity (>20): "
   ++ count (highComplexityCount analysis) ++ lf
   ++ "- Large files (>500 LOC): " ++ count (largeFileCount analysis) ++ lf
   ++ lf
   ++ "### Architecture" ++ lf
   ++ "- Internal dependencies: "
   ++ count (List.length (objKeys (internal dependencies)))
   ++ " files have internal imports" ++ lf
   ++ "- External dependencies: "
   ++ count (List.length (external dependencies)) ++ " unique packages" ++ lf
   ++ lf
   ++ "### Recommendations" ++ lf
   ++ "1. **Code Organization**: Review file structure and module organization"
   ++ lf
   ++ "2. **Testing**: "
   ++ (if hasTests metrics then "Expand test coverage"
       else "Add comprehensive testing") ++ lf
   ++ "3. **Documentation**: Add/update README and inline documentation" ++ lf
   ++ "4. **Dependencies**: Audit and optimize external dependencies" ++ lf
   ++ "5. **Performance**: Review large files and complex functions" ++ lf
   ++ "6. **Standards**: Implement consistent coding standards and linting"
   ++ lf
   ++ lf
   ++ "## Next Steps" ++ lf
   ++ "Use the generated task backlog to systematically address identified issues."
   ++ lf
   ++ "Each task is designed to be AI-assistable and includes relevant context."
   ++ lf)%string.

End Formatted.

End Report.

(** ** The analyze command

    The options the action of the [analyze] command hands to
    [runAnalysis]; [ignore] is the value of [--ignore], the empty array
    when the option is not given. *)
Definition analyzeOptions (ignore : list string) : Options :=
  Some (ignore ++ [".git"; "node_modules"; "dist"; "build"]).

(** ** The traversal when listing and stat may throw

    [traverse] above walks a tree whose directories list and whose
    entries answer [fs.statSync].  [traverseDirectory] guards neither
    call.  Here the scanned tree may also hold an entry whose stat
    throws (a dangling link, a link that loops) and a directory whose
    [fs.readdirSync] throws; each carries the message of its
    exception. *)

Module Guardless.

Inductive Entry : Type :=
| Regular (d : FileData)
| Folder (entries : list (string * Entry))
| Unlistable (message : string)
| Broken (message : string).

Section Traversal.
Variable ignorePatterns : list string.

(** The branch of the loop for the entry at [fullPath], after the test
    of its name: [fs.statSync(fullPath)], then [traverse(fullPath)] for
    a directory, whose first statement is [fs.readdirSync], or the
    record of a text file. *)
Fixpoint traverse (fullPath : Path) (e : Entry) {struct e}
  : Result (list FileRecord) :=
  match e with
  | Broken message => Throw message
  | Unlistable message => Throw message
  | Folder entries =>
      (fix loop (items : list (string * Entry)) : Result (list FileRecord) :=
         match items with
         | [] => Ok []
         | (item, child) :: rest =>
             if ignored ignorePatterns item then loop rest
             else
               bindR (traverse (pathJoin fullPath item) child) (fun found =>
               bindR (loop rest) (fun more => Ok (found ++ more)))
         end) entries
  | Regular d =>
      if isTextFile fullPath then
        if accessible d then
          Ok [{| path := fullPath;
                 relativePath := relative fullPath;
                 size := byteSize d;
                 modified := mtime d;
                 hash := digest d |}]
        else Throw "EACCES: permission denied"
      else Ok []
  end.

End Traversal.

(** [traverseDirectory(dir, options)]: the scanned directory itself is
    listed without a stat; [Broken] at the root is a path where nothing
    stands, on which the listing throws. *)
Definition traverseDirectory (root : Entry) (options : Options)
  : Result (list FileRecord) :=
  match root with
  | Regular _ => Throw "ENOTDIR: not a directory"
  | _ => traverse (ignorePatternsOf options) [] root
  end.

(** A tree of [Node] is a tree where every directory lists and every
    entry answers the stat. *)
Fixpoint embed (n : Node) : Entry :=
  match n with
  | File d => Regular d
  | Dir entries =>
      Folder
        ((fix children (l : list (string * Node)) : list (string * Entry) :=
            match l with
            | [] => []
            | (name, child) :: rest => (name, embed child) :: children rest
            end) entries)
  end.

Definition embedDisk (disk : Disk) : Entry :=
  match disk with
  | Some n => embed n
  | None => Broken "ENOENT: no such file or directory"
  end.

Fixpoint Entry_induction (Q : Entry -> Prop)
    (Hregular : forall d, Q (Regular d))
    (Hfolder : forall entries,
        Forall (fun entry => Q (snd entry)) entries -> Q (Folder entries))
    (Hunlistable : forall message, Q (Unlistable message))
    (Hbroken : forall message, Q (Broken message))
    (e : Entry) {struct e} : Q e :=
  match e with
  | Regular d => Hregular d
  | Folder entries =>
      Hfolder entries
        ((fix children (l : list (string * Entry))
            : Forall (fun entry => Q (snd entry)) l :=
            match l with
            | [] => Forall_nil _
            | entry :: rest =>
                Forall_cons entry
                  (Entry_induction Q Hregular Hfolder Hunlistable Hbroken
                     (snd entry))
                  (children rest)
            end) entries)
  | Unlistable message => Hunlistable message
  | Broken message => Hbroken message
  end.

(** [Fails ignorePatterns fullPath e message]: at or below the entry
    [e], which stands at [fullPath], and through names that are not
    ignored, there is a text file that cannot be read, a directory
    that does not list or an entry whose stat throws; [message] is the
    message of its exception. *)
Inductive Fails (ignorePatterns : list string)
  : Path -> Entry -> string -> Prop :=
| Fails_file (fullPath : Path) (d : FileData) :
    isTextFile fullPath = true -> accessible d = false ->
    Fails ignorePatterns fullPath (Regular d) "EACCES: permission denied"
| Fails_unlistable (fullPath : Path) (message : string) :
    Fails ignorePatterns fullPath (Unlistable message) message
| Fails_broken (fullPath : Path) (message : string) :
    Fails ignorePatterns fullPath (Broken message) message
| Fails_item (fullPath : Path) (entries : list (string * Entry))
    (item : string) (child : Entry) (message : string) :
    In (item, child) entries -> ignored ignorePatterns item = false ->
    Fails ignorePatterns (pathJoin fullPath item) child message ->
    Fails ignorePatterns fullPath (Folder entries) message.

(** A directory that holds a source file beside an unreadable text
    file, a dangling link and a directory that does not list. *)
Definition hostile : Entry :=
  Folder
    [("a.js", Regular {| accessible := true; text := "x";
                         byteSize := 1%Z; mtime := 0%Z; digest := "x" |});
     ("locked.md", Regular {| accessible := false; text := "";
                              byteSize := 0%Z; mtime := 0%Z; digest := "" |});
     ("link", Broken "ENOENT: no such file or directory");
     ("private", Unlistable "EACCES: permission denied")].

End Guardless.

(** * Properties *)

(** ** Complexity *)

Lemma complexity_fold_lower_bound (content : string) (keywords : list string)
    (start : Z) :
  (start <=
   fold_left
     (fun complexity keyword =>
        let regex := RegExp ("\b" ++ keyword ++ "\b") in
        match matchG (matchPattern regex) content with
        | Some matches => complexity + Z.of_nat (List.length matches)
        | None => complexity
        end)
     keywords start)%Z.
Proof.
  revert start.
  induction keywords as [|keyword keywords IH]; intro start;
    cbn [fold_left].
  - lia.
  - cbv zeta.
    destruct (matchG _ content) as [matches|].
    + etransitivity; [|apply IH]. lia.
    + apply IH.
Qed.

Lemma calculateComplexity_positive (content : string) :
  (1 <= calculateComplexity content)%Z.
Proof.
  unfold calculateComplexity. apply complexity_fold_lower_bound.
Qed.

(** The pattern built for the operator [||] is the disjunction of a word
    boundary, the empty pattern and a word boundary: it matches the empty
    text at every position. *)
Lemma orPattern_always_matches (prevWord : bool) (s : string) :
  matchPattern (RegExp "\b||\b") prevWord s = Some O.
Proof.
  cbn. destruct (xorb prevWord (headIsWord s)); reflexivity.
Qed.

Lemma scanG_orPattern (s : string) (prevWord : bool) :
  List.length (scanG (matchPattern (RegExp "\b||\b")) prevWord 0 s)
  = S (String.length s).
Proof.
  revert prevWord.
  induction s as [|c s IH]; intro prevWord.
  - unfold scanG. rewrite orPattern_always_matches. reflexivity.
  - cbn [scanG]. rewrite orPattern_always_matches.
    cbn [pred List.length String.length]. rewrite IH. reflexivity.
Qed.

(** The last keyword always adds the length of the text plus one. *)
Lemma calculateComplexity_or_term (content : string) :
  calculateComplexity content
  = (fold_left
       (fun complexity keyword =>
          let regex := RegExp ("\b" ++ keyword ++ "\b") in
          match matchG (matchPattern regex) content with
          | Some matches => complexity + Z.of_nat (List.length matches)
          | None => complexity
          end)
       (removelast complexityKeywords) 1
     + Z.of_nat (S (String.length content)))%Z.
Proof.
  unfold calculateComplexity.
  change complexityKeywords with (removelast complexityKeywords ++ ["||"]).
  rewrite fold_left_app. cbn [fold_left].
  change (removelast (removelast complexityKeywords ++ ["||"]))
    with (removelast complexityKeywords).
  cbv zeta. unfold matchG.
  pose proof (scanG_orPattern content false) as Hlen.
  change ("\b" ++ "||" ++ "\b")%string with "\b||\b".
  destruct (scanG (matchPattern (RegExp "\b||\b")) false 0 content)
    as [|m l] eqn:E.
  - discriminate Hlen.
  - rewrite Hlen. reflexivity.
Qed.

Lemma calculateComplexity_above_length (content : string) :
  (2 + Z.of_nat (String.length content) <= calculateComplexity content)%Z.
Proof.
  rewrite calculateComplexity_or_term.
  pose proof (complexity_fold_lower_bound content
                (removelast complexityKeywords) 1).
  lia.
Qed.

(** The scenario of the specification: the score of the sample is 45,
    which is at least 4. *)
Lemma calculateComplexity_sample :
  calculateComplexity sample_if_else = 45%Z
  /\ (4 <= calculateComplexity sample_if_else)%Z.
Proof. split; vm_compute; [reflexivity | discriminate]. Qed.

(** ** The score as a count of occurrences *)

Lemma dropPrefix_app (keyword s rest : string) :
  dropPrefix keyword s = Some rest -> s = (keyword ++ rest)%string.
Proof.
  revert s. induction keyword as [|c k IH]; intros s H.
  - cbn in H. injection H as ->. reflexivity.
  - destruct s as [|d s']; cbn [dropPrefix] in H; [discriminate|].
    destruct (Ascii.eqb_spec c d) as [->|_]; [|discriminate].
    cbn. f_equal. apply IH, H.
Qed.

Lemma matchSeq_lits (w : bool) (keyword : string) :
  uniform w keyword = true ->
  forall s,
    matchSeq (lits keyword ++ [WordBoundary]) w s
    = match dropPrefix keyword s with
      | Some rest =>
          if Bool.eqb (headIsWord rest) (negb w)
          then Some (String.length keyword) else None
      | None => None
      end.
Proof.
  induction keyword as [|c k IH]; intros Hu s.
  - cbn. destruct w, (headIsWord s); reflexivity.
  - cbn [uniform] in Hu. apply andb_true_iff in Hu. destruct Hu as [Hc Hk].
    apply Bool.eqb_prop in Hc.
    cbn [lits app matchSeq dropPrefix].
    destruct s as [|d s']; [reflexivity|].
    destruct (Ascii.eqb_spec c d) as [<-|_]; [|reflexivity].
    rewrite Hc, (IH Hk s').
    destruct (dropPrefix k s') as [rest|]; [|reflexivity].
    destruct (Bool.eqb (headIsWord rest) (negb w)); reflexivity.
Qed.

(** The pattern of a keyword matches at a position exactly when the
    keyword stands there between two word boundaries. *)
Lemma matchPattern_bounded (w : bool) (keyword : string) (prevWord : bool)
    (s : string) :
  keyword <> "" -> uniform w keyword = true ->
  matchPattern (boundedPattern keyword) prevWord s
  = match dropPrefix keyword s with
    | Some rest =>
        if Bool.eqb prevWord (negb w) && Bool.eqb (headIsWord rest) (negb w)
        then Some (String.length keyword) else None
    | None => None
    end.
Proof.
  intros Hne Hu. destruct keyword as [|c k]; [congruence|].
  unfold boundedPattern. cbn [matchPattern].
  pose proof Hu as Hu'. cbn [uniform] in Hu'.
  apply andb_true_iff in Hu'. destruct Hu' as [Hc _].
  apply Bool.eqb_prop in Hc.
  cbn [matchSeq].
  destruct s as [|d s'].
  - cbn. destruct (xorb prevWord false); reflexivity.
  - cbn [headIsWord dropPrefix].
    destruct (Ascii.eqb_spec c d) as [<-|Hcd].
    + rewrite Hc.
      change (Lit c :: lits k ++ [WordBoundary])
        with (lits (String c k) ++ [WordBoundary]).
      rewrite (matchSeq_lits w (String c k) Hu
                 (String c s')) at 1.
      cbn [dropPrefix]. rewrite Ascii.eqb_refl.
      destruct (dropPrefix k s') as [rest|];
        [|destruct (xorb prevWord w); reflexivity].
      destruct prevWord, w, (headIsWord rest); reflexivity.
    + cbn [lits app matchSeq].
      destruct (Ascii.eqb_spec c d) as [E|_]; [contradiction|].
      destruct (xorb prevWord (isWordChar d)); reflexivity.
Qed.

Lemma skipsInside_keyword (w : bool) (k rest : string) (c : ascii) :
  uniform w (String c k) = true ->
  skipsInside w (isWordChar c) (String.length k) (k ++ rest).
Proof.
  revert c. induction k as [|c' k IH]; intros c Hu.
  - exact I.
  - cbn [uniform] in Hu. apply andb_true_iff in Hu. destruct Hu as [Hc Hk].
    apply Bool.eqb_prop in Hc.
    cbn [String.length skipsInside append]. split; [exact Hc|].
    apply IH, Hk.
Qed.

(** The scan of the pattern of a keyword finds the bounded occurrences
    of the keyword. *)
Lemma scanG_bounded (w : bool) (keyword : string) :
  keyword <> "" -> uniform w keyword = true ->
  forall s prevWord skip,
    skipsInside w prevWord skip s ->
    List.length (scanG (matchPattern (boundedPattern keyword))
                       prevWord skip s)
    = boundedCount w keyword prevWord s.
Proof.
  intros Hne Hu.
  induction s as [|c s IH]; intros prevWord skip Hskip.
  - destruct skip as [|k]; cbn [scanG boundedCount].
    + rewrite (matchPattern_bounded w keyword prevWord "" Hne Hu).
      destruct keyword; [congruence | reflexivity].
    + destruct keyword; [congruence | reflexivity].
  - destruct skip as [|k]; cbn [scanG boundedCount].
    + rewrite (matchPattern_bounded w keyword prevWord (String c s) Hne Hu).
      destruct (dropPrefix keyword (String c s)) as [rest|] eqn:Hdrop.
      * destruct (Bool.eqb prevWord (negb w)
                  && Bool.eqb (headIsWord rest) (negb w)).
        -- cbn [List.length]. rewrite IH; [reflexivity|].
           apply dropPrefix_app in Hdrop.
           destruct keyword as [|c0 k0]; [congruence|].
           cbn [append] in Hdrop. injection Hdrop as <- ->.
           cbn [String.length pred].
           apply skipsInside_keyword, Hu.
        -- rewrite IH; [reflexivity | exact I].
      * rewrite IH; [reflexivity | exact I].
    + cbn [skipsInside] in Hskip. destruct Hskip as [-> Hrest].
      rewrite (IH _ _ Hrest).
      destruct (dropPrefix keyword (String c s)); [|reflexivity].
      destruct w; reflexivity.
Qed.

Lemma wholeWordCount_bounded (keyword : string) (s : string) :
  forall prevWord,
    SpecComplexity.wholeWordCount keyword prevWord s
    = boundedCount true keyword prevWord s.
Proof.
  induction s as [|c s IH]; intro prevWord;
    cbn [SpecComplexity.wholeWordCount boundedCount].
  - destruct (dropPrefix keyword ""); [|reflexivity].
    destruct prevWord, (headIsWord s); reflexivity.
  - rewrite IH. destruct (dropPrefix keyword (String c s)) as [rest|];
      [|reflexivity].
    destruct prevWord, (headIsWord rest); reflexivity.
Qed.

Lemma matchG_length (m : matcher) (content : string) (complexity : Z) :
  match matchG m content with
  | Some matches => (complexity + Z.of_nat (List.length matches))%Z
  | None => complexity
  end
  = (complexity + Z.of_nat (List.length (scanG m false 0 content)))%Z.
Proof.
  unfold matchG. destruct (scanG m false 0 content); cbn [List.length]; lia.
Qed.

(** What the code computes: one, plus the whole-word occurrences of the
    seven keywords, plus the occurrences of [&&] that have a word
    character right before and right after, plus the length of the text
    plus one. *)
Lemma calculateComplexity_formula (content : string) :
  calculateComplexity content
  = (1
     + Z.of_nat (list_sum (map (fun k =>
                                  SpecComplexity.wholeWordCount k false content)
                               SpecComplexity.keywords))
     + Z.of_nat (boundedCount false "&&" false content)
     + Z.of_nat (S (String.length content)))%Z.
Proof.
  unfold calculateComplexity, complexityKeywords. cbn [fold_left]. cbv zeta.
  rewrite !matchG_length.
  change (RegExp ("\b" ++ "if" ++ "\b")) with (boundedPattern "if").
  change (RegExp ("\b" ++ "else" ++ "\b")) with (boundedPattern "else").
  change (RegExp ("\b" ++ "for" ++ "\b")) with (boundedPattern "for").
  change (RegExp ("\b" ++ "while" ++ "\b")) with (boundedPattern "while").
  change (RegExp ("\b" ++ "case" ++ "\b")) with (boundedPattern "case").
  change (RegExp ("\b" ++ "catch" ++ "\b")) with (boundedPattern "catch").
  change (RegExp ("\b" ++ "return" ++ "\b")) with (boundedPattern "return").
  change (RegExp ("\b" ++ "&&" ++ "\b")) with (boundedPattern "&&").
  change ("\b" ++ "||" ++ "\b")%string with "\b||\b".
  rewrite scanG_orPattern.
  rewrite !(scanG_bounded true) by (try discriminate; try reflexivity; exact I).
  rewrite (scanG_bounded false "&&")
    by (try discriminate; try reflexivity; exact I).
  cbn [SpecComplexity.keywords map list_sum].
  rewrite !wholeWordCount_bounded.
  unfold list_sum. cbn [fold_right]. lia.
Qed.

(** C5 (the code at the failing inputs).  On the text [a || b] the code
    returns 8 where the specification's count is 2, on [a && b] it
    returns 8 as well where the count is 2, and on the empty text it
    returns 2 where the count is 1: the pattern built for [||] matches
    the empty text at every position, and the pattern built for [&&]
    asks for a word character on both sides of the operator. *)
Theorem calculateComplexity_operators_miscounted :
  calculateComplexity "a || b" = 8%Z
  /\ SpecComplexity.complexity "a || b" = 2%Z
  /\ calculateComplexity "a && b" = 8%Z
  /\ SpecComplexity.complexity "a && b" = 2%Z
  /\ calculateComplexity "" = 2%Z
  /\ SpecComplexity.complexity "" = 1%Z.
Proof. repeat split; vm_compute; reflexivity. Qed.

(** ** The task backlog *)

Lemma highComplexityFiles_filter (analysis : list (string * AnalysisResult)) :
  highComplexityFiles analysis
  = filter
      (fun f =>
         match objGet analysis f with
         | Some a => (20 <? ar_complexity a)%Z
         | None => false
         end)
      (objKeys analysis).
Proof.
  unfold highComplexityFiles. apply filter_ext. intro f.
  destruct (objGet analysis f) as [a|]; [|reflexivity].
  destruct (Z.ltb_spec 20 (ar_complexity a)) as [H|H].
  - destruct (Z.eqb_spec (ar_complexity a) 0) as [E|E]; [lia|reflexivity].
  - apply andb_false_r.
Qed.

(** C8.  The backlog holds, in this order: the testing task, present
    when and only when the summary has no tests, of high priority and
    with the JS package manifest as its source-file list; then the
    refactoring task, present when and only when the complexity of the
    summary exceeds 100, of medium priority and with the keys of the
    per-file analyses whose complexity exceeds 20 as its source-file
    list.  The first task present is T-001 and the second T-002. *)
Theorem generateTaskBacklog_rules (context : MachineContext) (now : Date) :
  let noTests := negb (sm_hasTests (summary context)) in
  let complex := (100 <? complexity (summary context))%Z in
  let backlog := generateTaskBacklog context now in
  exists testing refactor : list Task,
    tasks backlog = testing ++ refactor
    /\ (if noTests
        then exists t, testing = [t]
             /\ id t = "T-001"
             /\ title t = "Add Testing Framework Setup"
             /\ priority t = "high"
             /\ sourceFiles t = ["package.json"]
        else testing = [])
    /\ (if complex
        then exists t, refactor = [t]
             /\ id t = (if noTests then "T-002" else "T-001")
             /\ title t = "Refactor High Complexity Functions"
             /\ priority t = "medium"
             /\ sourceFiles t
                = filter
                    (fun f =>
                       match objGet (mc_files context) f with
                       | Some a => (20 <? ar_complexity a)%Z
                       | None => false
                       end)
                    (objKeys (mc_files context))
        else refactor = [])
    /\ totalTasks backlog = Z.of_nat (List.length (tasks backlog)).
Proof.
  cbv zeta. unfold generateTaskBacklog.
  destruct (sm_hasTests (summary context));
    destruct (100 <? complexity (summary context))%Z; cbn [negb fst snd].
  - exists [], [refactorTask 1 context]. repeat split.
    eexists. repeat split. apply highComplexityFiles_filter.
  - exists [], []. repeat split.
  - exists [testingTask 1], [refactorTask 2 context]. repeat split.
    + eexists. repeat split.
    + eexists. repeat split. apply highComplexityFiles_filter.
  - exists [testingTask 1], []. repeat split.
    eexists. repeat split.
Qed.

(** The identifiers are the decimal numbers padded to three digits. *)
Lemma taskIdentifier_examples :
  taskIdentifier 1 = "T-001" /\ taskIdentifier 2 = "T-002"
  /\ taskIdentifier 12 = "T-012" /\ taskIdentifier 1234 = "T-1234".
Proof. repeat split. Qed.

(** ** The work command *)

(** C9.  When a task identifier is given ([options.task] is truthy, that
    is, not the empty text), a task is selected exactly when the
    identifier of some task of the backlog equals it once both are put
    in lower case, the selected task is such a task, and the run ends on
    the task-not-found failure exactly when there is none. *)
Theorem runWork_selects_ignoring_case (backlog : Backlog) (taskId : string) :
  taskId <> "" ->
  ((exists task, runWork (Some backlog) (Some taskId) = Prompt task)
   <-> (exists t, In t (tasks backlog) /\ sameIdentifier taskId t))
  /\ (forall task, runWork (Some backlog) (Some taskId) = Prompt task ->
        In task (tasks backlog) /\ sameIdentifier taskId task)
  /\ (runWork (Some backlog) (Some taskId) = TaskNotFound
      <-> ~ (exists t, In t (tasks backlog) /\ sameIdentifier taskId t)).
Proof.
  intro Hgiven. unfold sameIdentifier.
  destruct taskId as [|c rest]; [congruence|].
  cbn [runWork].
  set (test := fun t : Task =>
                 String.eqb (toLowerCase (id t)) (toLowerCase (String c rest))).
  destruct (List.find test (tasks backlog)) as [task|] eqn:Hfind.
  - apply find_some in Hfind. destruct Hfind as [Hin Htest].
    apply String.eqb_eq in Htest.
    repeat split.
    + intros _. exists task. split; assumption.
    + intros _. exists task. reflexivity.
    + injection H as <-. assumption.
    + injection H as <-. assumption.
    + discriminate.
    + intro Hnone. exfalso. apply Hnone. exists task. split; assumption.
  - assert (Hnone : ~ (exists t, In t (tasks backlog)
                       /\ toLowerCase (id t) = toLowerCase (String c rest))).
    { intros [t [Hin Ht]].
      pose proof (find_none _ _ Hfind t Hin) as Hf.
      unfold test in Hf. apply String.eqb_neq in Hf. contradiction. }
    repeat split.
    + intros [task Htask]. discriminate.
    + intro H. contradiction.
    + discriminate.
    + discriminate.
    + intros _. exact Hnone.
Qed.

(** The identifier [t-001] selects the task [T-001]. *)
Lemma runWork_selects_ignoring_case_witness :
  "t-001" <> ""
  /\ In (testingTask 1) (tasks WorkExample.backlog)
  /\ exists task, runWork (Some WorkExample.backlog) (Some "t-001")
                  = Prompt task.
Proof.
  assert (Hgiven : "t-001" <> "") by discriminate.
  split; [exact Hgiven|].
  split; [left; reflexivity|].
  apply (proj1 (runWork_selects_ignoring_case WorkExample.backlog "t-001"
                  Hgiven)).
  exists (testingTask 1). split; [left; reflexivity | reflexivity].
Defined.

Lemma runWork_example :
  runWork (Some WorkExample.backlog) (Some "t-001") = Prompt (testingTask 1)
  /\ runWork (Some WorkExample.backlog) (Some "T-999") = TaskNotFound
  /\ runWork (Some WorkExample.backlog) None
     = PendingListed [testingTask 1].
Proof. repeat split. Qed.

(** ** Dictionaries and sets *)

Lemma arrayIncludes_In (l : list string) (x : string) :
  arrayIncludes l x = true <-> In x l.
Proof.
  unfold arrayIncludes. rewrite existsb_exists. split.
  - intros [y [Hin Heq]]. apply String.eqb_eq in Heq. subst. assumption.
  - intro Hin. exists x. split; [assumption | apply String.eqb_refl].
Qed.

Lemma objGet_objSet {A : Type} (o : list (string * A)) (k key : string)
    (v : A) :
  objGet (objSet o k v) key
  = if String.eqb k key then Some v else objGet o key.
Proof.
  induction o as [|[k' v'] o IH]; cbn [objSet objGet].
  - reflexivity.
  - destruct (String.eqb_spec k' k) as [->|Hne]; cbn [objGet].
    + destruct (String.eqb k key); reflexivity.
    + rewrite IH. destruct (String.eqb_spec k' key) as [->|Hne'].
      * destruct (String.eqb_spec k key) as [->|_]; [congruence|reflexivity].
      * reflexivity.
Qed.

Lemma objSet_fresh {A : Type} (o : list (string * A)) (k : string) (v : A) :
  objGet o k = None -> objSet o k v = o ++ [(k, v)].
Proof.
  induction o as [|[k' v'] o IH]; cbn [objGet objSet app]; intro H.
  - reflexivity.
  - destruct (String.eqb k' k); [discriminate|]. rewrite (IH H). reflexivity.
Qed.

Lemma objGet_app_fresh {A : Type} (o o' : list (string * A)) (k : string) :
  objGet o k = None -> objGet (o ++ o') k = objGet o' k.
Proof.
  induction o as [|[k' v'] o IH]; cbn [objGet app]; intro H.
  - reflexivity.
  - destruct (String.eqb k' k); [discriminate|]. apply IH, H.
Qed.

Lemma objGet_absent {A : Type} (o : list (string * A)) (k : string) :
  ~ In k (map fst o) -> objGet o k = None.
Proof.
  induction o as [|[k' v'] o IH]; cbn [objGet map fst In]; intro H.
  - reflexivity.
  - destruct (String.eqb_spec k' k) as [->|_].
    + exfalso. apply H. left. reflexivity.
    + apply IH. intro Hin. apply H. right. exact Hin.
Qed.

(** Setting distinct fresh keys one after the other appends them. *)
Lemma fold_objSet_fresh {A : Type} (l o : list (string * A)) :
  NoDup (map fst l) ->
  (forall k, In k (map fst l) -> objGet o k = None) ->
  fold_left (fun acc kv => objSet acc (fst kv) (snd kv)) l o = o ++ l.
Proof.
  revert o. induction l as [|[k v] l IH]; intros o Hnodup Hfresh.
  - cbn. rewrite app_nil_r. reflexivity.
  - cbn [fold_left fst snd map] in *.
    apply NoDup_cons_iff in Hnodup. destruct Hnodup as [Hk Hl].
    rewrite (objSet_fresh o k v (Hfresh k (or_introl eq_refl))).
    rewrite IH.
    + rewrite <- app_assoc. reflexivity.
    + exact Hl.
    + intros k' Hin.
      rewrite (objGet_app_fresh o [(k, v)] k'
                 (Hfresh k' (or_intror Hin))).
      cbn [objGet]. destruct (String.eqb_spec k k') as [->|_];
        [contradiction | reflexivity].
Qed.

Lemma nonEmpty_snoc {A : Type} (l : list A) (x : A) :
  nonEmpty (l ++ [x]) = Some (l ++ [x]).
Proof. destruct l; reflexivity. Qed.

Lemma nonEmpty_default {A : Type} (l : list A) :
  match nonEmpty l with
  | Some edges => edges
  | None => []
  end = l.
Proof. destruct l; reflexivity. Qed.

Lemma nonEmpty_Some {A : Type} (l edges : list A) :
  nonEmpty l = Some edges -> edges = l.
Proof. destruct l; cbn; congruence. Qed.

Lemma firstOccurrences_In (l : list string) (x : string) :
  In x (firstOccurrences l) <-> In x l.
Proof.
  unfold firstOccurrences.
  rewrite <- in_rev, nodup_In, <- in_rev. reflexivity.
Qed.

Lemma firstOccurrences_NoDup (l : list string) : NoDup (firstOccurrences l).
Proof.
  unfold firstOccurrences. apply NoDup_rev. apply NoDup_nodup.
Qed.

Lemma firstOccurrences_snoc (l : list string) (x : string) :
  firstOccurrences (l ++ [x])
  = if arrayIncludes (firstOccurrences l) x then firstOccurrences l
    else firstOccurrences l ++ [x].
Proof.
  unfold firstOccurrences at 1. rewrite rev_app_distr. cbn [rev app nodup].
  destruct (in_dec string_dec x (rev l)) as [Hin|Hnin].
  - apply in_rev in Hin.
    assert (H : arrayIncludes (firstOccurrences l) x = true)
      by (apply arrayIncludes_In, firstOccurrences_In; assumption).
    rewrite H. reflexivity.
  - assert (H : arrayIncludes (firstOccurrences l) x = false).
    { destruct (arrayIncludes (firstOccurrences l) x) eqn:E; [|reflexivity].
      apply (proj1 (arrayIncludes_In _ _)) in E.
      apply (proj1 (firstOccurrences_In _ _)) in E.
      exfalso. apply Hnin. apply (proj1 (in_rev l x)). exact E. }
    rewrite H. reflexivity.
Qed.

(** ** The dependency map as a function of the imports *)

Lemma external_of_pairs (pairs : list (string * string)) :
  external (fold_left addPair pairs emptyDependencyMap)
  = firstOccurrences (packagesOf pairs).
Proof.
  induction pairs as [|[k imp] pairs IH] using rev_ind.
  - reflexivity.
  - rewrite fold_left_app. cbn [fold_left].
    unfold packagesOf in *. rewrite map_app, filter_app. cbn [map filter snd].
    unfold addPair at 1, addImport. cbn [fst snd].
    fold (isRelative imp).
    destruct (isRelative imp); cbn [negb external].
    + rewrite app_nil_r. exact IH.
    + rewrite firstOccurrences_snoc, <- IH.
      destruct (arrayIncludes _ imp); reflexivity.
Qed.

Lemma internal_of_pairs (pairs : list (string * string)) (key : string) :
  objGet (internal (fold_left addPair pairs emptyDependencyMap)) key
  = nonEmpty (edgesUnder key pairs).
Proof.
  revert key.
  induction pairs as [|[k imp] pairs IH] using rev_ind; intro key.
  - reflexivity.
  - rewrite fold_left_app. cbn [fold_left].
    unfold edgesUnder in *. rewrite filter_app, map_app.
    cbn [filter fst snd].
    unfold addPair at 1, addImport. cbn [fst snd].
    fold (isRelative imp).
    destruct (isRelative imp); cbn [internal].
    + rewrite objGet_objSet, (IH k), nonEmpty_default.
      destruct (String.eqb_spec k key) as [->|Hne]; cbn [andb map].
      * rewrite nonEmpty_snoc. reflexivity.
      * rewrite app_nil_r. apply IH.
    + rewrite andb_false_r. cbn [map]. rewrite app_nil_r.
      destruct (arrayIncludes _ imp); apply IH.
Qed.

(** ** The per-file pass *)

Lemma fold_addImport_pairs (importer : string) (imports : list string)
    (dm : DependencyMap) :
  fold_left (addImport importer) imports dm
  = fold_left addPair (map (pair importer) imports) dm.
Proof.
  revert dm. induction imports as [|imp imports IH]; intro dm.
  - reflexivity.
  - cbn [map fold_left]. rewrite IH. reflexivity.
Qed.

Section PassFacts.
Variable P : Platform.
Variable disk : Disk.

(** What the loop has accumulated when it ends without exception. *)
Lemma analyzeFiles_accumulates (inventoryFiles : list InventoryFile) :
  forall st0 st,
    analyzeFiles P disk st0 inventoryFiles = Ok st ->
    totalLinesOfCode (metrics st)
    = (totalLinesOfCode (metrics st0)
       + sumZ (map (fun a => orZero (ar_linesOfCode a))
                   (sourceResults P disk inventoryFiles)))%Z
    /\ totalComplexity (metrics st)
       = (totalComplexity (metrics st0)
          + sumZ (map ar_complexity (sourceResults P disk inventoryFiles)))%Z
    /\ dependencyMap st
       = fold_left addPair (importPairs P disk inventoryFiles)
                   (dependencyMap st0)
    /\ fileAnalysis st
       = fold_left (fun acc kv => objSet acc (fst kv) (snd kv))
                   (sourceEntries P disk inventoryFiles) (fileAnalysis st0).
Proof.
  unfold sourceResults, importPairs, sourceEntries.
  induction inventoryFiles as [|file rest IH]; intros st0 st Hrun.
  - cbn in Hrun. injection Hrun as <-. cbn. repeat split; lia.
  - cbn [analyzeFiles] in Hrun. unfold analyzeFile in Hrun.
    cbn [filter]. destruct (isSourceFile file) eqn:Hsource.
    + cbn [bindR] in Hrun. apply IH in Hrun.
      destruct Hrun as (Hloc & Hcx & Hdm & Hfa).
      cbn [map flat_map sumZ fold_right fold_left fst snd].
      rewrite fold_left_app. fold (analysisOf P disk file) in *.
      cbn [recordSource metrics totalLinesOfCode totalComplexity
           dependencyMap fileAnalysis] in Hloc, Hcx, Hdm, Hfa.
      rewrite Hloc, Hcx, Hdm, Hfa, fold_addImport_pairs.
      unfold sumZ. repeat split; lia.
    + destruct (isConfigFile file).
      * destruct (analyzeConfigFile P disk (path (record file)))
          as [configAnalysis|e]; cbn [bindR] in Hrun; [|discriminate].
        apply IH in Hrun. exact Hrun.
      * cbn [bindR] in Hrun. apply IH in Hrun. exact Hrun.
Qed.

Lemma succeeded_lines (results : list AnalysisResult) :
  sumZ (map (fun a => orZero (ar_linesOfCode a)) results)
  = sumZ (map (fun a => orZero (ar_linesOfCode a))
              (filter succeeded results)).
Proof.
  induction results as [|a results IH]; [reflexivity|].
  unfold sumZ in *.
  destruct a; cbn [filter succeeded ar_error map fold_right
                   ar_linesOfCode orZero] in *; lia.
Qed.

Lemma succeeded_complexity (results : list AnalysisResult) :
  (forall a, In a results -> succeeded a = true ->
             (1 <= ar_complexity a)%Z) ->
  (Z.of_nat (List.length (filter succeeded results))
   <= sumZ (map ar_complexity results))%Z.
Proof.
  induction results as [|a results IH]; intro Hpos.
  - cbn. lia.
  - assert (IH' := IH (fun b Hb => Hpos b (or_intror Hb))).
    pose proof (Hpos a (or_introl eq_refl)) as Ha.
    unfold sumZ in *. cbn [filter map fold_right].
    destruct a; cbn [succeeded ar_error ar_complexity] in *.
    + specialize (Ha eq_refl). cbn [List.length]. lia.
    + lia.
Qed.

Lemma analysis_complexity_positive (filePath : Path) :
  succeeded (analyzeJavaScriptFile P disk filePath) = true ->
  (1 <= ar_complexity (analyzeJavaScriptFile P disk filePath))%Z.
Proof.
  unfold analyzeJavaScriptFile.
  destruct (readFileSync disk filePath) as [content|e];
    [|discriminate].
  destruct (babelParse P content); [discriminate|].
  intros _. cbn [ar_complexity]. apply calculateComplexity_positive.
Qed.

End PassFacts.

(** ** Totals of the metrics *)

(** C4.  When the loop over the inventory ends, [totalLinesOfCode] is
    the sum of [linesOfCode] over the analyses of the source files that
    carry no error, and it is 0 when the inventory has no source file;
    these analyses are the values of the per-file mapping when the
    relative paths of the source files are distinct. *)
Theorem totalLinesOfCode_is_sum (P : Platform) (disk : Disk)
    (inventoryFiles : list InventoryFile) (st : Analysis) :
  analyzeFiles P disk initialAnalysis inventoryFiles = Ok st ->
  totalLinesOfCode (metrics st)
  = sumZ (map (fun a => orZero (ar_linesOfCode a))
              (filter succeeded (sourceResults P disk inventoryFiles)))
  /\ (filter isSourceFile inventoryFiles = [] ->
      totalLinesOfCode (metrics st) = 0%Z)
  /\ (NoDup (map fst (sourceEntries P disk inventoryFiles)) ->
      map snd (fileAnalysis st) = sourceResults P disk inventoryFiles).
Proof.
  intro Hrun.
  destruct (analyzeFiles_accumulates P disk inventoryFiles _ _ Hrun)
    as (Hloc & _ & _ & Hfa).
  cbn [initialAnalysis metrics totalLinesOfCode] in Hloc.
  rewrite Z.add_0_l in Hloc. split; [|split].
  - rewrite Hloc. apply succeeded_lines.
  - intro Hnone. rewrite Hloc. unfold sourceResults. rewrite Hnone.
    reflexivity.
  - intro Hnodup. rewrite Hfa. cbn [initialAnalysis fileAnalysis].
    rewrite (fold_objSet_fresh _ [] Hnodup) by reflexivity.
    unfold sourceEntries, sourceResults. cbn [app].
    rewrite map_map. reflexivity.
Qed.

Lemma totalLinesOfCode_is_sum_witness :
  exists st,
    Sample.passOn Sample.oneSource = Ok st
    /\ totalLinesOfCode (metrics st) = 1%Z.
Proof.
  destruct (Sample.passOn Sample.oneSource) as [st|e] eqn:Hrun;
    [|vm_compute in Hrun; discriminate].
  exists st. split; [reflexivity|].
  rewrite (proj1 (totalLinesOfCode_is_sum Sample.platform Sample.oneSource
                    (Sample.inventoryOf Sample.oneSource) st Hrun)).
  reflexivity.
Defined.

(** C10.  An analysis of a source file that carries no error has a
    complexity of at least 1, and when the loop over the inventory ends,
    [totalComplexity] is at least the number of source files whose
    analysis carries no error. *)
Theorem totalComplexity_counts_sources (P : Platform) (disk : Disk)
    (inventoryFiles : list InventoryFile) (st : Analysis) :
  analyzeFiles P disk initialAnalysis inventoryFiles = Ok st ->
  (forall filePath,
      succeeded (analyzeJavaScriptFile P disk filePath) = true ->
      (1 <= ar_complexity (analyzeJavaScriptFile P disk filePath))%Z)
  /\ (Z.of_nat (List.length
                  (filter succeeded (sourceResults P disk inventoryFiles)))
      <= totalComplexity (metrics st))%Z.
Proof.
  intro Hrun. split.
  - apply analysis_complexity_positive.
  - destruct (analyzeFiles_accumulates P disk inventoryFiles _ _ Hrun)
      as (_ & Hcx & _ & _).
    cbn [initialAnalysis metrics totalComplexity] in Hcx.
    rewrite Hcx, Z.add_0_l. apply succeeded_complexity.
    intros a Hin. unfold sourceResults in Hin. apply in_map_iff in Hin.
    destruct Hin as [file [<- _]]. apply analysis_complexity_positive.
Qed.

Lemma totalComplexity_counts_sources_witness :
  exists st,
    Sample.passOn Sample.oneSource = Ok st
    /\ (1 <= totalComplexity (metrics st))%Z.
Proof.
  destruct (Sample.passOn Sample.oneSource) as [st|e] eqn:Hrun;
    [|vm_compute in Hrun; discriminate].
  exists st. split; [reflexivity|].
  exact (proj2 (totalComplexity_counts_sources Sample.platform
                  Sample.oneSource (Sample.inventoryOf Sample.oneSource)
                  st Hrun)).
Defined.

(** ** The dependency map *)

Lemma dependencyMap_of_pass (P : Platform) (disk : Disk)
    (inventoryFiles : list InventoryFile) (st : Analysis) :
  analyzeFiles P disk initialAnalysis inventoryFiles = Ok st ->
  dependencyMap st
  = fold_left addPair (importPairs P disk inventoryFiles) emptyDependencyMap.
Proof.
  intro Hrun.
  exact (proj1 (proj2 (proj2 (analyzeFiles_accumulates P disk inventoryFiles
                                _ _ Hrun)))).
Qed.

Lemma importPairs_In (P : Platform) (disk : Disk)
    (inventoryFiles : list InventoryFile) (file : InventoryFile)
    (imp : string) :
  In file inventoryFiles -> isSourceFile file = true ->
  In imp (ar_imports (analysisOf P disk file)) ->
  In (relativePath (record file), imp) (importPairs P disk inventoryFiles).
Proof.
  intros Hin Hsource Himp. unfold importPairs. apply in_flat_map.
  exists file. split.
  - apply filter_In. split; assumption.
  - apply in_map. assumption.
Qed.

Lemma edgesUnder_In (importer imp : string) (pairs : list (string * string)) :
  In imp (edgesUnder importer pairs)
  <-> In (importer, imp) pairs /\ isRelative imp = true.
Proof.
  unfold edgesUnder. rewrite in_map_iff. split.
  - intros [[k i] [Heq Hin]]. cbn in Heq. subst i.
    apply filter_In in Hin. destruct Hin as [Hin Htest].
    cbn [fst snd] in Htest. apply andb_true_iff in Htest.
    destruct Htest as [Hk Hrel]. apply String.eqb_eq in Hk. subst k.
    split; assumption.
  - intros [Hin Hrel]. exists (importer, imp). split; [reflexivity|].
    apply filter_In. split; [assumption|]. cbn [fst snd].
    rewrite String.eqb_refl, Hrel. reflexivity.
Qed.

Lemma packagesOf_In (imp : string) (pairs : list (string * string)) :
  In imp (packagesOf pairs)
  <-> (exists importer, In (importer, imp) pairs) /\ isRelative imp = false.
Proof.
  unfold packagesOf. rewrite filter_In, in_map_iff, negb_true_iff. split.
  - intros [[[k i] [Heq Hin]] Hrel]. cbn in Heq. subst i.
    split; [exists k; assumption | assumption].
  - intros [[k Hin] Hrel]. split; [|assumption].
    exists (k, imp). split; [reflexivity | assumption].
Qed.

(** C3.  When the loop over the inventory ends: the list recorded under
    a key of the internal mapping is the list of the specifiers beginning
    with a dot that the source files of that relative path import, in
    extraction order; the external set is the list of the other
    specifiers at their first occurrence, without repetition; a
    specifier beginning with a dot extracted from a source file is in
    the list under the relative path of that file and not in the
    external set; any other is in the external set exactly once and in
    no list of the internal mapping. *)
Theorem dependencyMap_splits_imports (P : Platform) (disk : Disk)
    (inventoryFiles : list InventoryFile) (st : Analysis) :
  analyzeFiles P disk initialAnalysis inventoryFiles = Ok st ->
  let dm := dependencyMap st in
  let pairs := importPairs P disk inventoryFiles in
  (forall key, objGet (internal dm) key = nonEmpty (edgesUnder key pairs))
  /\ external dm = firstOccurrences (packagesOf pairs)
  /\ NoDup (external dm)
  /\ (forall file imp,
        In file inventoryFiles -> isSourceFile file = true ->
        In imp (ar_imports (analysisOf P disk file)) ->
        if startsWith "." imp
        then (exists edges,
                 objGet (internal dm) (relativePath (record file)) = Some edges
                 /\ In imp edges)
             /\ ~ In imp (external dm)
        else In imp (external dm)
             /\ count_occ string_dec (external dm) imp = 1%nat
             /\ (forall key edges,
                    objGet (internal dm) key = Some edges -> ~ In imp edges)).
Proof.
  intro Hrun. cbv zeta.
  rewrite (dependencyMap_of_pass P disk inventoryFiles st Hrun).
  set (pairs := importPairs P disk inventoryFiles).
  assert (Hint := internal_of_pairs pairs).
  assert (Hext := external_of_pairs pairs).
  split; [exact Hint|]. split; [exact Hext|].
  split; [rewrite Hext; apply firstOccurrences_NoDup|].
  intros file imp Hin Hsource Himp.
  pose proof (importPairs_In P disk inventoryFiles file imp Hin Hsource Himp)
    as Hpair. fold pairs in Hpair.
  fold (isRelative imp). destruct (isRelative imp) eqn:Hrel.
  - split.
    + exists (edgesUnder (relativePath (record file)) pairs). split.
      * rewrite Hint.
        assert (Hmem : In imp (edgesUnder (relativePath (record file)) pairs))
          by (apply edgesUnder_In; split; assumption).
        destruct (edgesUnder (relativePath (record file)) pairs);
          [contradiction | reflexivity].
      * apply edgesUnder_In. split; assumption.
    + rewrite Hext, firstOccurrences_In, packagesOf_In.
      intros [_ Hno]. congruence.
  - assert (Hmem : In imp (firstOccurrences (packagesOf pairs))).
    { apply firstOccurrences_In, packagesOf_In. split; [|assumption].
      exists (relativePath (record file)). assumption. }
    rewrite Hext. split; [exact Hmem|]. split.
    + apply NoDup_count_occ'; [apply firstOccurrences_NoDup | exact Hmem].
    + intros key edges Hget Hedge. rewrite Hint in Hget.
      apply nonEmpty_Some in Hget. subst edges.
      apply edgesUnder_In in Hedge. destruct Hedge as [_ Hyes]. congruence.
Qed.

Lemma dependencyMap_splits_imports_witness :
  exists st,
    Sample.passOn Sample.selfNamed = Ok st
    /\ external (dependencyMap st) = ["utils.js"]
    /\ objGet (internal (dependencyMap st)) "utils.js" = Some ["./a"].
Proof.
  destruct (Sample.passOn Sample.selfNamed) as [st|e] eqn:Hrun;
    [|vm_compute in Hrun; discriminate].
  exists st. split; [reflexivity|].
  destruct (dependencyMap_splits_imports Sample.platform Sample.selfNamed
              (Sample.inventoryOf Sample.selfNamed) st Hrun)
    as (Hint & Hext & _).
  split.
  - rewrite Hext. reflexivity.
  - rewrite Hint. reflexivity.
Defined.

(** C6 (counterexample).  The file [utils.js] imports [./a] and the
    package [utils.js]: the run writes a dependency map whose external
    set holds [utils.js], which is a key of its internal mapping. *)
Lemma external_may_hold_internal_key :
  exists s dm,
    runAnalysis Sample.platform "proj" None Sample.selfNamed 0
    = (s, Completed)
    /\ writtenDependencyMap s = Some dm
    /\ In "utils.js" (external dm)
    /\ objGet (internal dm) "utils.js" = Some ["./a"]
    /\ ~ externalAvoidsInternalKeys dm.
Proof.
  eexists. eexists.
  split; [vm_compute; reflexivity|].
  split; [vm_compute; reflexivity|].
  split; [left; reflexivity|].
  split; [reflexivity|].
  intro Hclaim. specialize (Hclaim "utils.js" (or_introl eq_refl)).
  discriminate Hclaim.
Qed.

(** C6 (amended).  When the loop over the inventory ends, no specifier
    of the external set begins with a dot, none is in a list of the
    internal mapping, and a key of the internal mapping that is in the
    external set does not begin with a dot. *)
Theorem external_holds_no_relative_specifier (P : Platform) (disk : Disk)
    (inventoryFiles : list InventoryFile) (st : Analysis) :
  analyzeFiles P disk initialAnalysis inventoryFiles = Ok st ->
  let dm := dependencyMap st in
  forall specifier,
    In specifier (external dm) ->
    startsWith "." specifier = false
    /\ (forall key edges,
           objGet (internal dm) key = Some edges -> ~ In specifier edges)
    /\ (forall edges,
           objGet (internal dm) specifier = Some edges ->
           startsWith "." specifier = false).
Proof.
  intro Hrun. cbv zeta.
  rewrite (dependencyMap_of_pass P disk inventoryFiles st Hrun).
  set (pairs := importPairs P disk inventoryFiles).
  intros specifier Hin.
  rewrite external_of_pairs in Hin.
  apply (proj1 (firstOccurrences_In _ _)) in Hin.
  apply packagesOf_In in Hin.
  destruct Hin as [_ Hrel]. unfold isRelative in Hrel.
  split; [exact Hrel|]. split; [|intros; exact Hrel].
  intros key edges Hget Hedge. rewrite internal_of_pairs in Hget.
  apply nonEmpty_Some in Hget. subst edges.
  apply edgesUnder_In in Hedge. destruct Hedge as [_ Hyes].
  unfold isRelative in Hyes. congruence.
Qed.

Lemma external_holds_no_relative_specifier_witness :
  exists st,
    Sample.passOn Sample.selfNamed = Ok st
    /\ In "utils.js" (external (dependencyMap st))
    /\ startsWith "." "utils.js" = false.
Proof.
  destruct (Sample.passOn Sample.selfNamed) as [st|e] eqn:Hrun;
    [|vm_compute in Hrun; discriminate].
  exists st. split; [reflexivity|].
  assert (Hin : In "utils.js" (external (dependencyMap st))).
  { vm_compute in Hrun. injection Hrun as <-. left. reflexivity. }
  split; [exact Hin|].
  exact (proj1 (external_holds_no_relative_specifier Sample.platform
                  Sample.selfNamed (Sample.inventoryOf Sample.selfNamed)
                  st Hrun "utils.js" Hin)).
Defined.

(** ** Failures of a file analysis *)

(** A source file that cannot be read or parsed gets an analysis with
    the error, and the loop goes on. *)
Lemma analyzeFile_source_captured (P : Platform) (disk : Disk) (st : Analysis)
    (file : InventoryFile) :
  isSourceFile file = true ->
  analyzeFile P disk st file
  = Ok (recordSource st file (analysisOf P disk file))
  /\ (forall message,
         readFileSync disk (path (record file)) = Throw message ->
         analysisOf P disk file = Failed message)
  /\ (forall content message,
         readFileSync disk (path (record file)) = Ok content ->
         babelParse P content = Some message ->
         analysisOf P disk file = Failed message).
Proof.
  intro Hsource. unfold analyzeFile, analysisOf, analyzeJavaScriptFile.
  rewrite Hsource. split; [reflexivity|]. split.
  - intros message ->. reflexivity.
  - intros content message -> ->. reflexivity.
Qed.

(** A manifest that [JSON.parse] rejects ends the loop with the
    exception: no turn of the loop catches it. *)
Lemma analyzeFiles_manifest_throws (P : Platform) (disk : Disk)
    (st : Analysis) (file : InventoryFile) (rest : list InventoryFile)
    (content message : string) :
  isSourceFile file = false ->
  basename (path (record file)) = "package.json" ->
  readFileSync disk (path (record file)) = Ok content ->
  jsonParse P content = Throw message ->
  analyzeFiles P disk st (file :: rest) = Throw message.
Proof.
  intros Hsource Hname Hread Hparse.
  cbn [analyzeFiles]. unfold analyzeFile, isConfigFile, analyzeConfigFile.
  rewrite Hsource, Hname, Hread. cbn [bindR arrayIncludes existsb CONFIG_NAMES].
  cbn. rewrite Hparse. reflexivity.
Qed.

(** A text file that cannot be read ends the traversal with the
    exception of [getFileHash]. *)
Lemma traverse_unreadable_throws (ignorePatterns : list string) (fullPath : Path)
    (d : FileData) :
  isTextFile fullPath = true -> accessible d = false ->
  traverse ignorePatterns fullPath (File d) = Throw "EACCES: permission denied".
Proof. intros Htext Hno. cbn [traverse]. rewrite Htext, Hno. reflexivity. Qed.

(** C1 (the code at the failing input).  On a directory that holds a
    source file and a package manifest whose content is a lone brace,
    the run ends on the uncaught exception of [JSON.parse]: the
    inventory is the only artifact written, and no analysis result, no
    metrics and no backlog are produced. *)
Theorem malformed_manifest_aborts_run :
  exists s,
    runAnalysis Sample.platform "proj" None Sample.brokenManifest 0
    = (s, Uncaught "Unexpected end of JSON input")
    /\ map fst (st_written s) = [CODE_INVENTORY_FILE]
    /\ writtenMetrics s = None.
Proof.
  eexists. split; [vm_compute; reflexivity|].
  split; reflexivity.
Qed.


(** ** The order of the writes of a run *)

Section RunFacts.
Variable P : Platform.

Lemma writeFileSync_cases (name : string) (a : Artifact) (s : State) :
  (exists disk',
      writeFile (st_disk s) ANALYSIS_DIR name (writtenData P a (st_ticks s))
      = Ok disk'
      /\ writeFileSync P name a s
         = ({| st_disk := disk'; st_ticks := S (st_ticks s);
               st_written := st_written s ++ [(name, a)] |}, Ok tt))
  \/ (exists e, writeFileSync P name a s = (s, Throw e)).
Proof.
  unfold writeFileSync.
  destruct (writeFile (st_disk s) ANALYSIS_DIR name
              (writtenData P a (st_ticks s))) as [disk'|e].
  - left. exists disk'. split; reflexivity.
  - right. exists e. reflexivity.
Qed.

Lemma createDirectory_written (s s' : State) (r : Result unit) :
  createDirectory s = (s', r) ->
  st_written s' = st_written s /\ st_ticks s' = st_ticks s.
Proof.
  unfold createDirectory.
  destruct (negb (existsSync (st_disk s) [ANALYSIS_DIR])).
  - destruct (mkdirSync (st_disk s) ANALYSIS_DIR);
      intro H; injection H as <- <-; split; reflexivity.
  - intro H; injection H as <- <-; split; reflexivity.
Qed.

(** Step 1 writes the inventory when it succeeds and nothing when it
    throws. *)
Lemma inventoryPhase_written (options : Options) (s s1 : State)
    (r : Result CodeInventory) :
  inventoryPhase P options s = (s1, r) ->
  match r with
  | Ok inventory =>
      st_written s1
      = st_written s ++ [(CODE_INVENTORY_FILE, InventoryDoc inventory)]
  | Throw _ => st_written s1 = st_written s
  end.
Proof.
  unfold inventoryPhase, bind, reading, ret.
  destruct (createDirectory s) as [s0 [[]|e]] eqn:Hdir;
    apply createDirectory_written in Hdir; destruct Hdir as [Hw _].
  - destruct (traverseDirectory (st_disk s0) options) as [found|e].
    + destruct (writeFileSync_cases CODE_INVENTORY_FILE
                  (InventoryDoc (makeInventory found)) s0)
        as [[disk' [_ ->]] | [e ->]];
        intro H; injection H as <- <-; cbn [st_written]; congruence.
    + intro H; injection H as <- <-. assumption.
  - intro H; injection H as <- <-. assumption.
Qed.


(** The run as the sequence of its three phases. *)
Lemma runAnalysis_phases (baseDir : string) (options : Options)
    (disk : Disk) (ticks : nat) :
  existsSync disk [] = true ->
  runAnalysis P baseDir options disk ticks
  = match inventoryPhase P options (initialState disk ticks) with
    | (s1, Throw e) => (s1, Uncaught e)
    | (s1, Ok inventory) =>
        match analyzeFiles P (st_disk s1) initialAnalysis
                (files inventory) with
        | Throw e => (s1, Uncaught e)
        | Ok st =>
            match reportPhase P baseDir inventory st s1 with
            | (s2, Ok _) => (s2, Completed)
            | (s2, Throw e) => (s2, Uncaught e)
            end
        end
    end.
Proof.
  intro Hexists. unfold runAnalysis, analysisPass, analysisPhase.
  rewrite Hexists. cbn [negb]. unfold bind at 1. fold (initialState disk ticks).
  destruct (inventoryPhase P options (initialState disk ticks))
    as [s1 [inventory|e]]; [|reflexivity].
  unfold bind at 1, reading.
  destruct (analyzeFiles P (st_disk s1) initialAnalysis (files inventory));
    reflexivity.
Qed.

End RunFacts.



(** ** Writes in the analysis directory *)

Lemma writeEntry_spec (sub sub' : list (string * Node)) (name : string)
    (d : FileData) :
  writeEntry sub name d = Ok sub' ->
  writableEntry sub name = true
  /\ forall m, objGet sub' m
               = if String.eqb name m then Some (File d) else objGet sub m.
Proof.
  unfold writableEntry. revert sub'.
  induction sub as [|[n x] rest IH]; intros sub' Hw; cbn [writeEntry] in Hw.
  - injection Hw as <-. split; [reflexivity|]. intro m. cbn [objGet].
    reflexivity.
  - cbn [objGet]. destruct (String.eqb_spec n name) as [->|Hne].
    + destruct x as [old|]; [|discriminate].
      destruct (accessible old) eqn:Hacc; [|discriminate].
      injection Hw as <-. split; [reflexivity|]. intro m. cbn [objGet].
      destruct (String.eqb name m); reflexivity.
    + destruct (writeEntry rest name d) as [rest'|] eqn:Hrest;
        [|discriminate].
      cbn [bindR] in Hw. injection Hw as <-.
      destruct (IH rest' eq_refl) as [Hwritable Hget].
      split; [exact Hwritable|]. intro m. cbn [objGet]. rewrite Hget.
      destruct (String.eqb_spec n m) as [->|Hnm]; [|reflexivity].
      destruct (String.eqb_spec name m) as [->|_]; [congruence|reflexivity].
Qed.


Lemma writeInDir_spec (entries entries' : list (string * Node))
    (dir name : string) (d : FileData) :
  writeInDir entries dir name d = Ok entries' ->
  exists sub sub',
    objGet entries dir = Some (Dir sub)
    /\ writeEntry sub name d = Ok sub'
    /\ forall n, objGet entries' n
                 = if String.eqb dir n then Some (Dir sub')
                   else objGet entries n.
Proof.
  revert entries'.
  induction entries as [|[n x] rest IH]; intros entries' Hw;
    cbn [writeInDir] in Hw; [discriminate|].
  cbn [objGet]. destruct (String.eqb_spec n dir) as [->|Hne].
  - destruct x as [|sub]; [discriminate|].
    destruct (writeEntry sub name d) as [sub'|] eqn:Hsub; [|discriminate].
    cbn [bindR] in Hw. injection Hw as <-.
    exists sub, sub'. split; [reflexivity|]. split; [exact Hsub|].
    intro m. cbn [objGet].
    destruct (String.eqb dir m); reflexivity.
  - destruct (writeInDir rest dir name d) as [rest'|] eqn:Hrest;
      [|discriminate].
    cbn [bindR] in Hw. injection Hw as <-.
    destruct (IH rest' eq_refl) as (sub & sub' & Hget & Hsub & Hall).
    exists sub, sub'. split; [exact Hget|]. split; [exact Hsub|].
    intro m. cbn [objGet].
    rewrite Hall. destruct (String.eqb_spec n m) as [->|Hnm]; [|reflexivity].
    destruct (String.eqb_spec dir m) as [->|_]; [congruence|reflexivity].
Qed.



(** The shape of a disk after a write. *)
Lemma writeFile_spec (disk disk' : Disk) (name : string) (d : FileData) :
  writeFile disk ANALYSIS_DIR name d = Ok disk' ->
  exists entries entries' sub sub',
    disk = Some (Dir entries) /\ disk' = Some (Dir entries')
    /\ writeInDir entries ANALYSIS_DIR name d = Ok entries'
    /\ objGet entries ANALYSIS_DIR = Some (Dir sub)
    /\ writableEntry sub name = true
    /\ (forall m, objGet sub' m
                  = if String.eqb name m then Some (File d)
                    else objGet sub m)
    /\ (forall n, objGet entries' n
                  = if String.eqb ANALYSIS_DIR n then Some (Dir sub')
                    else objGet entries n).
Proof.
  unfold writeFile. destruct disk as [[|entries]|]; try discriminate.
  destruct (writeInDir entries ANALYSIS_DIR name d) as [entries'|] eqn:Hw;
    [|discriminate].
  cbn [bindR]. intro H. injection H as <-.
  destruct (writeInDir_spec _ _ _ _ _ Hw) as (sub & sub' & Hget & Hsub & Hall).
  destruct (writeEntry_spec _ _ _ _ Hsub) as [Hwritable Hsubget].
  exists entries, entries', sub, sub'.
  split; [reflexivity|]. split; [reflexivity|]. split; [exact Hw|].
  split; [exact Hget|]. split; [exact Hwritable|].
  split; [exact Hsubget | exact Hall].
Qed.


(** A write changes what is read at the path written only. *)
Lemma readFile_after_write (disk disk' : Disk) (name : string) (d : FileData)
    (p : Path) :
  writeFile disk ANALYSIS_DIR name d = Ok disk' ->
  p <> [ANALYSIS_DIR; name] ->
  readFile disk' p = readFile disk p.
Proof.
  intros Hw Hp.
  destruct (writeFile_spec _ _ _ _ Hw)
    as (entries & entries' & sub & sub' & -> & -> & _ & Hget & Hwritable
        & Hsub & Hall).
  unfold readFile, find.
  destruct p as [|n q]; [reflexivity|].
  cbn [lookup]. rewrite Hall.
  destruct (String.eqb_spec ANALYSIS_DIR n) as [<-|Hn]; [|reflexivity].
  rewrite Hget.
  destruct q as [|m q']; [reflexivity|].
  cbn [lookup]. rewrite Hsub.
  destruct (String.eqb_spec name m) as [<-|Hm]; [|reflexivity].
  destruct q' as [|x q'']; [congruence|].
  unfold writableEntry in Hwritable.
  destruct (objGet sub name) as [[old|]|]; try discriminate; reflexivity.
Qed.

Lemma readFile_own_write (disk disk' : Disk) (name : string) (d : FileData) :
  writeFile disk ANALYSIS_DIR name d = Ok disk' ->
  accessible d = true ->
  readFile disk' [ANALYSIS_DIR; name] = Ok d.
Proof.
  intros Hw Hacc.
  destruct (writeFile_spec _ _ _ _ Hw)
    as (entries & entries' & sub & sub' & -> & -> & _ & _ & _ & Hsub & Hall).
  unfold readFile, find. cbn [lookup].
  rewrite Hall, String.eqb_refl, Hsub, String.eqb_refl, Hacc. reflexivity.
Qed.



(** ** The traversal after a write *)

Section TraversalFacts.
Variable ignorePatterns : list string.

Lemma traverse_cons (fullPath : Path) (item : string) (child : Node)
    (rest : list (string * Node)) :
  traverse ignorePatterns fullPath (Dir ((item, child) :: rest))
  = if ignored ignorePatterns item
    then traverse ignorePatterns fullPath (Dir rest)
    else
      bindR (traverse ignorePatterns (pathJoin fullPath item) child)
        (fun found =>
           bindR (traverse ignorePatterns fullPath (Dir rest))
             (fun more => Ok (found ++ more))).
Proof. reflexivity. Qed.





End TraversalFacts.

(** ** Disks after writes of artifacts *)

Lemma Extends_refl (d : Disk) : Extends d d.
Proof.
  split; [reflexivity|]. split; [|auto].
  intros options found H. exists found. auto.
Qed.




(** ** The per-file pass on an extended disk *)

Section PassOnDisks.
Variable P : Platform.





End PassOnDisks.

(** ** The phases of a run and the disk *)

Section PhaseFacts.
Variable P : Platform.






End PhaseFacts.

Section TwoRuns.
Variable P : Platform.





End TwoRuns.




(** * Further properties *)

(** ** What the traversal finds *)

Section TraversalFinds.
Variable ignorePatterns : list string.

Lemma Found_cons (p : Path) (item : string) (child : Node)
    (rest : list (string * Node)) (f : FileRecord) :
  Found ignorePatterns p (Dir ((item, child) :: rest)) f
  <-> (ignored ignorePatterns item = false
       /\ Found ignorePatterns (pathJoin p item) child f)
      \/ Found ignorePatterns p (Dir rest) f.
Proof.
  split.
  - intro H. inversion H as [|? ? item' child' ? Hin Hign Hsub]; subst.
    destruct Hin as [Heq|Hin].
    + injection Heq as <- <-. left. split; assumption.
    + right. apply (Found_item _ _ _ item' child'); assumption.
  - intros [[Hign Hsub]|H].
    + apply (Found_item _ _ _ item child); [left; reflexivity | | ];
        assumption.
    + inversion H as [|? ? item' child' ? Hin Hign Hsub]; subst.
      apply (Found_item _ _ _ item' child'); [right | | ]; assumption.
Qed.

Lemma Unreadable_cons (p : Path) (item : string) (child : Node)
    (rest : list (string * Node)) :
  Unreadable ignorePatterns p (Dir ((item, child) :: rest))
  <-> (ignored ignorePatterns item = false
       /\ Unreadable ignorePatterns (pathJoin p item) child)
      \/ Unreadable ignorePatterns p (Dir rest).
Proof.
  split.
  - intro H. inversion H as [|? ? item' child' Hin Hign Hsub]; subst.
    destruct Hin as [Heq|Hin].
    + injection Heq as <- <-. left. split; assumption.
    + right. apply (Unreadable_item _ _ _ item' child'); assumption.
  - intros [[Hign Hsub]|H].
    + apply (Unreadable_item _ _ _ item child); [left; reflexivity | | ];
        assumption.
    + inversion H as [|? ? item' child' Hin Hign Hsub]; subst.
      apply (Unreadable_item _ _ _ item' child'); [right | | ]; assumption.
Qed.

(** The traversal of a node either returns the records of the readable
    text files no ignored name leads to, there being no unreadable one,
    or throws the permission error, there being an unreadable one. *)
Lemma traverse_characterised (n : Node) :
  forall p,
    match traverse ignorePatterns p n with
    | Ok found =>
        (forall f, In f found <-> Found ignorePatterns p n f)
        /\ ~ Unreadable ignorePatterns p n
    | Throw e =>
        Unreadable ignorePatterns p n /\ e = "EACCES: permission denied"
    end.
Proof.
  induction n as [d|entries Hchildren] using Node_induction; intro p.
  - cbn [traverse].
    destruct (isTextFile p) eqn:Htext; [destruct (accessible d) eqn:Hacc|].
    + split.
      * intro f. split.
        -- intros [<-|[]]. apply Found_file; assumption.
        -- intro H. inversion H; subst. left. reflexivity.
      * intro H. inversion H; subst. congruence.
    + split; [apply Unreadable_file; assumption | reflexivity].
    + split.
      * intro f. split; [intros [] | intro H; inversion H; subst; congruence].
      * intro H. inversion H; subst. congruence.
  - induction entries as [|[item child] rest IH].
    + cbn. split.
      * intro f. split; [intros [] | intro H; inversion H; subst].
        match goal with Hin : In _ [] |- _ => destruct Hin end.
      * intro H. inversion H; subst.
        match goal with Hin : In _ [] |- _ => destruct Hin end.
    + inversion Hchildren as [|? ? Hchild Hrest]; subst.
      specialize (IH Hrest). cbn [snd] in Hchild.
      specialize (Hchild (pathJoin p item)).
      rewrite traverse_cons.
      destruct (ignored ignorePatterns item) eqn:Hign.
      * destruct (traverse ignorePatterns p (Dir rest)) as [more|e].
        -- destruct IH as [Hmore Hnone]. split.
           ++ intro f. rewrite Found_cons, Hmore. split; [auto|].
              intros [[Hno _]|H]; [congruence | exact H].
           ++ rewrite Unreadable_cons. intros [[Hno _]|H];
                [congruence | contradiction].
        -- destruct IH as [Hbad ->]. split; [|reflexivity].
           apply Unreadable_cons. right. exact Hbad.
      * destruct (traverse ignorePatterns (pathJoin p item) child)
          as [here|e]; cbn [bindR].
        -- destruct Hchild as [Hhere Hnone].
           destruct (traverse ignorePatterns p (Dir rest)) as [more|e];
             cbn [bindR].
           ++ destruct IH as [Hmore Hnone']. split.
              ** intro f. rewrite Found_cons, in_app_iff, Hhere, Hmore.
                 split; [intros [H|H]; auto | intros [[_ H]|H]; auto].
              ** rewrite Unreadable_cons. intros [[_ H]|H]; contradiction.
           ++ destruct IH as [Hbad ->]. split; [|reflexivity].
              apply Unreadable_cons. right. exact Hbad.
        -- destruct Hchild as [Hbad ->]. split; [|reflexivity].
           apply Unreadable_cons. left. split; [exact Hign | exact Hbad].
Qed.

End TraversalFinds.

(** ** Relative paths *)

Lemma includes_slash_cons (c : ascii) (s : string) :
  includes "/" (String c s) = Ascii.eqb "/" c || includes "/" s.
Proof.
  cbn [includes startsWith]. rewrite andb_true_r. reflexivity.
Qed.

Lemma validName_cons (c : ascii) (s : string) :
  validName (String c s) = true ->
  Ascii.eqb c "/" = false /\ validName s = true.
Proof.
  unfold validName. rewrite includes_slash_cons, negb_orb.
  intro H. apply andb_true_iff in H. destruct H as [Hc Hs].
  split; [|exact Hs]. rewrite Ascii.eqb_sym. apply negb_true_iff, Hc.
Qed.

Lemma splitPath_app (s t : string) :
  validName s = true ->
  splitPath (s ++ String "/" t) = s :: splitPath t.
Proof.
  induction s as [|c s IH]; intro Hvalid.
  - reflexivity.
  - apply validName_cons in Hvalid. destruct Hvalid as [Hc Hs].
    cbn [append splitPath]. rewrite Hc, (IH Hs). reflexivity.
Qed.

Lemma splitPath_valid (s : string) :
  validName s = true -> splitPath s = [s].
Proof.
  induction s as [|c s IH]; intro Hvalid.
  - reflexivity.
  - apply validName_cons in Hvalid. destruct Hvalid as [Hc Hs].
    cbn [splitPath]. rewrite Hc, (IH Hs). reflexivity.
Qed.

(** Splitting the relative path of a path gives the path back, when the
    path is not empty and its names hold no separator. *)
Theorem splitPath_relative (p : Path) :
  p <> [] -> Forall (fun name => validName name = true) p ->
  splitPath (relative p) = p.
Proof.
  unfold relative, join.
  induction p as [|a p IH]; intros Hne Hvalid; [congruence|].
  inversion Hvalid as [|? ? Ha Hp]; subst.
  destruct p as [|b p].
  - cbn. apply splitPath_valid, Ha.
  - change (String.concat "/" (a :: b :: p))
      with (a ++ String "/" (String.concat "/" (b :: p)))%string.
    rewrite (splitPath_app _ _ Ha), IH; [reflexivity | discriminate | exact Hp].
Qed.

Lemma splitPath_relative_witness :
  splitPath (relative ["src"; "core"; "a.js"]) = ["src"; "core"; "a.js"].
Proof.
  apply splitPath_relative; [discriminate|].
  repeat constructor.
Defined.

Lemma relative_injective (p q : Path) :
  p <> [] -> q <> [] ->
  Forall (fun name => validName name = true) p ->
  Forall (fun name => validName name = true) q ->
  relative p = relative q -> p = q.
Proof.
  intros Hp Hq Vp Vq Heq.
  rewrite <- (splitPath_relative p Hp Vp), <- (splitPath_relative q Hq Vq), Heq.
  reflexivity.
Qed.

(** ** The records of a traversal *)

Lemma Found_prefix (ignorePatterns : list string) (p : Path) (n : Node)
    (f : FileRecord) :
  Found ignorePatterns p n f ->
  exists suffix,
    path f = p ++ suffix
    /\ Forall (fun name => ignored ignorePatterns name = false) suffix
    /\ isTextFile (path f) = true
    /\ relativePath f = relative (path f)
    /\ match n with
       | File _ => suffix = []
       | Dir entries =>
           exists item rest, suffix = item :: rest /\ In item (map fst entries)
       end.
Proof.
  intro H. induction H as [p d Htext Hacc|p entries item child f Hin Hign _ IH].
  - exists []. cbn [path relativePath]. rewrite app_nil_r.
    repeat split; try assumption. constructor.
  - destruct IH as (suffix & Hpath & Hnames & Htext & Hrel & _).
    exists (item :: suffix). unfold pathJoin in Hpath.
    rewrite <- app_assoc in Hpath. cbn [app] in Hpath.
    split; [exact Hpath|]. split; [constructor; assumption|].
    split; [exact Htext|]. split; [exact Hrel|].
    exists item, suffix. split; [reflexivity|].
    apply in_map_iff. exists (item, child). split; [reflexivity | exact Hin].
Qed.

Lemma wellFormed_child (entries : list (string * Node)) (item : string)
    (child : Node) :
  wellFormed (Dir entries) -> In (item, child) entries ->
  validName item = true /\ wellFormed child
  /\ objGet entries item = Some child.
Proof.
  cbn [wellFormed]. intros [Hnodup Hall] Hin.
  induction entries as [|[name x] rest IH]; [destruct Hin|].
  cbn [map fst] in Hnodup. apply NoDup_cons_iff in Hnodup.
  destruct Hnodup as [Hfresh Hnodup].
  cbn [fst snd] in Hall. destruct Hall as (Hvalid & Hwf & Hrest).
  cbn [objGet]. destruct Hin as [Heq|Hin].
  - injection Heq as <- <-. rewrite String.eqb_refl.
    repeat split; assumption.
  - destruct (String.eqb_spec name item) as [->|_].
    + exfalso. apply Hfresh. apply in_map_iff.
      exists (item, child). split; [reflexivity | exact Hin].
    + apply (IH Hnodup Hrest Hin).
Qed.

Lemma wellFormed_rest (entry : string * Node) (rest : list (string * Node)) :
  wellFormed (Dir (entry :: rest)) ->
  wellFormed (snd entry) /\ wellFormed (Dir rest)
  /\ ~ In (fst entry) (map fst rest).
Proof.
  cbn [wellFormed map]. intros [Hnodup (Hvalid & Hwf & Hrest)].
  apply NoDup_cons_iff in Hnodup. destruct Hnodup as [Hfresh Hnodup].
  repeat split; assumption.
Qed.

(** In a well-formed tree, the record found is the record of the file
    that stands at its path. *)
Lemma Found_lookup (ignorePatterns : list string) (p : Path) (n : Node)
    (f : FileRecord) :
  Found ignorePatterns p n f -> wellFormed n ->
  exists suffix d,
    path f = p ++ suffix
    /\ Forall (fun name => validName name = true) suffix
    /\ lookup n suffix = Some (File d)
    /\ accessible d = true
    /\ size f = byteSize d /\ modified f = mtime d /\ hash f = digest d.
Proof.
  intro H. induction H as [p d Htext Hacc|p entries item child f Hin Hign _ IH];
    intro Hwf.
  - exists [], d. cbn [path size modified hash lookup]. rewrite app_nil_r.
    repeat split; try assumption. constructor.
  - destruct (wellFormed_child entries item child Hwf Hin)
      as (Hvalid & Hchild & Hget).
    destruct (IH Hchild) as (suffix & d & Hpath & Hnames & Hlook & Hrest).
    exists (item :: suffix), d. unfold pathJoin in Hpath.
    rewrite <- app_assoc in Hpath. cbn [app] in Hpath.
    split; [exact Hpath|]. split; [constructor; assumption|].
    split; [|exact Hrest]. cbn [lookup]. rewrite Hget. exact Hlook.
Qed.

Lemma NoDup_map_injective_on {A B : Type} (g : A -> B) (l : list A)
    (x y : A) :
  NoDup (map g l) -> In x l -> In y l -> g x = g y -> x = y.
Proof.
  induction l as [|a l IH]; intros Hnodup Hx Hy Heq; [destruct Hx|].
  cbn [map] in Hnodup. apply NoDup_cons_iff in Hnodup.
  destruct Hnodup as [Hfresh Hnodup].
  destruct Hx as [<-|Hx], Hy as [<-|Hy].
  - reflexivity.
  - exfalso. apply Hfresh. rewrite Heq. apply in_map, Hy.
  - exfalso. apply Hfresh. rewrite <- Heq. apply in_map, Hx.
  - apply (IH Hnodup Hx Hy Heq).
Qed.

(** In a well-formed tree no two records of a traversal have the same
    path. *)
Lemma traverse_NoDup (ignorePatterns : list string) (n : Node) :
  wellFormed n ->
  forall p found,
    traverse ignorePatterns p n = Ok found -> NoDup (map path found).
Proof.
  induction n as [d|entries Hchildren] using Node_induction;
    intros Hwf p found Hrun.
  - cbn [traverse] in Hrun.
    destruct (isTextFile p); [destruct (accessible d); [|discriminate]|];
      injection Hrun as <-; cbn; repeat constructor. intros [].
  - revert found Hrun.
    induction entries as [|[item child] rest IH]; intros found Hrun.
    + cbn in Hrun. injection Hrun as <-. constructor.
    + inversion Hchildren as [|? ? Hchild Hrest]; subst.
      destruct (wellFormed_rest _ _ Hwf) as (Hwfc & Hwfr & Hfresh).
      cbn [fst snd] in Hwfc, Hfresh, Hchild.
      rewrite traverse_cons in Hrun.
      destruct (ignored ignorePatterns item).
      * apply (IH Hrest Hwfr found Hrun).
      * destruct (traverse ignorePatterns (pathJoin p item) child)
          as [here|] eqn:Hhere; [|discriminate].
        cbn [bindR] in Hrun.
        destruct (traverse ignorePatterns p (Dir rest)) as [more|] eqn:Hmore;
          [|discriminate].
        cbn [bindR] in Hrun. injection Hrun as <-.
        rewrite map_app. apply NoDup_app.
        -- apply (Hchild Hwfc _ _ Hhere).
        -- apply (IH Hrest Hwfr more eq_refl).
        -- intros q Hq1 Hq2.
           apply in_map_iff in Hq1. destruct Hq1 as (f & <- & Hf).
           apply in_map_iff in Hq2. destruct Hq2 as (g & Heq & Hg).
           pose proof (traverse_characterised ignorePatterns child
                         (pathJoin p item)) as Hc.
           rewrite Hhere in Hc. destruct Hc as [Hc _].
           pose proof (traverse_characterised ignorePatterns (Dir rest) p)
             as Hr.
           rewrite Hmore in Hr. destruct Hr as [Hr _].
           apply Hc in Hf. apply Hr in Hg.
           destruct (Found_prefix _ _ _ _ Hf) as (s1 & Hp1 & _).
           destruct (Found_prefix _ _ _ _ Hg)
             as (s2 & Hp2 & _ & _ & _ & item' & r2 & -> & Hin').
           rewrite Hp1, Hp2 in Heq. unfold pathJoin in Heq.
           rewrite <- app_assoc in Heq. apply app_inv_head in Heq.
           cbn [app] in Heq. injection Heq as -> _.
           contradiction.
Qed.

Lemma traverseDirectory_Found (entries : list (string * Node))
    (options : Options) (found : list FileRecord) :
  traverseDirectory (Some (Dir entries)) options = Ok found ->
  forall f,
    In f found <-> Found (ignorePatternsOf options) [] (Dir entries) f.
Proof.
  cbn [traverseDirectory]. intros Hrun f.
  pose proof (traverse_characterised (ignorePatternsOf options)
                (Dir entries) []) as H.
  rewrite Hrun in H. apply H.
Qed.

(** X1.  When the traversal of the scanned directory ends, it has
    found exactly the readable files with a supported extension that
    no ignored name leads to, each with the size, date and digest of
    the file. *)
Theorem traverseDirectory_finds (entries : list (string * Node))
    (options : Options) (found : list FileRecord) :
  traverseDirectory (Some (Dir entries)) options = Ok found ->
  forall f,
    In f found <-> Found (ignorePatternsOf options) [] (Dir entries) f.
Proof.
  exact (traverseDirectory_Found entries options found).
Qed.

Lemma traverseDirectory_finds_witness :
  exists found,
    traverseDirectory Sample.oneSource None = Ok found
    /\ forall f, In f found
                 <-> Found defaultIgnorePatterns []
                       (Dir [("a.js", Sample.file sample_if_else)]) f.
Proof.
  eexists. split; [reflexivity|].
  apply (traverseDirectory_finds [("a.js", Sample.file sample_if_else)] None).
  reflexivity.
Defined.

Section GuardlessFacts.

Lemma Fails_cons (ps : list string) (p : Path) (item : string)
    (child : Guardless.Entry) (rest : list (string * Guardless.Entry)) (message : string) :
  Guardless.Fails ps p (Guardless.Folder ((item, child) :: rest)) message
  <-> (ignored ps item = false /\ Guardless.Fails ps (pathJoin p item) child message)
      \/ Guardless.Fails ps p (Guardless.Folder rest) message.
Proof.
  split.
  - intro H. inversion H as [| | |? ? item' child' ? Hin Hign Hsub]; subst.
    destruct Hin as [Heq|Hin].
    + injection Heq as <- <-. left. split; assumption.
    + right. apply (Guardless.Fails_item _ _ _ item' child'); assumption.
  - intros [[Hign Hsub]|H].
    + apply (Guardless.Fails_item _ _ _ item child); [left; reflexivity | | ];
        assumption.
    + inversion H as [| | |? ? item' child' ? Hin Hign Hsub]; subst.
      apply (Guardless.Fails_item _ _ _ item' child'); [right | | ]; assumption.
Qed.

Lemma guardless_traverse_cons (ps : list string) (p : Path) (item : string)
    (child : Guardless.Entry) (rest : list (string * Guardless.Entry)) :
  Guardless.traverse ps p (Guardless.Folder ((item, child) :: rest))
  = if ignored ps item
    then Guardless.traverse ps p (Guardless.Folder rest)
    else
      bindR (Guardless.traverse ps (pathJoin p item) child)
        (fun found =>
           bindR (Guardless.traverse ps p (Guardless.Folder rest))
             (fun more => Ok (found ++ more))).
Proof. reflexivity. Qed.

(** The traversal throws the exception of a failing entry, and returns
    when there is none. *)
Lemma guardless_traverse_fails (ps : list string) (e : Guardless.Entry) :
  forall p,
    match Guardless.traverse ps p e with
    | Ok _ => forall message, ~ Guardless.Fails ps p e message
    | Throw message => Guardless.Fails ps p e message
    end.
Proof.
  induction e as [d|entries Hchildren|m|m] using Guardless.Entry_induction; intro p.
  - cbn [Guardless.traverse].
    destruct (isTextFile p) eqn:Htext; [destruct (accessible d) eqn:Hacc|].
    + intros message H. inversion H; subst. congruence.
    + apply Guardless.Fails_file; assumption.
    + intros message H. inversion H; subst. congruence.
  - induction entries as [|[item child] rest IH].
    + cbn. intros message H. inversion H; subst.
      match goal with Hin : In _ [] |- _ => destruct Hin end.
    + inversion Hchildren as [|? ? Hchild Hrest]; subst.
      specialize (IH Hrest). cbn [snd] in Hchild.
      specialize (Hchild (pathJoin p item)).
      rewrite guardless_traverse_cons.
      destruct (ignored ps item) eqn:Hign.
      * destruct (Guardless.traverse ps p (Guardless.Folder rest)) as [more|m].
        -- intros message H. apply Fails_cons in H.
           destruct H as [[Hno _]|H]; [congruence | apply (IH _ H)].
        -- apply Fails_cons. right. exact IH.
      * destruct (Guardless.traverse ps (pathJoin p item) child) as [here|m];
          cbn [bindR].
        -- destruct (Guardless.traverse ps p (Guardless.Folder rest)) as [more|m];
             cbn [bindR].
           ++ intros message H. apply Fails_cons in H.
              destruct H as [[_ H]|H]; [apply (Hchild _ H) | apply (IH _ H)].
           ++ apply Fails_cons. right. exact IH.
        -- apply Fails_cons. left. split; [exact Hign | exact Hchild].
  - cbn. apply Guardless.Fails_unlistable.
  - cbn. apply Guardless.Fails_broken.
Qed.

(** On a tree where every directory lists and every entry answers the
    stat, the traversal is the one of [traverse]. *)
Lemma guardless_traverse_embed (ps : list string) (n : Node) :
  forall p, Guardless.traverse ps p (Guardless.embed n) = traverse ps p n.
Proof.
  induction n as [d|entries Hchildren] using Node_induction; intro p.
  - reflexivity.
  - induction entries as [|[item child] rest IH]; [reflexivity|].
    inversion Hchildren as [|? ? Hchild Hrest]; subst.
    specialize (IH Hrest). cbn [snd] in Hchild.
    rewrite traverse_cons. cbn [Guardless.embed] in *.
    rewrite guardless_traverse_cons, (Hchild (pathJoin p item)), IH.
    reflexivity.
Qed.

Lemma guardless_traverseDirectory_embed (disk : Disk) (options : Options) :
  Guardless.traverseDirectory (Guardless.embedDisk disk) options
  = traverseDirectory disk options.
Proof.
  destruct disk as [[d|entries]|]; [reflexivity| |reflexivity].
  cbn [Guardless.embedDisk traverseDirectory].
  rewrite <- guardless_traverse_embed. reflexivity.
Qed.

(** X2.  Neither the listing of a directory nor the stat of an entry
    is guarded.  The traversal of a directory that lists throws
    exactly when, through names that are not ignored, it reaches a
    text file that cannot be read, a directory that does not list or
    an entry whose stat throws, and it throws the exception of such an
    entry; a scanned directory that does not list makes it throw the
    exception of the listing. *)
Theorem traverseDirectory_throws (entries : list (string * Guardless.Entry))
    (options : Options) :
  ((exists message,
       Guardless.traverseDirectory (Guardless.Folder entries) options = Throw message)
   <-> exists message,
         Guardless.Fails (ignorePatternsOf options) [] (Guardless.Folder entries) message)
  /\ (forall message,
         Guardless.traverseDirectory (Guardless.Folder entries) options = Throw message ->
         Guardless.Fails (ignorePatternsOf options) [] (Guardless.Folder entries) message)
  /\ (forall message,
         Guardless.traverseDirectory (Guardless.Unlistable message) options
         = Throw message
         /\ Guardless.traverseDirectory (Guardless.Broken message) options
            = Throw message).
Proof.
  cbn [Guardless.traverseDirectory].
  pose proof (guardless_traverse_fails (ignorePatternsOf options)
                (Guardless.Folder entries) []) as H.
  destruct (Guardless.traverse (ignorePatternsOf options) [] (Guardless.Folder entries))
    as [found|m].
  - split; [|split].
    + split; [intros [message Hm]; discriminate|].
      intros [message Hm]. exfalso. apply (H message Hm).
    + discriminate.
    + intro message. split; reflexivity.
  - split; [|split].
    + split; intros _; eexists; [exact H | reflexivity].
    + intros message Hm. injection Hm as <-. exact H.
    + intro message. split; reflexivity.
Qed.

End GuardlessFacts.

Lemma traverseDirectory_record (disk : Disk) (options : Options)
    (found : list FileRecord) :
  traverseDirectory disk options = Ok found ->
  forall f,
    In f found ->
    isTextFile (path f) = true
    /\ path f <> []
    /\ Forall (fun name => ignored (ignorePatternsOf options) name = false)
              (path f)
    /\ relativePath f = relative (path f).
Proof.
  intros Hrun f Hin.
  destruct disk as [[d|entries]|]; try discriminate.
  apply (traverseDirectory_Found entries options found Hrun) in Hin.
  destruct (Found_prefix _ _ _ _ Hin)
    as (suffix & Hpath & Hnames & Htext & Hrel & item & rest & -> & _).
  cbn [app] in Hpath. rewrite Hpath in *.
  repeat split; try assumption. discriminate.
Qed.

(** X3.  Every record of a traversal has a supported extension, a path
    none of whose names is ignored, and the path joined by the
    separator as its relative path. *)
Theorem traverseDirectory_records (disk : Disk) (options : Options)
    (found : list FileRecord) :
  traverseDirectory disk options = Ok found ->
  forall f,
    In f found ->
    isTextFile (path f) = true
    /\ path f <> []
    /\ Forall (fun name => ignored (ignorePatternsOf options) name = false)
              (path f)
    /\ relativePath f = relative (path f).
Proof.
  exact (traverseDirectory_record disk options found).
Qed.

Lemma traverseDirectory_records_witness :
  exists f,
    traverseDirectory Sample.oneSource None = Ok [f]
    /\ relativePath f = "a.js".
Proof.
  destruct (traverseDirectory Sample.oneSource None) as [found|e] eqn:Hrun;
    [|vm_compute in Hrun; discriminate].
  destruct found as [|f [|g found]];
    try (vm_compute in Hrun; discriminate).
  exists f. split; [reflexivity|].
  destruct (traverseDirectory_records Sample.oneSource None [f] Hrun f
              (or_introl eq_refl)) as (_ & _ & _ & Hrel).
  rewrite Hrel. vm_compute in Hrun. injection Hrun as <-. reflexivity.
Defined.

Lemma includes_empty (s : string) : includes "" s = true.
Proof. destruct s; reflexivity. Qed.

(** X4.  An empty ignore fragment occurs in every name.  With it the
    traversal only lists the scanned directory: when the directory
    lists, the traversal returns no record, whatever the entries are,
    none of which it stats or reads; when it does not list, the
    traversal throws the exception of the listing. *)
Theorem traverseDirectory_empty_fragment (root : Guardless.Entry)
    (options : Options) :
  In "" (ignorePatternsOf options) ->
  Guardless.traverseDirectory root options
  = match root with
    | Guardless.Folder _ => Ok []
    | Guardless.Unlistable message => Throw message
    | Guardless.Broken message => Throw message
    | Guardless.Regular _ => Throw "ENOTDIR: not a directory"
    end.
Proof.
  intro Hin.
  assert (Hall : forall item, ignored (ignorePatternsOf options) item = true).
  { intro item. unfold ignored. apply existsb_exists.
    exists "". split; [exact Hin | apply includes_empty]. }
  destruct root as [d|entries|m|m]; try reflexivity.
  cbn [Guardless.traverseDirectory].
  induction entries as [|[item child] rest IH]; [reflexivity|].
  rewrite guardless_traverse_cons, Hall. exact IH.
Qed.

Lemma traverseDirectory_empty_fragment_witness :
  Guardless.traverseDirectory Guardless.hostile (Some [""; ".git"]) = Ok []
  /\ exists message,
       Guardless.traverseDirectory Guardless.hostile None = Throw message.
Proof.
  split.
  - apply (traverseDirectory_empty_fragment Guardless.hostile
             (Some [""; ".git"])).
    left. reflexivity.
  - eexists. reflexivity.
Defined.

(** X5.  In a well-formed directory every record of a traversal
    describes the file that stands at its path: the file can be read,
    and its size, date and digest are those of the record, so that
    [getFileHash] on the path of the record returns its hash. *)
Theorem traverseDirectory_describes_files (root : Node) (options : Options)
    (found : list FileRecord) :
  wellFormed root ->
  traverseDirectory (Some root) options = Ok found ->
  forall f,
    In f found ->
    exists d,
      readFile (Some root) (path f) = Ok d
      /\ size f = byteSize d /\ modified f = mtime d /\ hash f = digest d
      /\ getFileHash (Some root) (path f) = Ok (hash f)
      /\ readFileSync (Some root) (path f) = Ok (text d).
Proof.
  intros Hwf Hrun f Hin.
  destruct root as [d0|entries]; [discriminate|].
  apply (traverseDirectory_Found entries options found Hrun) in Hin.
  destruct (Found_lookup _ _ _ _ Hin Hwf)
    as (suffix & d & Hpath & _ & Hlook & Hacc & Hsize & Hdate & Hhash).
  cbn [app] in Hpath. exists d.
  unfold getFileHash, readFileSync, readFile, find.
  rewrite Hpath, Hlook, Hacc, Hhash.
  repeat split; assumption.
Qed.

Lemma traverseDirectory_describes_files_witness :
  exists f d,
    traverseDirectory Sample.oneSource None = Ok [f]
    /\ readFile Sample.oneSource (path f) = Ok d
    /\ hash f = digest d.
Proof.
  destruct (traverseDirectory Sample.oneSource None) as [found|e] eqn:Hrun;
    [|vm_compute in Hrun; discriminate].
  destruct found as [|f [|g found]];
    try (vm_compute in Hrun; discriminate).
  assert (Hwf : wellFormed (Dir [("a.js", Sample.file sample_if_else)])).
  { cbn. repeat split. repeat constructor. intros []. }
  destruct (traverseDirectory_describes_files
              (Dir [("a.js", Sample.file sample_if_else)]) None [f] Hwf Hrun f
              (or_introl eq_refl)) as (d & Hread & _ & _ & Hhash & _).
  exists f, d. split; [reflexivity|]. split; assumption.
Defined.

(** X6.  In a well-formed directory no two records of a traversal have
    the same relative path. *)
Theorem traverseDirectory_distinct_paths (root : Node) (options : Options)
    (found : list FileRecord) :
  wellFormed root ->
  traverseDirectory (Some root) options = Ok found ->
  NoDup (map relativePath found).
Proof.
  intros Hwf Hrun.
  destruct root as [d0|entries]; [discriminate|].
  pose proof Hrun as Hpaths. cbn [traverseDirectory] in Hpaths.
  apply (traverse_NoDup _ _ Hwf) in Hpaths.
  apply NoDup_map_NoDup_ForallPairs; [|apply (NoDup_map_inv _ _ Hpaths)].
  intros f g Hf Hg Heq.
  apply (NoDup_map_injective_on path found f g Hpaths Hf Hg).
  pose proof (proj1 (traverseDirectory_Found entries options found Hrun f) Hf)
    as Ff.
  pose proof (proj1 (traverseDirectory_Found entries options found Hrun g) Hg)
    as Fg.
  destruct (Found_lookup _ _ _ _ Ff Hwf) as (s1 & d1 & Hp1 & V1 & _).
  destruct (Found_lookup _ _ _ _ Fg Hwf) as (s2 & d2 & Hp2 & V2 & _).
  destruct (Found_prefix _ _ _ _ Ff) as (s1' & Hp1' & _ & _ & R1 & i1 & r1 & -> & _).
  destruct (Found_prefix _ _ _ _ Fg) as (s2' & Hp2' & _ & _ & R2 & i2 & r2 & -> & _).
  cbn [app] in *. rewrite R1, R2 in Heq.
  apply relative_injective in Heq; congruence.
Qed.

Lemma traverseDirectory_distinct_paths_witness :
  exists found,
    traverseDirectory Sample.brokenManifest None = Ok found
    /\ NoDup (map relativePath found).
Proof.
  destruct (traverseDirectory Sample.brokenManifest None) as [found|e]
    eqn:Hrun; [|vm_compute in Hrun; discriminate].
  exists found. split; [reflexivity|].
  refine (traverseDirectory_distinct_paths _ None found _ Hrun).
  cbn. repeat split. repeat constructor.
  - intros [H|[]]. discriminate H.
  - intros [].
Defined.

(** ** The inventory *)

Lemma sumZ_objSet_increment (o : list (string * Z)) (k : string) :
  sumZ (map snd (objSet o k (orZero (objGet o k) + 1)%Z))
  = (sumZ (map snd o) + 1)%Z.
Proof.
  unfold sumZ.
  induction o as [|[k' v] o IH]; cbn [objSet objGet map snd fold_right orZero].
  - lia.
  - destruct (String.eqb k' k); cbn [map snd fold_right orZero].
    + lia.
    + rewrite IH. lia.
Qed.

Lemma fileTypes_sum (inventoryFiles : list InventoryFile) :
  forall o,
    sumZ (map snd (fold_left countFileType inventoryFiles o))
    = (sumZ (map snd o) + Z.of_nat (List.length inventoryFiles))%Z.
Proof.
  induction inventoryFiles as [|file rest IH]; intro o.
  - cbn [fold_left List.length]. lia.
  - cbn [fold_left]. rewrite IH. unfold countFileType.
    rewrite sumZ_objSet_increment. cbn [List.length]. lia.
Qed.

Lemma fileTypes_count (key : string) (inventoryFiles : list InventoryFile) :
  forall o,
    objGet (fold_left countFileType inventoryFiles o) key
    = match objGet o key with
      | Some v => Some (v + filesOfType key inventoryFiles)%Z
      | None =>
          if (filesOfType key inventoryFiles =? 0)%Z then None
          else Some (filesOfType key inventoryFiles)
      end.
Proof.
  unfold filesOfType.
  induction inventoryFiles as [|file rest IH]; intro o.
  - cbn. destruct (objGet o key); [f_equal; lia | reflexivity].
  - cbn [fold_left map count_occ]. rewrite IH. unfold countFileType.
    fold (typeKey file). rewrite objGet_objSet.
    destruct (string_dec (typeKey file) key) as [->|Hne].
    + rewrite String.eqb_refl.
      destruct (objGet o key) as [v|]; cbn [orZero].
      * f_equal. lia.
      * destruct (Z.eqb_spec (Z.of_nat (S (count_occ string_dec
                                             (map typeKey rest) key))) 0)
          as [E|_]; [lia|]. f_equal. lia.
    + destruct (String.eqb_spec (typeKey file) key) as [E|_];
        [contradiction|].
      reflexivity.
Qed.

(** X7.  In the inventory, [totalFiles] is the number of records,
    [totalSize] the sum of their sizes, the counts of the file types
    add up to [totalFiles], and the count under a key is the number of
    files of that key, a key no file has being absent. *)
Theorem makeInventory_counts (found : list FileRecord) :
  let inventory := makeInventory found in
  totalFiles inventory = Z.of_nat (List.length (files inventory))
  /\ totalSize inventory = sumZ (map size found)
  /\ sumZ (map snd (fileTypes inventory)) = totalFiles inventory
  /\ (forall key,
         objGet (fileTypes inventory) key
         = if (filesOfType key (files inventory) =? 0)%Z then None
           else Some (filesOfType key (files inventory))).
Proof.
  cbv zeta. cbn [makeInventory totalFiles totalSize fileTypes files].
  split; [rewrite length_map; reflexivity|]. split; [|split].
  - assert (H : forall l acc,
               fold_left (fun sum f => (sum + size f)%Z) l acc
               = (acc + sumZ (map size l))%Z).
    { induction l as [|f l IH]; intro acc; cbn [fold_left map].
      - unfold sumZ. cbn. lia.
      - rewrite IH. unfold sumZ. cbn [fold_right]. lia. }
    rewrite H. lia.
  - rewrite fileTypes_sum, length_map. cbn. reflexivity.
  - intro key. rewrite fileTypes_count. reflexivity.
Qed.

(** ** Flags and lists of the metrics *)

Lemma fold_setAdd_firstOccurrences (l : list string) :
  fold_left setAdd l [] = firstOccurrences l.
Proof.
  induction l as [|x l IH] using rev_ind; [reflexivity|].
  rewrite fold_left_app, firstOccurrences_snoc, IH. reflexivity.
Qed.

Section MetricsFacts.
Variable P : Platform.
Variable disk : Disk.

Lemma analyzeFiles_flags (inventoryFiles : list InventoryFile) :
  forall st0 st,
    analyzeFiles P disk st0 inventoryFiles = Ok st ->
    hasTests (metrics st)
    = hasTests (metrics st0)
      || existsb reportsTests (sourceResults P disk inventoryFiles)
    /\ frameworks (metrics st)
       = fold_left setAdd
           (flat_map frameworksOf (sourceResults P disk inventoryFiles))
           (frameworks (metrics st0)).
Proof.
  unfold sourceResults.
  induction inventoryFiles as [|file rest IH]; intros st0 st Hrun.
  - cbn in Hrun. injection Hrun as <-. cbn. rewrite orb_false_r.
    split; reflexivity.
  - cbn [analyzeFiles] in Hrun. unfold analyzeFile in Hrun.
    cbn [filter]. destruct (isSourceFile file).
    + cbn [bindR] in Hrun. apply IH in Hrun. destruct Hrun as [Ht Hf].
      cbn [map flat_map existsb]. fold (analysisOf P disk file) in *.
      rewrite fold_left_app.
      destruct (analysisOf P disk file) as [? ? ? ? tests fw|err];
        cbn [recordSource metrics hasTests frameworks ar_hasTests
             ar_frameworks reportsTests frameworksOf fold_left] in *;
        rewrite Ht, Hf.
      * split; [|reflexivity].
        destruct tests, (hasTests (metrics st0)); reflexivity.
      * split; reflexivity.
    + destruct (isConfigFile file).
      * destruct (analyzeConfigFile P disk (path (record file)))
          as [configAnalysis|e]; cbn [bindR] in Hrun; [|discriminate].
        apply IH in Hrun. exact Hrun.
      * cbn [bindR] in Hrun. apply IH in Hrun. exact Hrun.
Qed.

(** X8.  When the loop over the inventory ends, [hasTests] tells
    whether some analysis of a source file has its [hasTests] true, and
    [frameworks] lists the frameworks of the analyses at their first
    occurrence, without repetition. *)
Theorem metrics_flags (inventoryFiles : list InventoryFile) (st : Analysis) :
  analyzeFiles P disk initialAnalysis inventoryFiles = Ok st ->
  hasTests (metrics st)
  = existsb reportsTests (sourceResults P disk inventoryFiles)
  /\ frameworks (metrics st)
     = firstOccurrences
         (flat_map frameworksOf (sourceResults P disk inventoryFiles))
  /\ NoDup (frameworks (metrics st)).
Proof.
  intro Hrun. destruct (analyzeFiles_flags _ _ _ Hrun) as [Ht Hf].
  cbn [initialAnalysis metrics hasTests frameworks orb] in Ht, Hf.
  rewrite fold_setAdd_firstOccurrences in Hf.
  split; [exact Ht|]. split; [exact Hf|].
  rewrite Hf. apply firstOccurrences_NoDup.
Qed.

End MetricsFacts.

Lemma metrics_flags_witness :
  exists st,
    Sample.passOn Sample.oneSource = Ok st
    /\ hasTests (metrics st) = false
    /\ NoDup (frameworks (metrics st)).
Proof.
  destruct (Sample.passOn Sample.oneSource) as [st|e] eqn:Hrun;
    [|vm_compute in Hrun; discriminate].
  exists st. split; [reflexivity|].
  destruct (metrics_flags Sample.platform Sample.oneSource
              (Sample.inventoryOf Sample.oneSource) st Hrun)
    as (Ht & _ & Hn).
  split; [rewrite Ht; reflexivity | exact Hn].
Defined.

(** ** The config files of the metrics *)




(** ** A source file whose analysis fails *)

(** X10.  When the analysis of a source file carries an error, the turn
    of the loop for that file ends without exception, leaves the
    metrics and the dependency map as they were, and records the
    analysis with the error under the relative path of the file, the
    other keys of the per-file mapping keeping their values. *)
Theorem failed_source_only_recorded (P : Platform) (disk : Disk)
    (st : Analysis) (file : InventoryFile) :
  isSourceFile file = true ->
  succeeded (analysisOf P disk file) = false ->
  exists st' e,
    analyzeFile P disk st file = Ok st'
    /\ metrics st' = metrics st
    /\ dependencyMap st' = dependencyMap st
    /\ objGet (fileAnalysis st') (relativePath (record file))
       = Some (Failed e)
    /\ (forall key,
           key <> relativePath (record file) ->
           objGet (fileAnalysis st') key = objGet (fileAnalysis st) key).
Proof.
  intros Hsource Hfailed. unfold analyzeFile. rewrite Hsource.
  fold (analysisOf P disk file).
  destruct (analysisOf P disk file) as [? ? ? ? ? ?|e]; [discriminate|].
  eexists. exists e. split; [reflexivity|].
  destruct st as [fa dm [loc cx fw tests cfg]].
  cbn [recordSource metrics dependencyMap fileAnalysis ar_imports
       ar_linesOfCode ar_complexity ar_frameworks ar_hasTests orZero
       fold_left totalLinesOfCode totalComplexity frameworks hasTests
       configFiles].
  rewrite !Z.add_0_r. split; [reflexivity|]. split; [reflexivity|].
  split.
  - rewrite objGet_objSet, String.eqb_refl. reflexivity.
  - intros key Hkey. rewrite objGet_objSet.
    destruct (String.eqb_spec (relativePath (record file)) key);
      [congruence | reflexivity].
Qed.

Lemma failed_source_only_recorded_witness :
  exists st' e,
    analyzeFile Sample.platform Sample.oneSource initialAnalysis
      MoreSamples.goneFile = Ok st'
    /\ metrics st' = metrics initialAnalysis
    /\ objGet (fileAnalysis st') "gone.js" = Some (Failed e).
Proof.
  destruct (failed_source_only_recorded Sample.platform Sample.oneSource
              initialAnalysis MoreSamples.goneFile eq_refl eq_refl)
    as (st' & e & H1 & H2 & _ & H3 & _).
  exists st', e. split; [exact H1|]. split; [exact H2 | exact H3].
Defined.

(** ** What a run leaves untouched *)

Lemma objGet_app {A : Type} (o o' : list (string * A)) (k : string) :
  objGet (o ++ o') k
  = match objGet o k with
    | Some v => Some v
    | None => objGet o' k
    end.
Proof.
  induction o as [|[k' v] o IH]; cbn [app objGet]; [reflexivity|].
  destruct (String.eqb k' k); [reflexivity | exact IH].
Qed.

Lemma Untouched_refl (d : Disk) : Untouched d d.
Proof. intros p _ _. reflexivity. Qed.

Lemma Untouched_trans (d1 d2 d3 : Disk) :
  Untouched d1 d2 -> Untouched d2 d3 -> Untouched d1 d3.
Proof.
  intros H12 H23 p Hp Hq. rewrite (H23 p Hp Hq). apply (H12 p Hp Hq).
Qed.

Lemma mkdirSync_Untouched (disk disk' : Disk) :
  existsSync disk [] = true ->
  existsSync disk [ANALYSIS_DIR] = false ->
  mkdirSync disk ANALYSIS_DIR = Ok disk' ->
  Untouched disk disk' /\ existsSync disk' [] = true.
Proof.
  unfold existsSync, find, mkdirSync.
  destruct disk as [[d|entries]|]; try discriminate.
  intros _ Hnone H. injection H as <-. split; [|reflexivity].
  cbn [lookup] in Hnone.
  destruct (objGet entries ANALYSIS_DIR) as [x|] eqn:Hget; [discriminate|].
  intros p Hp _. unfold readFile, find.
  destruct p as [|n q]; [reflexivity|].
  cbn [lookup]. rewrite objGet_app.
  destruct (objGet entries n) as [x|] eqn:Hn; [reflexivity|].
  cbn [objGet]. destruct (String.eqb_spec ANALYSIS_DIR n) as [<-|_];
    [|reflexivity].
  destruct q as [|m q']; [congruence | reflexivity].
Qed.

Lemma writeFile_Untouched (disk disk' : Disk) (name : string) (d : FileData) :
  In name artifactOrder ->
  writeFile disk ANALYSIS_DIR name d = Ok disk' ->
  Untouched disk disk' /\ existsSync disk' [] = true.
Proof.
  intros Hname Hw. split.
  - intros p _ Hq. apply (readFile_after_write _ _ _ _ _ Hw).
    apply Hq, Hname.
  - destruct (writeFile_spec _ _ _ _ Hw) as (? & ? & ? & ? & _ & -> & _).
    reflexivity.
Qed.

Section KeepsFacts.
Variable P : Platform.

Lemma Keeps_ret {A : Type} (a : A) : Keeps (ret a).
Proof.
  intros s s' r Hroot H. injection H as <- _.
  split; [apply Untouched_refl | exact Hroot].
Qed.

Lemma Keeps_reading {A : Type} (f : Disk -> Result A) : Keeps (reading f).
Proof.
  intros s s' r Hroot H. injection H as <- _.
  split; [apply Untouched_refl | exact Hroot].
Qed.

Lemma Keeps_newDate : Keeps (newDate P).
Proof.
  intros s s' r Hroot H. injection H as <- _.
  split; [apply Untouched_refl | exact Hroot].
Qed.

Lemma Keeps_bind {A B : Type} (m : M A) (k : A -> M B) :
  Keeps m -> (forall a, Keeps (k a)) -> Keeps (bind m k).
Proof.
  intros Hm Hk s s' r Hroot H. unfold bind in H.
  destruct (m s) as [s1 [a|e]] eqn:Hms.
  - destruct (Hm s s1 _ Hroot Hms) as [U1 R1].
    destruct (Hk a s1 s' r R1 H) as [U2 R2].
    split; [apply (Untouched_trans _ _ _ U1 U2) | exact R2].
  - injection H as <- _. apply (Hm s s1 _ Hroot Hms).
Qed.

Lemma Keeps_createDirectory : Keeps createDirectory.
Proof.
  intros s s' r Hroot H. unfold createDirectory in H.
  destruct (existsSync (st_disk s) [ANALYSIS_DIR]) eqn:Hdir; cbn [negb] in H.
  - injection H as <- _. split; [apply Untouched_refl | exact Hroot].
  - destruct (mkdirSync (st_disk s) ANALYSIS_DIR) as [disk'|e] eqn:Hmk.
    + injection H as <- _. cbn [st_disk].
      apply (mkdirSync_Untouched _ _ Hroot Hdir Hmk).
    + injection H as <- _. split; [apply Untouched_refl | exact Hroot].
Qed.

Lemma Keeps_writeFileSync (name : string) (a : Artifact) :
  In name artifactOrder -> Keeps (writeFileSync P name a).
Proof.
  intros Hname s s' r Hroot H.
  destruct (writeFileSync_cases P name a s) as [[disk' [Hw Heq]]|[e Heq]];
    rewrite Heq in H; injection H as <- _.
  - cbn [st_disk]. apply (writeFile_Untouched _ _ _ _ Hname Hw).
  - split; [apply Untouched_refl | exact Hroot].
Qed.

Lemma Keeps_analysisPass (baseDir : string) (options : Options) :
  Keeps (analysisPass P baseDir options).
Proof.
  unfold analysisPass, inventoryPhase, analysisPhase, reportPhase.
  repeat first
    [ apply Keeps_bind; [|intro]
    | apply Keeps_ret
    | apply Keeps_reading
    | apply Keeps_newDate
    | apply Keeps_createDirectory
    | apply Keeps_writeFileSync; cbn; tauto ].
Qed.

(** X11.  Whatever its outcome, a run changes nothing on the disk but
    the analysis directory and the six artifact files in it: every
    other path reads after the run as it read before. *)
Theorem runAnalysis_touches_artifacts_only (baseDir : string)
    (options : Options) (disk : Disk) (ticks : nat) (s : State)
    (o : Outcome) :
  runAnalysis P baseDir options disk ticks = (s, o) ->
  Untouched disk (st_disk s).
Proof.
  unfold runAnalysis. destruct (existsSync disk []) eqn:Hroot; cbn [negb].
  - destruct (analysisPass P baseDir options
                {| st_disk := disk; st_ticks := ticks; st_written := [] |})
      as [s' r] eqn:Hpass.
    intro H.
    assert (Hs : s = s') by (destruct r; injection H as <- _; reflexivity).
    subst s'.
    apply (Keeps_analysisPass baseDir options
             {| st_disk := disk; st_ticks := ticks; st_written := [] |}
             s r Hroot Hpass).
  - intro H. injection H as <- _. apply Untouched_refl.
Qed.

End KeepsFacts.

Lemma runAnalysis_touches_artifacts_only_witness :
  exists s o,
    runAnalysis Sample.platform "proj" None Sample.brokenManifest 0 = (s, o)
    /\ readFile (st_disk s) ["package.json"]
       = readFile Sample.brokenManifest ["package.json"].
Proof.
  destruct (runAnalysis Sample.platform "proj" None Sample.brokenManifest 0)
    as [s o] eqn:Hrun.
  exists s, o. split; [reflexivity|].
  apply (runAnalysis_touches_artifacts_only Sample.platform "proj" None
           Sample.brokenManifest 0 s o Hrun); [discriminate|].
  intros name _. discriminate.
Defined.

(** ** The artifacts on the disk *)

Section WritesFacts.
Variable P : Platform.

Lemma Writes_same {A : Type} (m : M A) :
  (forall s s' r, m s = (s', r) ->
                  st_disk s' = st_disk s /\ st_written s' = st_written s) ->
  Writes P [] m.
Proof.
  intros Hsame s s' r Hrec _ H. destruct (Hsame s s' r H) as [Hd Hw].
  split.
  - intros name a Hin. rewrite Hd. apply Hrec. rewrite <- Hw. exact Hin.
  - intros n Hn. left. rewrite <- Hw. exact Hn.
Qed.

Lemma Writes_ret {A : Type} (a : A) : Writes P [] (ret a).
Proof.
  apply Writes_same. intros s s' r H. injection H as <- _.
  split; reflexivity.
Qed.

Lemma Writes_reading {A : Type} (f : Disk -> Result A) :
  Writes P [] (reading f).
Proof.
  apply Writes_same. intros s s' r H. injection H as <- _.
  split; reflexivity.
Qed.

Lemma Writes_newDate : Writes P [] (newDate P).
Proof.
  apply Writes_same. intros s s' r H. injection H as <- _.
  split; reflexivity.
Qed.

Lemma Writes_weaken {A : Type} (names names' : list string) (m : M A) :
  incl names names' -> Writes P names m -> Writes P names' m.
Proof.
  intros Hincl Hm s s' r Hrec Hfresh H.
  destruct (Hm s s' r Hrec (fun n Hn => Hfresh n (Hincl n Hn)) H)
    as [Hrec' Hnames].
  split; [exact Hrec'|]. intros n Hn.
  destruct (Hnames n Hn) as [Hold|Hnew]; [left | right; apply Hincl];
    assumption.
Qed.

Lemma Writes_bind {A B : Type} (n1 n2 : list string) (m : M A)
    (k : A -> M B) :
  Writes P n1 m -> (forall a, Writes P n2 (k a)) ->
  (forall n, In n n1 -> ~ In n n2) ->
  Writes P (n1 ++ n2) (bind m k).
Proof.
  intros Hm Hk Hdisjoint s s' r Hrec Hfresh H. unfold bind in H.
  destruct (m s) as [s1 [a|e]] eqn:Hms.
  - destruct (Hm s s1 _ Hrec
                (fun n Hn => Hfresh n (in_or_app _ _ _ (or_introl Hn))) Hms)
      as [Hrec1 Hnames1].
    assert (Hfresh2 : forall n, In n n2 -> ~ In n (map fst (st_written s1))).
    { intros n Hn Hin. destruct (Hnames1 n Hin) as [Hold|Hnew].
      - apply (Hfresh n (in_or_app _ _ _ (or_intror Hn)) Hold).
      - apply (Hdisjoint n Hnew Hn). }
    destruct (Hk a s1 s' r Hrec1 Hfresh2 H) as [Hrec2 Hnames2].
    split; [exact Hrec2|]. intros n Hn.
    destruct (Hnames2 n Hn) as [Hold|Hnew].
    + destruct (Hnames1 n Hold) as [Hold'|Hnew'];
        [left; assumption | right; apply in_or_app; left; assumption].
    + right. apply in_or_app. right. assumption.
  - injection H as <- _.
    destruct (Hm s s1 _ Hrec
                (fun n Hn => Hfresh n (in_or_app _ _ _ (or_introl Hn))) Hms)
      as [Hrec1 Hnames1].
    split; [exact Hrec1|]. intros n Hn.
    destruct (Hnames1 n Hn) as [Hold|Hnew];
      [left; assumption | right; apply in_or_app; left; assumption].
Qed.

Lemma Writes_createDirectory : Writes P [] createDirectory.
Proof.
  intros s s' r Hrec _ H. unfold createDirectory in H.
  destruct (existsSync (st_disk s) [ANALYSIS_DIR]) eqn:Hdir; cbn [negb] in H.
  - injection H as <- _. split; [exact Hrec | intros n Hn; left; exact Hn].
  - destruct (mkdirSync (st_disk s) ANALYSIS_DIR) as [disk'|e].
    + injection H as <- _. cbn [st_written]. split; [|intros n Hn; left; exact Hn].
      intros name a Hin. exfalso.
      specialize (Hrec name a Hin).
      unfold existsSync, find in Hdir.
      unfold readFileSync, readFile, find in Hrec.
      destruct (st_disk s) as [[d|entries]|]; try discriminate.
      cbn [lookup] in Hdir, Hrec.
      destruct (objGet entries ANALYSIS_DIR); discriminate.
    + injection H as <- _. split; [exact Hrec | intros n Hn; left; exact Hn].
Qed.

Lemma Writes_writeFileSync (name : string) (a : Artifact) :
  Writes P [name] (writeFileSync P name a).
Proof.
  intros s s' r Hrec Hfresh H.
  destruct (writeFileSync_cases P name a s) as [[disk' [Hw Heq]]|[e Heq]];
    rewrite Heq in H; injection H as <- _.
  - cbn [st_disk st_written]. split.
    + intros name' a' Hin. apply in_app_or in Hin.
      unfold readFileSync. cbn [st_disk]. destruct Hin as [Hin|[Heq'|[]]].
      * rewrite (readFile_after_write _ _ _ _ _ Hw).
        -- apply (Hrec name' a' Hin).
        -- intro Hp. injection Hp as ->.
           apply (Hfresh name (or_introl eq_refl)).
           apply in_map_iff. exists (name, a'). split; [reflexivity | exact Hin].
      * injection Heq' as Hn Ha. subst name' a'.
        rewrite (readFile_own_write _ _ _ _ Hw eq_refl). reflexivity.
    + intros n Hn. rewrite map_app in Hn. apply in_app_or in Hn.
      destruct Hn as [Hn|[<-|[]]]; [left; exact Hn | right; left; reflexivity].
  - split; [exact Hrec | intros n Hn; left; exact Hn].
Qed.

Lemma Writes_analysisPass (baseDir : string) (options : Options) :
  Writes P artifactOrder (analysisPass P baseDir options).
Proof.
  unfold analysisPass, inventoryPhase, analysisPhase, reportPhase.
  eapply Writes_weaken;
    [|repeat first
        [ apply Writes_ret
        | apply Writes_reading
        | apply Writes_newDate
        | apply Writes_createDirectory
        | apply Writes_writeFileSync
        | eapply Writes_bind; [ | intro | ] ]].
  all: cbn;
    first [ solve [intros n Hn; tauto]
          | intros n H1 H2; intuition (subst; discriminate) ].
Qed.

End WritesFacts.

(** X12.  Whatever the outcome of a run, every artifact it has written
    is a file of the analysis directory that reads back as the text
    rendered for the artifact: no later step of the run overwrites an
    artifact written earlier. *)
Theorem runAnalysis_artifacts_on_disk (P : Platform) (baseDir : string)
    (options : Options) (disk : Disk) (ticks : nat) (s : State)
    (o : Outcome) :
  runAnalysis P baseDir options disk ticks = (s, o) ->
  forall name a,
    In (name, a) (st_written s) ->
    readFileSync (st_disk s) [ANALYSIS_DIR; name] = Ok (render P a).
Proof.
  unfold runAnalysis. destruct (negb (existsSync disk [])).
  - intro H. injection H as <- _. intros name a [].
  - destruct (analysisPass P baseDir options
                {| st_disk := disk; st_ticks := ticks; st_written := [] |})
      as [s' r] eqn:Hpass.
    intro H.
    assert (Hs : s = s') by (destruct r; injection H as <- _; reflexivity).
    subst s'.
    refine (proj1 (Writes_analysisPass P baseDir options
                     {| st_disk := disk; st_ticks := ticks;
                        st_written := [] |} s r _ _ Hpass)).
    + intros name a [].
    + intros n _ [].
Qed.

Lemma runAnalysis_artifacts_on_disk_witness :
  exists a,
    In (CODE_INVENTORY_FILE, a)
       (st_written
          (fst (runAnalysis Sample.platform "proj" None
                  Sample.brokenManifest 0)))
    /\ readFileSync
         (st_disk
            (fst (runAnalysis Sample.platform "proj" None
                    Sample.brokenManifest 0)))
         [ANALYSIS_DIR; CODE_INVENTORY_FILE]
       = Ok (render Sample.platform a).
Proof.
  eexists. split.
  - vm_compute. left. reflexivity.
  - eapply (runAnalysis_artifacts_on_disk Sample.platform "proj" None
              Sample.brokenManifest 0 _ _ (surjective_pairing _)).
    vm_compute. left. reflexivity.
Defined.

(** ** The documents of a completed run *)

Lemma reportPhase_documents (P : Platform) (baseDir : string)
    (inventory : CodeInventory) (st : Analysis) (s s' : State) :
  reportPhase P baseDir inventory st s = (s', Ok tt) ->
  exists date now generated,
    st_written s'
    = st_written s ++
      [(DEPENDENCY_MAP_FILE, DependencyDoc (dependencyMap st));
       (METRICS_FILE, MetricsDoc (metrics st));
       (ANALYSIS_SUMMARY_FILE,
        SummaryDoc inventory (fileAnalysis st) (dependencyMap st)
                   (metrics st) baseDir date);
       (MACHINE_CONTEXT_FILE,
        ContextDoc (machineContextOf baseDir inventory st now));
       (TASK_BACKLOG_FILE,
        BacklogDoc (generateTaskBacklog
                      (machineContextOf baseDir inventory st now)
                      generated))].
Proof.
  unfold reportPhase, bind, newDate.
  repeat
    match goal with
    | |- context [writeFileSync P ?n ?a ?s0] =>
        destruct (writeFileSync_cases P n a s0) as [[? [_ ->]] | [? ->]];
        [|discriminate];
        cbn [st_disk st_ticks st_written]
    end.
  intro H. injection H as <-. cbn [st_written].
  eexists. eexists. eexists.
  repeat rewrite <- app_assoc. cbn [app]. reflexivity.
Qed.

(** X13.  The six documents of a completed run are those of one pass:
    the summary document is built from the inventory, the dependency
    map and the metrics written beside it; the summary block of the
    context repeats the totals of that inventory and of those metrics;
    the context carries that dependency map and those metrics; and the
    backlog is the one generated from that context. *)
Theorem runAnalysis_documents (P : Platform) (baseDir : string)
    (options : Options) (disk : Disk) (ticks : nat) (s : State) :
  runAnalysis P baseDir options disk ticks = (s, Completed) ->
  exists inventory dm m date context generated,
    st_written s
    = [(CODE_INVENTORY_FILE, InventoryDoc inventory);
       (DEPENDENCY_MAP_FILE, DependencyDoc dm);
       (METRICS_FILE, MetricsDoc m);
       (ANALYSIS_SUMMARY_FILE,
        SummaryDoc inventory (mc_files context) dm m baseDir date);
       (MACHINE_CONTEXT_FILE, ContextDoc context);
       (TASK_BACKLOG_FILE,
        BacklogDoc (generateTaskBacklog context generated))]
    /\ projectPath context = baseDir
    /\ dependencies context = dm
    /\ mc_metrics context = m
    /\ fileCount (summary context) = totalFiles inventory
    /\ sm_totalSize (summary context) = totalSize inventory
    /\ linesOfCode (summary context) = totalLinesOfCode m
    /\ complexity (summary context) = totalComplexity m
    /\ sm_frameworks (summary context) = frameworks m
    /\ sm_hasTests (summary context) = hasTests m.
Proof.
  intro Hrun.
  assert (Hexists : existsSync disk [] = true).
  { destruct (existsSync disk []) eqn:E; [reflexivity|].
    unfold runAnalysis in Hrun. rewrite E in Hrun. discriminate. }
  rewrite (runAnalysis_phases P baseDir options disk ticks Hexists) in Hrun.
  destruct (inventoryPhase P options (initialState disk ticks))
    as [sa [inventory|e]] eqn:Hinv; [|discriminate].
  destruct (analyzeFiles P (st_disk sa) initialAnalysis (files inventory))
    as [st|e]; [|discriminate].
  destruct (reportPhase P baseDir inventory st sa) as [sb [[]|e]] eqn:Hrep;
    [|discriminate].
  injection Hrun as <-.
  apply inventoryPhase_written in Hinv.
  cbn [initialState st_written app] in Hinv.
  destruct (reportPhase_documents _ _ _ _ _ _ Hrep)
    as (date & now & generated & Hw).
  rewrite Hinv in Hw. cbn [app] in Hw.
  exists inventory, (dependencyMap st), (metrics st), date,
    (machineContextOf baseDir inventory st now), generated.
  split; [exact Hw|]. repeat split.
Qed.

Lemma runAnalysis_documents_witness :
  exists s context,
    runAnalysis Sample.platform "proj" None Sample.oneSource 0
    = (s, Completed)
    /\ In (MACHINE_CONTEXT_FILE, ContextDoc context) (st_written s)
    /\ complexity (summary context) = 45%Z.
Proof.
  destruct (runAnalysis Sample.platform "proj" None Sample.oneSource 0)
    as [s o] eqn:Hrun.
  assert (Ho : o = Completed) by (vm_compute in Hrun; congruence).
  subst o.
  destruct (runAnalysis_documents Sample.platform "proj" None
              Sample.oneSource 0 s Hrun)
    as (inventory & dm & m & date & context & generated & Hw & _ & _ & _
        & _ & _ & _ & Hcx & _).
  exists s, context. split; [reflexivity|]. split.
  - rewrite Hw. cbn. tauto.
  - rewrite Hcx. vm_compute in Hrun. injection Hrun as <-.
    cbn [st_written] in Hw. injection Hw. intros. subst m. reflexivity.
Defined.

(** ** The work command on a backlog *)

Lemma find_first {A : Type} (test : A -> bool) (l : list A) (x : A) :
  List.find test l = Some x ->
  exists before after,
    l = before ++ x :: after
    /\ test x = true
    /\ forall y, In y before -> test y = false.
Proof.
  induction l as [|a l IH]; cbn [List.find]; [discriminate|].
  destruct (test a) eqn:Ha.
  - intro H. injection H as <-. exists [], l.
    split; [reflexivity|]. split; [exact Ha | intros y []].
  - intro H. destruct (IH H) as (before & after & -> & Hx & Hbefore).
    exists (a :: before), after. split; [reflexivity|].
    split; [exact Hx|]. intros y [<-|Hy]; [exact Ha | apply Hbefore, Hy].
Qed.

(** X14.  The task selected for an identifier is the first task of the
    backlog whose identifier equals it once both are put in lower case:
    no task before it in the backlog has such an identifier. *)
Theorem runWork_selects_first (backlog : Backlog) (taskId : string)
    (task : Task) :
  runWork (Some backlog) (Some taskId) = Prompt task ->
  exists before after,
    tasks backlog = before ++ task :: after
    /\ sameIdentifier taskId task
    /\ forall t, In t before -> ~ sameIdentifier taskId t.
Proof.
  unfold sameIdentifier. destruct taskId as [|c rest].
  - cbn [runWork].
    destruct (filter _ (tasks backlog)); discriminate.
  - cbn [runWork].
    destruct (List.find _ (tasks backlog)) as [found|] eqn:Hfind;
      [|discriminate].
    intro H. injection H as ->.
    destruct (find_first _ _ _ Hfind) as (before & after & Hsplit & Hx & Hb).
    exists before, after. split; [exact Hsplit|].
    split; [apply String.eqb_eq, Hx|].
    intros t Ht Heq. specialize (Hb t Ht).
    apply String.eqb_neq in Hb. contradiction.
Qed.

Lemma runWork_selects_first_witness :
  exists before after,
    tasks WorkExample.backlog = before ++ testingTask 1 :: after
    /\ sameIdentifier "t-001" (testingTask 1).
Proof.
  destruct (runWork_selects_first WorkExample.backlog "t-001"
              (testingTask 1) eq_refl)
    as (before & after & Hsplit & Hsame & _).
  exists before, after. split; assumption.
Defined.

(** X15.  Without a task identifier, and also with the empty text as
    identifier, the command ends on the completion message exactly
    when no task of the backlog is pending, and otherwise lists the
    pending tasks, all of them and in the order of the backlog; it
    neither composes a prompt nor fails. *)
Theorem runWork_lists_pending (backlog : Backlog) (taskOption : option string) :
  taskOption = None \/ taskOption = Some "" ->
  let pending := filter (fun t => String.eqb (status t) "pending")
                        (tasks backlog) in
  (runWork (Some backlog) taskOption = AllCompleted
   <-> forall t, In t (tasks backlog) -> status t <> "pending")
  /\ (runWork (Some backlog) taskOption <> AllCompleted ->
      runWork (Some backlog) taskOption = PendingListed pending)
  /\ (forall t, In t pending <-> In t (tasks backlog) /\ status t = "pending").
Proof.
  intros Hoption. cbv zeta.
  assert (Hrun : runWork (Some backlog) taskOption
                 = match filter (fun t => String.eqb (status t) "pending")
                                (tasks backlog) with
                   | [] => AllCompleted
                   | _ => PendingListed
                            (filter (fun t => String.eqb (status t) "pending")
                                    (tasks backlog))
                   end)
    by (destruct Hoption as [->| ->]; reflexivity).
  rewrite Hrun.
  assert (Hmem : forall t,
             In t (filter (fun t => String.eqb (status t) "pending")
                          (tasks backlog))
             <-> In t (tasks backlog) /\ status t = "pending").
  { intro t. rewrite filter_In, String.eqb_eq. reflexivity. }
  split; [|split; [|exact Hmem]].
  - destruct (filter _ (tasks backlog)) as [|t0 l] eqn:Hfilter.
    + split; [|reflexivity]. intros _ t Hin Hstatus.
      apply (proj2 (Hmem t) (conj Hin Hstatus)).
    + split; [discriminate|]. intro Hnone. exfalso.
      destruct (proj1 (Hmem t0) (or_introl eq_refl)) as [Hin Hstatus].
      apply (Hnone t0 Hin Hstatus).
  - destruct (filter _ (tasks backlog)); [congruence | reflexivity].
Qed.

Lemma runWork_lists_pending_witness :
  runWork (Some WorkExample.backlog) (Some "") <> AllCompleted
  /\ runWork (Some WorkExample.backlog) (Some "")
     = PendingListed [testingTask 1].
Proof.
  split; [discriminate|].
  apply (proj1 (proj2 (runWork_lists_pending WorkExample.backlog (Some "")
                         (or_intror eq_refl)))).
  discriminate.
Defined.

(** X16.  Every task of a generated backlog can be fetched by its
    identifier, written in upper or in lower case, and the command
    without identifier lists the whole generated backlog, or ends on
    the completion message when the backlog is empty. *)
Theorem generated_tasks_can_be_fetched (context : MachineContext)
    (now : Date) :
  let backlog := generateTaskBacklog context now in
  (forall t,
      In t (tasks backlog) ->
      runWork (Some backlog) (Some (id t)) = Prompt t
      /\ runWork (Some backlog) (Some (toLowerCase (id t))) = Prompt t)
  /\ NoDup (map id (tasks backlog))
  /\ runWork (Some backlog) None
     = match tasks backlog with
       | [] => AllCompleted
       | l => PendingListed l
       end.
Proof.
  cbv zeta. unfold generateTaskBacklog.
  destruct (sm_hasTests (summary context));
    destruct (100 <? complexity (summary context))%Z;
    cbn [negb fst snd app tasks].
  - split; [|split; [|reflexivity]].
    + intros t [<-|[]]. split; reflexivity.
    + repeat constructor. intros [].
  - split; [|split; [|reflexivity]].
    + intros t [].
    + constructor.
  - split; [|split; [|reflexivity]].
    + intros t [<-|[<-|[]]]; split; reflexivity.
    + repeat constructor; cbn; intuition discriminate.
  - split; [|split; [|reflexivity]].
    + intros t [<-|[]]. split; reflexivity.
    + repeat constructor. intros [].
Qed.

(** ** The import specifiers *)

Lemma span_spec (p : ascii -> bool) (s a b : string) :
  span p s = (a, b) ->
  s = (a ++ b)%string
  /\ Forall (fun c => p c = true) (list_ascii_of_string a)
  /\ match b with
     | EmptyString => True
     | String c _ => p c = false
     end.
Proof.
  revert a b. induction s as [|c s IH]; intros a b H; cbn [span] in H.
  - injection H as <- <-. repeat split. constructor.
  - destruct (p c) eqn:Hc.
    + destruct (span p s) as [a' b'] eqn:Hspan. injection H as <- <-.
      destruct (IH a' b' eq_refl) as (Hs & Hall & Hb).
      split; [cbn; f_equal; exact Hs|].
      split; [constructor; assumption | exact Hb].
    + injection H as <- <-. repeat split; [constructor | exact Hc].
Qed.

Lemma span_app (p : ascii -> bool) (a b : string) :
  Forall (fun c => p c = true) (list_ascii_of_string a) ->
  match b with
  | EmptyString => True
  | String c _ => p c = false
  end ->
  span p (a ++ b) = (a, b).
Proof.
  intros Hall Hb. induction a as [|c a IH]; cbn [append span].
  - destruct b as [|d b]; [reflexivity|]. cbn [span]. rewrite Hb. reflexivity.
  - cbn in Hall. inversion Hall as [|? ? Hc Hrest]; subst.
    rewrite Hc, (IH Hrest). reflexivity.
Qed.

Lemma isQuote_not_space (q : ascii) : isQuote q = true -> isSpace q = false.
Proof.
  destruct q as [[] [] [] [] [] [] [] []]; try discriminate; reflexivity.
Qed.

Lemma dropPrefix_complete (keyword rest : string) :
  dropPrefix keyword (keyword ++ rest) = Some rest.
Proof.
  induction keyword as [|c k IH]; cbn [append dropPrefix]; [reflexivity|].
  rewrite Ascii.eqb_refl. exact IH.
Qed.

Lemma substring_prefix (a b : string) :
  substring 0 (String.length a) (a ++ b) = a.
Proof.
  induction a as [|c a IH]; cbn [String.length append substring].
  - destruct b; reflexivity.
  - rewrite IH. reflexivity.
Qed.

Lemma length_append (a b : string) :
  String.length (a ++ b) = (String.length a + String.length b)%nat.
Proof.
  induction a as [|c a IH]; cbn; [reflexivity | rewrite IH; reflexivity].
Qed.

Lemma append_associative (a b c : string) :
  ((a ++ b) ++ c = a ++ (b ++ c))%string.
Proof.
  induction a as [|x a IH]; cbn [append]; [reflexivity|].
  rewrite IH. reflexivity.
Qed.

(** What a match of the [from] tail looks like. *)
Lemma fromClause_spec (s : string) (n : nat) (specifier : string) :
  fromClause s = Some (n, specifier) ->
  exists spaces q1 q2 rest,
    s = ("from" ++ spaces ++ String q1 (specifier ++ String q2 rest))%string
    /\ spaces <> EmptyString
    /\ Forall (fun c => isSpace c = true) (list_ascii_of_string spaces)
    /\ isQuote q1 = true
    /\ isQuote q2 = true
    /\ specifier <> EmptyString
    /\ Forall (fun c => isQuote c = false) (list_ascii_of_string specifier)
    /\ n = String.length
             ("from" ++ spaces ++ String q1 (specifier ++ String q2 ""))%string.
Proof.
  unfold fromClause.
  destruct (dropPrefix "from" s) as [r1|] eqn:Hfrom; [|discriminate].
  apply dropPrefix_app in Hfrom.
  destruct (span isSpace r1) as [spaces r2] eqn:Hspaces.
  destruct (span_spec _ _ _ _ Hspaces) as (Hr1 & Hallspace & _).
  destruct spaces as [|sp spaces']; [discriminate|].
  destruct r2 as [|q1 r3]; [discriminate|].
  destruct (isQuote q1) eqn:Hq1; [|discriminate].
  destruct (span (fun c => negb (isQuote c)) r3) as [spec r4] eqn:Hspec.
  destruct (span_spec _ _ _ _ Hspec) as (Hr3 & Hallspec & Hstop).
  destruct spec as [|c0 spec']; [discriminate|].
  destruct r4 as [|q2 rest]; [discriminate|].
  intro H. injection H as <- <-.
  exists (String sp spaces'), q1, q2, rest.
  split; [subst; reflexivity|].
  split; [discriminate|].
  split; [exact Hallspace|].
  split; [exact Hq1|].
  split; [apply negb_false_iff, Hstop|].
  split; [discriminate|].
  split.
  - apply Forall_impl with (2 := Hallspec).
    intros c Hc. apply negb_true_iff, Hc.
  - change ("from" ++ String sp spaces'
            ++ String q1 (String c0 spec' ++ String q2 ""))%string
      with (String "f" (String "r" (String "o" (String "m"
              (String sp spaces'
               ++ String q1 (String c0 spec' ++ String q2 ""))))))%string.
    cbn [String.length]. rewrite length_append. cbn [String.length].
    rewrite length_append. cbn [String.length]. lia.
Qed.

Lemma fromClause_complete (spaces specifier rest : string) (q1 q2 : ascii) :
  spaces <> EmptyString ->
  Forall (fun c => isSpace c = true) (list_ascii_of_string spaces) ->
  isQuote q1 = true ->
  isQuote q2 = true ->
  specifier <> EmptyString ->
  Forall (fun c => isQuote c = false) (list_ascii_of_string specifier) ->
  exists n,
    fromClause ("from" ++ spaces ++ String q1 (specifier ++ String q2 rest))
    = Some (n, specifier).
Proof.
  intros Hspaces Hallspace Hq1 Hq2 Hspec Hallspec.
  unfold fromClause. rewrite dropPrefix_complete.
  rewrite (span_app isSpace spaces
             (String q1 (specifier ++ String q2 rest)) Hallspace
             (isQuote_not_space _ Hq1)).
  destruct spaces as [|sp spaces']; [contradiction|].
  rewrite Hq1.
  rewrite (span_app (fun c => negb (isQuote c)) specifier (String q2 rest)).
  - destruct specifier as [|c0 spec']; [contradiction|].
    eexists. reflexivity.
  - apply Forall_impl with (2 := Hallspec).
    intros c Hc. rewrite Hc. reflexivity.
  - rewrite Hq2. reflexivity.
Qed.

(** The text of a match of the [from] tail is matched by it again. *)
Lemma fromClause_on_match (s : string) (n : nat) (specifier : string) :
  fromClause s = Some (n, specifier) ->
  exists m, fromClause (substring 0 n s) = Some (m, specifier).
Proof.
  intro H.
  destruct (fromClause_spec _ _ _ H)
    as (spaces & q1 & q2 & rest & -> & Hsp & Hallsp & Hq1 & Hq2 & Hspec
        & Hallspec & ->).
  replace ("from" ++ spaces ++ String q1 (specifier ++ String q2 rest))%string
    with (("from" ++ spaces ++ String q1 (specifier ++ String q2 ""))
          ++ rest)%string.
  - rewrite substring_prefix.
    apply fromClause_complete; assumption.
  - cbn [append]. do 4 f_equal.
    rewrite append_associative. cbn [append]. do 2 f_equal.
    rewrite append_associative. reflexivity.
Qed.

Lemma matchFromCapture_skips (prefix s : string) :
  matchFromCapture s <> None -> matchFromCapture (prefix ++ s) <> None.
Proof.
  intro H. induction prefix as [|c prefix IH]; [exact H|].
  cbn [append matchFromCapture].
  destruct (fromClause (String c (prefix ++ s))) as [[n specifier]|];
    [discriminate | exact IH].
Qed.

Lemma lazyThenFrom_captures (s : string) :
  forall n, lazyThenFrom s = Some n ->
            matchFromCapture (substring 0 n s) <> None.
Proof.
  induction s as [|c s IH]; intros n H.
  - cbn [lazyThenFrom] in H.
    destruct (fromClause "") as [[m specifier]|] eqn:Hfrom; [|discriminate].
    discriminate Hfrom.
  - cbn [lazyThenFrom] in H.
    destruct (fromClause (String c s)) as [[m specifier]|] eqn:Hfrom.
    + injection H as <-.
      destruct (fromClause_on_match _ _ _ Hfrom) as [m' Hm'].
      destruct (substring 0 m (String c s)) as [|d t] eqn:Hsub.
      * discriminate Hm'.
      * cbn [matchFromCapture]. rewrite Hm'. discriminate.
    + destruct (isLineTerminator c); [discriminate|].
      destruct (lazyThenFrom s) as [n'|] eqn:Hlazy; [|discriminate].
      injection H as <-. cbn [substring].
      apply (matchFromCapture_skips (String c "")), IH. reflexivity.
Qed.

Lemma importPattern_captures (prevWord : bool) (s : string) (n : nat) :
  importPattern prevWord s = Some n ->
  matchFromCapture (substring 0 n s) <> None.
Proof.
  unfold importPattern.
  destruct (dropPrefix "import" s) as [r|] eqn:Hdrop; [|discriminate].
  apply dropPrefix_app in Hdrop. subst s.
  destruct (lazyThenFrom r) as [n'|] eqn:Hlazy; [|discriminate].
  intro H. injection H as <-.
  cbn [append substring].
  change (matchFromCapture ("import" ++ substring 0 n' r) <> None).
  apply matchFromCapture_skips, lazyThenFrom_captures, Hlazy.
Qed.

Lemma scanG_importPattern_captures (s : string) :
  forall prevWord skip,
    Forall (fun imp => matchFromCapture imp <> None)
           (scanG importPattern prevWord skip s).
Proof.
  induction s as [|c s IH]; intros prevWord skip.
  - destruct skip; cbn [scanG]; [|constructor].
    destruct (importPattern prevWord "") as [n|] eqn:Hm; [|constructor].
    discriminate Hm.
  - destruct skip as [|k]; cbn [scanG]; [|apply IH].
    destruct (importPattern prevWord (String c s)) as [n|] eqn:Hm;
      [|apply IH].
    constructor; [|apply IH].
    apply (importPattern_captures _ _ _ Hm).
Qed.

Lemma matchFromCapture_spec (imp specifier : string) :
  matchFromCapture imp = Some specifier ->
  specifier <> EmptyString
  /\ Forall (fun c => isQuote c = false) (list_ascii_of_string specifier).
Proof.
  induction imp as [|c imp IH]; cbn [matchFromCapture].
  - destruct (fromClause "") as [[n sp]|] eqn:Hfrom; [|discriminate].
    discriminate Hfrom.
  - destruct (fromClause (String c imp)) as [[n sp]|] eqn:Hfrom;
      [|exact IH].
    intro H. injection H as ->.
    destruct (fromClause_spec _ _ _ Hfrom)
      as (? & ? & ? & ? & _ & _ & _ & _ & _ & Hne & Hall & _).
    split; assumption.
Qed.

(** X17.  Every text matched as an import statement yields exactly one
    import specifier (the test for a failed second match never
    fails), and every specifier is a non-empty text without any quote
    character. *)
Theorem extractImports_specifiers (content : string) :
  List.length (extractImports content)
  = List.length (importMatches content)
  /\ Forall (fun specifier =>
               specifier <> EmptyString
               /\ Forall (fun c => isQuote c = false)
                         (list_ascii_of_string specifier))
            (extractImports content).
Proof.
  unfold extractImports.
  assert (Hall : Forall (fun imp => matchFromCapture imp <> None)
                        (importMatches content)).
  { unfold importMatches, matchG.
    pose proof (scanG_importPattern_captures content false 0) as H.
    destruct (scanG importPattern false 0 content); [constructor | exact H]. }
  induction (importMatches content) as [|imp l IH]; cbn [flat_map].
  - split; [reflexivity | constructor].
  - inversion Hall as [|? ? Himp Hrest]; subst.
    destruct (IH Hrest) as [Hlen Hspec].
    destruct (matchFromCapture imp) as [specifier|] eqn:Hcap;
      [|contradiction].
    cbn [app List.length]. split; [f_equal; exact Hlen|].
    constructor; [|exact Hspec].
    apply (matchFromCapture_spec _ _ Hcap).
Qed.

(** ** The analyses the pass keeps *)

Lemma objKeys_objSet {A : Type} (o : list (string * A)) (k : string) (v : A) :
  objKeys (objSet o k v) = setAdd (objKeys o) k.
Proof.
  unfold objKeys, setAdd, arrayIncludes.
  induction o as [|[k' v'] o IH]; cbn [objSet map fst existsb orb app].
  - reflexivity.
  - rewrite (String.eqb_sym k k').
    destruct (String.eqb k' k); cbn [map fst orb]; [reflexivity|].
    rewrite IH. destruct (existsb (String.eqb k) (map fst o)); reflexivity.
Qed.

(** Filling an empty object entry after entry: the keys come in the
    order of their first entry, and a key holds the value of its last
    entry. *)
Lemma fold_objSet_entries {A : Type} (l : list (string * A)) :
  objKeys (fold_left (fun acc kv => objSet acc (fst kv) (snd kv)) l [])
  = firstOccurrences (map fst l)
  /\ forall key,
       objGet (fold_left (fun acc kv => objSet acc (fst kv) (snd kv)) l [])
              key
       = objGet (rev l) key.
Proof.
  induction l as [|[k v] l [IHkeys IHget]] using rev_ind.
  - split; reflexivity.
  - rewrite fold_left_app. cbn [fold_left fst snd]. split.
    + rewrite objKeys_objSet, IHkeys, map_app. cbn [map fst].
      rewrite firstOccurrences_snoc. reflexivity.
    + intro key. rewrite objGet_objSet, rev_app_distr.
      cbn [rev app objGet]. rewrite IHget. reflexivity.
Qed.

Lemma objGet_In_unique {A : Type} (l : list (string * A)) (k : string)
    (v : A) :
  NoDup (map fst l) -> In (k, v) l -> objGet l k = Some v.
Proof.
  induction l as [|[k' v'] l IH]; cbn [map fst In objGet]; intros Hnodup Hin.
  - contradiction.
  - apply NoDup_cons_iff in Hnodup. destruct Hnodup as [Hfresh Hrest].
    destruct Hin as [Heq|Hin].
    + injection Heq as -> ->. rewrite String.eqb_refl. reflexivity.
    + destruct (String.eqb_spec k' k) as [->|_]; [|apply IH; assumption].
      exfalso. apply Hfresh. apply in_map_iff. exists (k, v).
      split; [reflexivity | exact Hin].
Qed.

Section KeptAnalyses.
Variable P : Platform.
Variable disk : Disk.

(** X18.  After a pass that ends without exception, the keys of the
    per-file analyses are the relative paths of the source files of
    the inventory, each once and in the order of its first file, and
    a key holds the analysis of the last source file that has this
    relative path; files that are not source files leave no entry. *)
Theorem fileAnalysis_of_pass (inventoryFiles : list InventoryFile)
    (st : Analysis) :
  analyzeFiles P disk initialAnalysis inventoryFiles = Ok st ->
  objKeys (fileAnalysis st)
  = firstOccurrences
      (map (fun file => relativePath (record file))
           (filter isSourceFile inventoryFiles))
  /\ forall key,
       objGet (fileAnalysis st) key
       = option_map (analysisOf P disk)
           (List.find
              (fun file => String.eqb (relativePath (record file)) key)
              (rev (filter isSourceFile inventoryFiles))).
Proof.
  intro Hrun.
  destruct (analyzeFiles_accumulates P disk _ _ _ Hrun) as (_ & _ & _ & Hfa).
  cbn [initialAnalysis fileAnalysis] in Hfa. rewrite Hfa.
  destruct (fold_objSet_entries (sourceEntries P disk inventoryFiles))
    as [Hkeys Hget].
  split.
  - rewrite Hkeys. unfold sourceEntries. rewrite map_map. reflexivity.
  - intro key. rewrite Hget. unfold sourceEntries. rewrite <- map_rev.
    induction (rev (filter isSourceFile inventoryFiles)) as [|file l IH];
      cbn [map objGet List.find option_map]; [reflexivity|].
    destruct (String.eqb (relativePath (record file)) key);
      [reflexivity | exact IH].
Qed.

Lemma sumZ_member_bound (f : AnalysisResult -> Z) (l : list AnalysisResult)
    (a : AnalysisResult) :
  (forall x, In x l -> (0 <= f x)%Z) ->
  In a l ->
  (f a <= sumZ (map f l))%Z.
Proof.
  unfold sumZ.
  induction l as [|x l IH]; cbn [In map fold_right]; intros Hpos Hin.
  - contradiction.
  - assert (Hrest : (0 <= fold_right Z.add 0 (map f l))%Z).
    { clear IH Hin. induction l as [|y l IHl]; cbn [map fold_right]; [lia|].
      assert (0 <= f y)%Z by (apply Hpos; right; left; reflexivity).
      assert (0 <= fold_right Z.add 0 (map f l))%Z.
      { apply IHl. intros z [Hz|Hz]; apply Hpos;
          [left; exact Hz | right; right; exact Hz]. }
      lia. }
    destruct Hin as [->|Hin].
    + lia.
    + assert (0 <= f x)%Z by (apply Hpos; left; reflexivity).
      assert (f a <= fold_right Z.add 0 (map f l))%Z.
      { apply IH; [|exact Hin]. intros z Hz. apply Hpos. right. exact Hz. }
      lia.
Qed.

Lemma analysisOf_complexity_nonnegative (file : InventoryFile) :
  (0 <= ar_complexity (analysisOf P disk file))%Z.
Proof.
  unfold analysisOf, analyzeJavaScriptFile.
  destruct (readFileSync disk (path (record file))) as [content|e];
    [|cbn; lia].
  destruct (babelParse P content); cbn [ar_complexity]; [lia|].
  pose proof (calculateComplexity_above_length content). lia.
Qed.

(** X19.  The complexity of an analysed file exceeds the number of
    code units of its text by two or more.  So, in a pass over files
    of distinct relative paths, every source file of 19 code units or
    more that is read and parsed is listed among the high-complexity
    files, and one such file of 99 code units or more is enough for
    the backlog to hold the refactoring task. *)
Theorem long_source_file_is_flagged (inventoryFiles : list InventoryFile)
    (st : Analysis) (file : InventoryFile) (content : string)
    (baseDir : string) (codeInventory : CodeInventory) (now : Date) :
  analyzeFiles P disk initialAnalysis inventoryFiles = Ok st ->
  NoDup (map (fun f => relativePath (record f)) inventoryFiles) ->
  In file inventoryFiles ->
  isSourceFile file = true ->
  readFileSync disk (path (record file)) = Ok content ->
  babelParse P content = None ->
  let context := machineContextOf baseDir codeInventory st now in
  (2 + Z.of_nat (String.length content) <= complexity (summary context))%Z
  /\ (19 <= String.length content ->
      In (relativePath (record file)) (highComplexityFiles (mc_files context)))
  /\ (99 <= String.length content ->
      exists taskId,
        In (refactorTask taskId context)
           (tasks (generateTaskBacklog context now))).
Proof.
  intros Hrun Hnodup Hin Hsource Hread Hparse. cbv zeta.
  destruct (analyzeFiles_accumulates P disk _ _ _ Hrun)
    as (_ & Hcx & _ & Hfa).
  cbn [initialAnalysis metrics totalComplexity fileAnalysis] in Hcx, Hfa.
  assert (Hanalysis : ar_complexity (analysisOf P disk file)
                      = calculateComplexity content).
  { unfold analysisOf, analyzeJavaScriptFile. rewrite Hread, Hparse.
    reflexivity. }
  pose proof (calculateComplexity_above_length content) as Hlength.
  assert (Htotal : (2 + Z.of_nat (String.length content)
                    <= totalComplexity (metrics st))%Z).
  { rewrite Hcx.
    pose proof (sumZ_member_bound ar_complexity
                  (sourceResults P disk inventoryFiles)
                  (analysisOf P disk file)) as Hbound.
    assert (ar_complexity (analysisOf P disk file)
            <= sumZ (map ar_complexity
                         (sourceResults P disk inventoryFiles)))%Z.
    { apply Hbound.
      - unfold sourceResults. intros x Hx. apply in_map_iff in Hx.
        destruct Hx as (f & <- & _). apply analysisOf_complexity_nonnegative.
      - unfold sourceResults. apply in_map, filter_In.
        split; assumption. }
    lia. }
  cbn [machineContextOf summary summaryOf complexity mc_files].
  split; [exact Htotal|]. split.
  - intro Hlong. unfold highComplexityFiles. apply filter_In.
    destruct (fold_objSet_entries (sourceEntries P disk inventoryFiles))
      as [Hkeys Hget].
    assert (Hentry : In (relativePath (record file), analysisOf P disk file)
                        (sourceEntries P disk inventoryFiles)).
    { unfold sourceEntries.
      apply (in_map (fun f => (relativePath (record f), analysisOf P disk f))),
            filter_In.
      split; assumption. }
    split.
    + rewrite Hfa, Hkeys. apply firstOccurrences_In.
      apply (in_map fst) in Hentry. exact Hentry.
    + rewrite Hfa, Hget.
      rewrite (objGet_In_unique _ _ (analysisOf P disk file)).
      * rewrite Hanalysis.
        apply andb_true_intro. split.
        -- apply negb_true_iff, Z.eqb_neq. lia.
        -- apply Z.ltb_lt. lia.
      * rewrite map_rev. apply NoDup_rev.
        unfold sourceEntries. rewrite map_map. cbn [fst].
        clear - Hnodup.
        induction inventoryFiles as [|f l IH]; cbn [filter map];
          [constructor|].
        cbn [map] in Hnodup. apply NoDup_cons_iff in Hnodup.
        destruct Hnodup as [Hfresh Hrest].
        destruct (isSourceFile f); [|apply IH, Hrest].
        cbn [map]. constructor; [|apply IH, Hrest].
        intro Hf. apply Hfresh. apply in_map_iff in Hf.
        destruct Hf as (g & Hg & Hing). apply filter_In in Hing.
        apply in_map_iff. exists g. split; [exact Hg | apply Hing].
      * apply in_rev. rewrite rev_involutive. exact Hentry.
  - intro Hlong. unfold generateTaskBacklog.
    cbn [summary machineContextOf summaryOf complexity sm_hasTests].
    assert (Habove : (100 <? totalComplexity (metrics st))%Z = true)
      by (apply Z.ltb_lt; lia).
    rewrite Habove.
    destruct (negb (hasTests (metrics st))); cbn [fst snd tasks].
    + exists 2%nat. apply in_or_app. right. left. reflexivity.
    + exists 1%nat. left. reflexivity.
Qed.

End KeptAnalyses.

Lemma fileAnalysis_of_pass_witness :
  objKeys (fileAnalysis MoreSamples.pass) = ["a.js"].
Proof.
  exact (proj1 (fileAnalysis_of_pass Sample.platform MoreSamples.withManifest
                  (files (makeInventory MoreSamples.found))
                  MoreSamples.pass eq_refl)).
Defined.

Lemma long_source_file_is_flagged_witness :
  exists st,
    analyzeFiles Sample.platform LongSample.disk initialAnalysis
      [LongSample.theFile] = Ok st
    /\ In "long.js" (highComplexityFiles (fileAnalysis st)).
Proof.
  destruct (analyzeFiles Sample.platform LongSample.disk initialAnalysis
              [LongSample.theFile]) as [st|e] eqn:Hrun;
    [|vm_compute in Hrun; discriminate].
  exists st. split; [reflexivity|].
  refine (proj1 (proj2 (long_source_file_is_flagged Sample.platform
                          LongSample.disk [LongSample.theFile] st
                          LongSample.theFile LongSample.text
                          "." (makeInventory []) 0%Z
                          Hrun _ (or_introl eq_refl) eq_refl eq_refl eq_refl))
                _).
  - repeat constructor. intros [].
  - vm_compute. repeat constructor.
Defined.

(** ** Lines, extensions and identifiers *)

(** The line count of a text is at least one, and the line count of
    two texts put end to end is one less than the sum of their line
    counts; so a text that ends with a line feed counts one line more
    than the text before the line feed. *)
Theorem countLines_append (a b : string) :
  1 <= countLines a
  /\ countLines (a ++ b) + 1 = countLines a + countLines b
  /\ countLines (a ++ String newline "") = S (countLines a).
Proof.
  assert (Hpos : forall s, 1 <= countLines s).
  { induction s as [|c s IH]; cbn [countLines]; [lia|].
    destruct (Ascii.eqb c newline); lia. }
  assert (Happ : forall x y,
             countLines (x ++ y) + 1 = countLines x + countLines y).
  { induction x as [|c x IH]; intro y; cbn [append countLines]; [lia|].
    specialize (IH y). destruct (Ascii.eqb c newline); lia. }
  split; [apply Hpos|]. split; [apply Happ|].
  specialize (Happ a (String newline "")).
  cbn [countLines] in Happ. rewrite Ascii.eqb_refl in Happ. lia.
Qed.

Lemma toLowerCase_source_extension (ext : string) :
  In ext SOURCE_EXTENSIONS -> toLowerCase ext = ext.
Proof.
  unfold SOURCE_EXTENSIONS. cbn [In].
  intros [<-|[<-|[<-|[<-|[<-|[<-|[<-|[]]]]]]]]; reflexivity.
Qed.

Lemma source_extension_supported (ext : string) :
  In ext SOURCE_EXTENSIONS -> In ext SUPPORTED_EXTENSIONS.
Proof.
  unfold SOURCE_EXTENSIONS, SUPPORTED_EXTENSIONS. cbn [In]. intuition.
Qed.

(** X20.  A file whose extension is a source extension up to letter
    case is always a text file, so it enters the inventory; it is
    analysed as a source file exactly when its extension is written
    in lower case. *)
Theorem source_extension_case (file : InventoryFile) :
  let ext := extname (path (record file)) in
  arrayIncludes SOURCE_EXTENSIONS (toLowerCase ext) = true ->
  isTextFile (path (record file)) = true
  /\ (isSourceFile file = true <-> toLowerCase ext = ext).
Proof.
  cbv zeta. intro Hext. apply (proj1 (arrayIncludes_In _ _)) in Hext.
  split.
  - unfold isTextFile. apply arrayIncludes_In, source_extension_supported, Hext.
  - unfold isSourceFile. rewrite arrayIncludes_In. split.
    + apply toLowerCase_source_extension.
    + intro Hlower. rewrite <- Hlower. exact Hext.
Qed.

Lemma source_extension_case_witness :
  isTextFile ["APP.JS"] = true
  /\ isSourceFile
       (inventoryFile {| path := ["APP.JS"]; relativePath := "APP.JS";
                         size := 0%Z; modified := 0%Z; hash := "" |})
     <> true.
Proof.
  destruct (source_extension_case
              (inventoryFile {| path := ["APP.JS"]; relativePath := "APP.JS";
                                size := 0%Z; modified := 0%Z; hash := "" |})
              eq_refl) as [Htext Hsource].
  split; [exact Htext|].
  intro H. apply (proj1 Hsource) in H. discriminate H.
Defined.

(** No file is both a source file and a config file: the two tests of
    the loop of the analysis exclude each other. *)
Theorem config_file_is_no_source (file : InventoryFile) :
  isConfigFile file = true -> isSourceFile file = false.
Proof.
  unfold isConfigFile, isSourceFile, extname.
  intro H. apply (proj1 (arrayIncludes_In _ _)) in H.
  unfold CONFIG_NAMES in H. cbn [In] in H.
  destruct H as [<-|[<-|[<-|[]]]]; reflexivity.
Qed.

Lemma config_file_is_no_source_witness :
  isSourceFile
    (inventoryFile {| path := ["package.json"];
                      relativePath := "package.json";
                      size := 0%Z; modified := 0%Z; hash := "" |})
  = false.
Proof.
  exact (config_file_is_no_source
           (inventoryFile {| path := ["package.json"];
                             relativePath := "package.json";
                             size := 0%Z; modified := 0%Z; hash := "" |})
           eq_refl).
Defined.

Lemma digit_value (n : nat) : nat_of_ascii (digit n) - 48 = n mod 10.
Proof.
  unfold digit. rewrite nat_ascii_embedding.
  - lia.
  - pose proof (Nat.mod_upper_bound n 10). lia.
Qed.

Lemma decimalValue_digitsFuel (fuel : nat) :
  forall n acc,
    n < fuel ->
    decimalValue (digitsFuel fuel n acc) 0 = decimalValue acc n.
Proof.
  induction fuel as [|fuel IH]; intros n acc Hfuel; [lia|].
  cbn [digitsFuel].
  destruct (Nat.ltb_spec n 10) as [Hsmall|Hlarge].
  - cbn [decimalValue]. rewrite digit_value, Nat.mod_small by exact Hsmall.
    reflexivity.
  - rewrite IH.
    + cbn [decimalValue]. rewrite digit_value. f_equal.
      pose proof (Nat.div_mod_eq n 10). lia.
    + pose proof (Nat.div_lt n 10). lia.
Qed.

Lemma decimalValue_zeros (k : nat) (s : string) :
  decimalValue (repeatChar "0" k ++ s) 0 = decimalValue s 0.
Proof.
  induction k as [|k IH]; cbn [repeatChar append decimalValue];
    [reflexivity | exact IH].
Qed.

Lemma taskIdentifier_number (n : nat) :
  match taskIdentifier n with
  | String _ (String _ digits) => decimalValue digits 0 = n
  | _ => False
  end.
Proof.
  unfold taskIdentifier, padStart. cbn [append].
  rewrite decimalValue_zeros. unfold ofNat.
  rewrite decimalValue_digitsFuel by lia. reflexivity.
Qed.

(** X22.  Task identifiers are the letter T, a dash and the decimal
    digits of the task number: distinct numbers give distinct
    identifiers, the digits read back as the number, and below one
    thousand the identifier has five code units. *)
Theorem taskIdentifier_injective :
  (forall n m, taskIdentifier n = taskIdentifier m -> n = m)
  /\ (forall n, exists digits,
         taskIdentifier n = ("T-" ++ digits)%string
         /\ decimalValue digits 0 = n)
  /\ (forall n, n < 1000 -> String.length (taskIdentifier n) = 5).
Proof.
  split; [|split].
  - intros n m Heq.
    pose proof (taskIdentifier_number n) as Hn.
    pose proof (taskIdentifier_number m) as Hm.
    rewrite Heq in Hn.
    destruct (taskIdentifier m) as [|c1 [|c2 digits]]; try contradiction.
    congruence.
  - intro n. pose proof (taskIdentifier_number n) as Hn.
    unfold taskIdentifier in *. cbn [append] in *.
    eexists. split; [reflexivity | exact Hn].
  - intros n Hn.
    assert (Hall : forallb
                     (fun k => Nat.eqb (String.length (taskIdentifier k)) 5)
                     (seq 0 1000) = true) by (vm_compute; reflexivity).
    rewrite forallb_forall in Hall.
    apply Nat.eqb_eq, Hall, in_seq. lia.
Qed.

(** ** The exported names *)

Section ExportFacts.
Import Detection.

Lemma isIdentifierStart_part (c : ascii) :
  isIdentifierStart c = true -> isIdentifierPart c = true.
Proof.
  unfold isIdentifierStart, isIdentifierPart.
  destruct (between 97 122 c), (between 65 90 c), (between 48 57 c);
    cbn; auto.
Qed.

Lemma isIdentifierStart_not_space (c : ascii) :
  isIdentifierStart c = true -> isSpace c = false.
Proof.
  destruct c as [[] [] [] [] [] [] [] []]; try discriminate; reflexivity.
Qed.

Lemma append_empty (s : string) : (s ++ "")%string = s.
Proof.
  induction s as [|c s IH]; cbn [append]; [reflexivity | rewrite IH; reflexivity].
Qed.

Lemma nameAfterSpaces_spec (s : string) (n : nat) (name : string) :
  nameAfterSpaces s = Some (n, name) ->
  exists spaces c tail rest,
    s = ((spaces ++ String c tail) ++ rest)%string
    /\ name = String c tail
    /\ n = String.length (spaces ++ String c tail)
    /\ spaces <> EmptyString
    /\ Forall (fun x => isSpace x = true) (list_ascii_of_string spaces)
    /\ isIdentifierStart c = true
    /\ Forall (fun x => isIdentifierPart x = true)
              (list_ascii_of_string tail).
Proof.
  unfold nameAfterSpaces.
  destruct (span isSpace s) as [spaces r] eqn:Hspaces.
  destruct (span_spec _ _ _ _ Hspaces) as (Hs & Hallspace & _).
  destruct spaces as [|sp spaces']; [discriminate|].
  destruct r as [|c r']; [discriminate|].
  destruct (isIdentifierStart c) eqn:Hc; [|discriminate].
  destruct (span isIdentifierPart r') as [tail rest] eqn:Htail.
  destruct (span_spec _ _ _ _ Htail) as (Hr' & Halltail & _).
  intro H. injection H as <- <-.
  exists (String sp spaces'), c, tail, rest.
  split; [subst; rewrite append_associative; reflexivity|].
  split; [reflexivity|].
  split; [rewrite length_append; cbn [String.length]; lia|].
  split; [discriminate|].
  repeat split; assumption.
Qed.

Lemma nameAfterSpaces_on_match (s : string) (n : nat) (name : string) :
  nameAfterSpaces s = Some (n, name) ->
  nameAfterSpaces (substring 0 n s) = Some (n, name).
Proof.
  intro H.
  destruct (nameAfterSpaces_spec _ _ _ H)
    as (spaces & c & tail & rest & -> & -> & -> & Hne & Hallspace & Hc
        & Halltail).
  rewrite substring_prefix. unfold nameAfterSpaces.
  rewrite (span_app isSpace spaces (String c tail) Hallspace
             (isIdentifierStart_not_space _ Hc)).
  destruct spaces as [|sp spaces']; [contradiction|].
  rewrite Hc.
  rewrite <- (append_empty tail) at 1.
  rewrite (span_app isIdentifierPart tail "" Halltail I).
  rewrite length_append. cbn [String.length]. do 2 f_equal. lia.
Qed.

Lemma substring_after_prefix (a b : string) (n : nat) :
  substring 0 (String.length a + n) (a ++ b) = (a ++ substring 0 n b)%string.
Proof.
  induction a as [|c a IH]; cbn [String.length append Nat.add substring].
  - reflexivity.
  - rewrite IH. reflexivity.
Qed.

Lemma declarationOf_on_match (keywords : list string) (s : string) (n : nat)
    (name : string) :
  declarationOf keywords s = Some (n, name) ->
  declarationOf keywords (substring 0 n s) <> None.
Proof.
  induction keywords as [|keyword rest IH]; cbn [declarationOf];
    [discriminate|].
  intro H.
  assert (Hrest : declarationOf rest s = Some (n, name) ->
                  match dropPrefix keyword (substring 0 n s) with
                  | Some r =>
                      match nameAfterSpaces r with
                      | Some (n0, name0) =>
                          Some (String.length keyword + n0, name0)
                      | None => declarationOf rest (substring 0 n s)
                      end
                  | None => declarationOf rest (substring 0 n s)
                  end <> None).
  { intro Hr. specialize (IH Hr).
    destruct (dropPrefix keyword (substring 0 n s)) as [r|]; [|exact IH].
    destruct (nameAfterSpaces r) as [[n0 name0]|]; [discriminate | exact IH]. }
  destruct (dropPrefix keyword s) as [r|] eqn:Hdrop; [|exact (Hrest H)].
  destruct (nameAfterSpaces r) as [[n0 name0]|] eqn:Hname; [|exact (Hrest H)].
  injection H as <- <-.
  apply dropPrefix_app in Hdrop. subst s.
  rewrite substring_after_prefix, dropPrefix_complete.
  rewrite (nameAfterSpaces_on_match _ _ _ Hname). discriminate.
Qed.

Lemma matchDeclaration_found (s : string) :
  declaration s <> None -> matchDeclaration s <> None.
Proof.
  intro H. destruct s as [|c s]; cbn [matchDeclaration];
    destruct (declaration _) as [[n name]|]; try discriminate;
    contradiction.
Qed.

Lemma matchDeclaration_skips (prefix s : string) :
  matchDeclaration s <> None -> matchDeclaration (prefix ++ s) <> None.
Proof.
  intro H. induction prefix as [|c prefix IH]; [exact H|].
  cbn [append matchDeclaration].
  destruct (declaration (String c (prefix ++ s))) as [[n name]|];
    [discriminate | exact IH].
Qed.

Lemma declaration_captures (prefix s : string) (d : nat * string) :
  declaration s = Some d ->
  matchDeclaration
    (substring 0 (String.length prefix + fst d) (prefix ++ s)) <> None.
Proof.
  destruct d as [n name]. intro H. cbn [fst].
  rewrite substring_after_prefix.
  apply matchDeclaration_skips, matchDeclaration_found.
  apply (declarationOf_on_match _ _ _ _ H).
Qed.

Lemma span_length (p : ascii -> bool) (s a b : string) :
  span p s = (a, b) -> s = (a ++ b)%string.
Proof.
  intro H. apply (span_spec _ _ _ _ H).
Qed.

Lemma declaration_captures_at (whole prefix s : string) (d : nat * string)
    (n : nat) :
  whole = (prefix ++ s)%string ->
  declaration s = Some d ->
  n = String.length prefix + fst d ->
  matchDeclaration (substring 0 n whole) <> None.
Proof.
  intros -> Hd ->. apply declaration_captures, Hd.
Qed.

Lemma exportPattern_captures (prevWord : bool) (s : string) (n : nat) :
  exportPattern prevWord s = Some n ->
  matchDeclaration (substring 0 n s) <> None.
Proof.
  unfold exportPattern.
  destruct (dropPrefix "export" s) as [r0|] eqn:Hexport; [|discriminate].
  apply dropPrefix_app in Hexport.
  destruct (span isSpace r0) as [spaces r1] eqn:Hspaces.
  apply span_length in Hspaces.
  destruct spaces as [|sp spaces']; [discriminate|].
  assert (Hplain : forall d,
             declaration r1 = Some d ->
             Some (6 + String.length (String sp spaces') + fst d) = Some n ->
             matchDeclaration (substring 0 n s) <> None).
  { intros d Hd Hn. injection Hn as Hn.
    apply (declaration_captures_at _ ("export" ++ String sp spaces') r1 d).
    - subst s r0. rewrite append_associative. reflexivity.
    - exact Hd.
    - rewrite <- Hn, length_append. reflexivity. }
  destruct (dropPrefix "default" r1) as [r2|] eqn:Hdefault.
  - apply dropPrefix_app in Hdefault.
    destruct (span isSpace r2) as [spaces2 r3] eqn:Hspaces2.
    apply span_length in Hspaces2.
    destruct spaces2 as [|sp2 spaces2'].
    + destruct (declaration r1) as [d|] eqn:Hd; [|discriminate].
      apply (Hplain d eq_refl).
    + destruct (declaration r3) as [d|] eqn:Hd; cbn [option_map].
      * intro Hn. injection Hn as Hn.
        apply (declaration_captures_at _
                 ("export" ++ String sp spaces' ++ "default"
                  ++ String sp2 spaces2') r3 d).
        -- subst s r0 r1 r2. rewrite !append_associative. reflexivity.
        -- exact Hd.
        -- rewrite <- Hn, !length_append. cbn [String.length]. lia.
      * destruct (declaration r1) as [d|] eqn:Hd1; [|discriminate].
        apply (Hplain d eq_refl).
  - destruct (declaration r1) as [d|] eqn:Hd; [|discriminate].
    apply (Hplain d eq_refl).
Qed.

Lemma scanG_exportPattern_captures (s : string) :
  forall prevWord skip,
    Forall (fun exp => matchDeclaration exp <> None)
           (scanG exportPattern prevWord skip s).
Proof.
  induction s as [|c s IH]; intros prevWord skip.
  - destruct skip; cbn [scanG]; [|constructor].
    destruct (exportPattern prevWord "") as [n|] eqn:Hm; [|constructor].
    discriminate Hm.
  - destruct skip as [|k]; cbn [scanG]; [|apply IH].
    destruct (exportPattern prevWord (String c s)) as [n|] eqn:Hm;
      [|apply IH].
    constructor; [|apply IH].
    apply (exportPattern_captures _ _ _ Hm).
Qed.

Lemma declarationOf_name (keywords : list string) (s : string) (n : nat)
    (name : string) :
  declarationOf keywords s = Some (n, name) ->
  exists c tail,
    name = String c tail
    /\ isIdentifierStart c = true
    /\ Forall (fun x => isIdentifierPart x = true)
              (list_ascii_of_string tail).
Proof.
  induction keywords as [|keyword rest IH]; cbn [declarationOf];
    [discriminate|].
  destruct (dropPrefix keyword s) as [r|]; [|exact IH].
  destruct (nameAfterSpaces r) as [[n0 name0]|] eqn:Hname; [|exact IH].
  intro H. injection H as <- <-.
  destruct (nameAfterSpaces_spec _ _ _ Hname)
    as (? & c & tail & ? & _ & -> & _ & _ & _ & Hc & Htail).
  exists c, tail. repeat split; assumption.
Qed.

Lemma matchDeclaration_name (exp name : string) :
  matchDeclaration exp = Some name ->
  exists c tail,
    name = String c tail
    /\ isIdentifierStart c = true
    /\ Forall (fun x => isIdentifierPart x = true)
              (list_ascii_of_string tail).
Proof.
  induction exp as [|c exp IH]; cbn [matchDeclaration].
  - destruct (declaration "") as [[n nm]|] eqn:Hd; [|discriminate].
    discriminate Hd.
  - destruct (declaration (String c exp)) as [[n nm]|] eqn:Hd; [|exact IH].
    intro H. injection H as ->.
    apply (declarationOf_name _ _ _ _ Hd).
Qed.

(** X23.  Every text matched as an export declaration yields exactly
    one exported name, and every exported name is an identifier: a
    letter, an underscore or a dollar sign, followed by letters,
    digits, underscores and dollar signs. *)
Theorem extractExports_identifiers (content : string) :
  List.length (extractExports content)
  = List.length (exportMatches content)
  /\ Forall (fun name =>
               exists c tail,
                 name = String c tail
                 /\ isIdentifierStart c = true
                 /\ Forall (fun x => isIdentifierPart x = true)
                           (list_ascii_of_string tail))
            (extractExports content).
Proof.
  unfold extractExports.
  assert (Hall : Forall (fun exp => matchDeclaration exp <> None)
                        (exportMatches content)).
  { unfold exportMatches, matchG.
    pose proof (scanG_exportPattern_captures content false 0) as H.
    destruct (scanG exportPattern false 0 content); [constructor | exact H]. }
  induction (exportMatches content) as [|exp l IH]; cbn [flat_map].
  - split; [reflexivity | constructor].
  - inversion Hall as [|? ? Hexp Hrest]; subst.
    destruct (IH Hrest) as [Hlen Hnames].
    destruct (matchDeclaration exp) as [name|] eqn:Hcap; [|contradiction].
    cbn [app List.length]. split; [f_equal; exact Hlen|].
    constructor; [|exact Hnames].
    apply (matchDeclaration_name _ _ Hcap).
Qed.

End ExportFacts.

(** ** Imports and framework labels *)

Section FrameworkFacts.
Import Detection.

Lemma substring_is_prefix (n : nat) (s : string) :
  exists b, s = (substring 0 n s ++ b)%string.
Proof.
  revert n. induction s as [|c s IH]; intro n.
  - exists "". destruct n; reflexivity.
  - destruct n as [|n]; cbn [substring].
    + exists (String c s). reflexivity.
    + destruct (IH n) as [b Hb]. exists b. cbn [append]. f_equal. exact Hb.
Qed.

(** The texts a global scan returns are pieces of the text scanned. *)
Lemma scanG_pieces (m : matcher) (s : string) :
  forall prevWord skip piece,
    In piece (scanG m prevWord skip s) ->
    exists a b, s = (a ++ piece ++ b)%string.
Proof.
  induction s as [|c s IH]; intros prevWord skip piece Hin.
  - destruct skip; cbn [scanG] in Hin; [|contradiction].
    destruct (m prevWord "") as [n|]; [|contradiction].
    destruct Hin as [<-|[]]. exists "". apply substring_is_prefix.
  - assert (Hrest : forall pw k,
               In piece (scanG m pw k s) ->
               exists a b, String c s = (a ++ piece ++ b)%string).
    { intros pw k H. destruct (IH pw k piece H) as (a & b & Hs).
      exists (String c a), b. cbn [append]. f_equal. exact Hs. }
    destruct skip as [|k]; cbn [scanG] in Hin; [|apply (Hrest _ _ Hin)].
    destruct (m prevWord (String c s)) as [n|]; [|apply (Hrest _ _ Hin)].
    destruct Hin as [<-|Hin]; [|apply (Hrest _ _ Hin)].
    exists "". apply substring_is_prefix.
Qed.

Lemma matchFromCapture_occurrence (imp specifier : string) :
  matchFromCapture imp = Some specifier ->
  exists before clause n,
    imp = (before ++ clause)%string
    /\ fromClause clause = Some (n, specifier).
Proof.
  induction imp as [|c imp IH]; cbn [matchFromCapture].
  - destruct (fromClause "") as [[n sp]|] eqn:Hfrom; [|discriminate].
    discriminate Hfrom.
  - destruct (fromClause (String c imp)) as [[n sp]|] eqn:Hfrom.
    + intro H. injection H as ->.
      exists "", (String c imp), n. split; [reflexivity | exact Hfrom].
    + intro H. destruct (IH H) as (before & clause & n & -> & Hclause).
      exists (String c before), clause, n.
      split; [reflexivity | exact Hclause].
Qed.

Lemma fromClause_fromQuoted (clause : string) (n : nat) (name after : string) :
  fromClause clause = Some (n, name) ->
  fromQuoted name (clause ++ after) = true.
Proof.
  intro H.
  destruct (fromClause_spec _ _ _ H)
    as (spaces & q1 & q2 & rest & -> & Hne & Hallspace & Hq1 & Hq2 & _).
  unfold fromQuoted.
  replace (("from" ++ spaces ++ String q1 (name ++ String q2 rest)) ++ after)
    %string
    with ("from" ++ spaces
          ++ String q1 (name ++ String q2 (rest ++ after)))%string.
  - rewrite dropPrefix_complete.
    rewrite (span_app isSpace spaces
               (String q1 (name ++ String q2 (rest ++ after))) Hallspace
               (isQuote_not_space _ Hq1)).
    destruct spaces as [|sp spaces']; [contradiction|].
    rewrite Hq1, dropPrefix_complete, Hq2. reflexivity.
  - cbn [append]. do 4 f_equal.
    rewrite append_associative. cbn [append]. do 2 f_equal.
    rewrite append_associative. reflexivity.
Qed.

Lemma existsSuffix_app (f : string -> bool) (a u : string) :
  f u = true -> existsSuffix f (a ++ u) = true.
Proof.
  intro H. induction a as [|c a IH]; cbn [append].
  - destruct u; cbn [existsSuffix]; rewrite H; reflexivity.
  - cbn [existsSuffix]. rewrite IH. apply orb_true_r.
Qed.

Lemma test_alternative (alternatives : list (string -> bool))
    (alternative : string -> bool) (a u : string) :
  In alternative alternatives ->
  alternative u = true ->
  test alternatives (a ++ u) = true.
Proof.
  intros Hin Hu. unfold test. apply existsSuffix_app.
  apply existsb_exists. exists alternative. split; assumption.
Qed.

(** A specifier among the imports stands in the content inside a
    [from] clause. *)
Lemma extractImports_occurrence (content name : string) :
  In name (extractImports content) ->
  exists before after,
    fromQuoted name after = true
    /\ content = (before ++ after)%string.
Proof.
  unfold extractImports. intro Hin. apply in_flat_map in Hin.
  destruct Hin as (imp & Himp & Hname).
  destruct (matchFromCapture imp) as [specifier|] eqn:Hcap; [|contradiction].
  destruct Hname as [->|[]].
  unfold importMatches, matchG in Himp.
  assert (Hpiece : In imp (scanG importPattern false 0 content)).
  { destruct (scanG importPattern false 0 content); [contradiction|].
    exact Himp. }
  destruct (scanG_pieces _ _ _ _ _ Hpiece) as (a & b & Hcontent).
  destruct (matchFromCapture_occurrence _ _ Hcap)
    as (before & clause & n & -> & Hclause).
  exists (a ++ before)%string, (clause ++ b)%string. split.
  - apply (fromClause_fromQuoted _ _ _ _ Hclause).
  - rewrite Hcontent, !append_associative. reflexivity.
Qed.

(** X24.  A file among whose extracted imports is the specifier
    [react], [vue] or [express] is labelled with the framework React,
    Vue or Express. *)
Theorem imported_framework_is_detected (content name label : string) :
  In (name, label) [("react", "React"); ("vue", "Vue");
                    ("express", "Express")] ->
  In name (extractImports content) ->
  In label (detectFrameworks content).
Proof.
  intros Hpair Hin.
  destruct (extractImports_occurrence _ _ Hin)
    as (before & after & Hquoted & ->).
  unfold detectFrameworks.
  assert (Hentry : forall alternatives,
             In (label, alternatives) frameworkPatterns ->
             In (fromQuoted name) alternatives ->
             In label
                (map fst
                   (filter (fun entry => test (snd entry) (before ++ after))
                           frameworkPatterns))).
  { intros alternatives Hpatterns Halt.
    apply in_map_iff. exists (label, alternatives).
    split; [reflexivity|]. apply filter_In. split; [exact Hpatterns|].
    cbn [snd]. apply (test_alternative _ (fromQuoted name)); assumption. }
  cbn [In] in Hpair.
  destruct Hpair as [Heq|[Heq|[Heq|[]]]]; injection Heq as <- <-.
  - eapply Hentry; [left; reflexivity|]. right. left. reflexivity.
  - eapply Hentry; [right; left; reflexivity|]. right. left. reflexivity.
  - eapply Hentry; [do 5 right; left; reflexivity|]. right. left. reflexivity.
Qed.

End FrameworkFacts.

Lemma imported_framework_is_detected_witness :
  In "React" (Detection.detectFrameworks "import R from 'react';").
Proof.
  apply (imported_framework_is_detected _ "react").
  - left. reflexivity.
  - vm_compute. left. reflexivity.
Defined.

(** ** The prompt of the work command *)

Section ComposerFacts.
Import Composer.
Variable H : Host.

Lemma fileSections_throws (baseDir : string) (files : list string)
    (e : string) :
  fileSections H baseDir files = Throw e
  <-> exists before file after,
        files = before ++ file :: after
        /\ (forall f, In f before ->
                      fileExists H (joinPath H baseDir f) = true ->
                      exists content,
                        readText H (joinPath H baseDir f) = Ok content)
        /\ fileExists H (joinPath H baseDir file) = true
        /\ readText H (joinPath H baseDir file) = Throw e.
Proof.
  induction files as [|f files IH]; cbn [fileSections].
  - split; [discriminate|].
    intros (before & file & after & Heq & _).
    destruct before; discriminate Heq.
  - unfold fileSection at 1.
    destruct (fileExists H (joinPath H baseDir f)) eqn:Hexists.
    + destruct (readText H (joinPath H baseDir f)) as [content|e'] eqn:Hread;
        cbn [bindR].
      * split.
        -- intro Hthrow.
           destruct (fileSections H baseDir files) as [l|e''] eqn:Hrest;
             cbn [bindR] in Hthrow; [discriminate|].
           injection Hthrow as ->.
           destruct (proj1 IH eq_refl)
             as (before & file & after & -> & Hbefore & Hex & Hrd).
           exists (f :: before), file, after.
           split; [reflexivity|]. split; [|split; assumption].
           intros g [<-|Hg] Hgex; [exists content; exact Hread|].
           apply Hbefore; assumption.
        -- intros (before & file & after & Heq & Hbefore & Hex & Hrd).
           destruct before as [|b before]; cbn [app] in Heq;
             injection Heq as -> ->.
           ++ rewrite Hrd in Hread. discriminate.
           ++ assert (Hrest : fileSections H baseDir (before ++ file :: after)
                              = Throw e).
              { apply IH. exists before, file, after.
                split; [reflexivity|]. split; [|split; assumption].
                intros g Hg. apply Hbefore. right. exact Hg. }
              rewrite Hrest. reflexivity.
      * split.
        -- intro Hthrow. injection Hthrow as ->.
           exists [], f, files. split; [reflexivity|].
           split; [intros g []|]. split; assumption.
        -- intros (before & file & after & Heq & Hbefore & Hex & Hrd).
           destruct before as [|b before]; cbn [app] in Heq;
             injection Heq as -> ->.
           ++ rewrite Hrd in Hread. injection Hread as ->. reflexivity.
           ++ destruct (Hbefore b (or_introl eq_refl) Hexists) as [c Hc].
              rewrite Hc in Hread. discriminate.
    + cbn [bindR]. split.
      * intro Hthrow.
        destruct (fileSections H baseDir files) as [l|e''] eqn:Hrest;
          cbn [bindR] in Hthrow; [discriminate|].
        injection Hthrow as ->.
        destruct (proj1 IH eq_refl)
          as (before & file & after & -> & Hbefore & Hex & Hrd).
        exists (f :: before), file, after.
        split; [reflexivity|]. split; [|split; assumption].
        intros g [<-|Hg] Hgex; [congruence|].
        apply Hbefore; assumption.
      * intros (before & file & after & Heq & Hbefore & Hex & Hrd).
        destruct before as [|b before]; cbn [app] in Heq;
          injection Heq as -> ->.
        -- congruence.
        -- assert (Hrest : fileSections H baseDir (before ++ file :: after)
                           = Throw e).
           { apply IH. exists before, file, after.
             split; [reflexivity|]. split; [|split; assumption].
             intros g Hg. apply Hbefore. right. exact Hg. }
           rewrite Hrest. reflexivity.
Qed.

(** X25.  Composing the prompt of a task fails exactly when one of
    the files the task names exists below the project path and cannot
    be read; the error is that of the first such file.  A file that
    does not exist never makes it fail. *)
Theorem enhancedPrompt_throws (context : option MachineContext) (task : Task)
    (e : string) :
  enhancedPrompt H context task = Throw e
  <-> exists before file after,
        sourceFiles task = before ++ file :: after
        /\ (forall f, In f before ->
                      fileExists H (joinPath H (baseDirOf H context) f) = true ->
                      exists content,
                        readText H (joinPath H (baseDirOf H context) f)
                        = Ok content)
        /\ fileExists H (joinPath H (baseDirOf H context) file) = true
        /\ readText H (joinPath H (baseDirOf H context) file) = Throw e.
Proof.
  rewrite <- fileSections_throws.
  unfold enhancedPrompt, sourceContext.
  destruct (sourceFiles task) as [|f files]; cbn [bindR].
  - cbn [fileSections]. split; discriminate.
  - destruct (fileSections H (baseDirOf H context) (f :: files)) as [l|e'];
      cbn [bindR]; split; intro Heq; try discriminate;
      injection Heq as ->; reflexivity.
Qed.

Lemma fileSections_missing (baseDir : string) (files : list string) :
  (forall f, In f files -> fileExists H (joinPath H baseDir f) = false) ->
  fileSections H baseDir files
  = Ok (map (fun f => "### " ++ f ++ " (Not Found)")%string files).
Proof.
  induction files as [|f files IH]; intro Hmissing; [reflexivity|].
  cbn [fileSections map]. unfold fileSection.
  rewrite (Hmissing f (or_introl eq_refl)). cbn [bindR].
  rewrite IH; [reflexivity|].
  intros g Hg. apply Hmissing. right. exact Hg.
Qed.

(** X26.  When none of the files a task names exists below the
    project path, the source part of the prompt is one heading for
    each file, marked as not found, in the order of the task and
    separated by an empty line. *)
Theorem missing_files_are_marked (context : option MachineContext)
    (task : Task) :
  (forall f, In f (sourceFiles task) ->
             fileExists H (joinPath H (baseDirOf H context) f) = false) ->
  sourceContext H context task
  = Ok (join (lf ++ lf)%string
             (map (fun f => "### " ++ f ++ " (Not Found)")%string
                  (sourceFiles task))).
Proof.
  intro Hmissing. unfold sourceContext.
  destruct (sourceFiles task) as [|f files] eqn:Hfiles; [reflexivity|].
  rewrite (fileSections_missing _ _ Hmissing). reflexivity.
Qed.

Lemma fileSection_heading (baseDir file section : string) :
  fileSection H baseDir file = Ok section ->
  exists rest, section = ("###" ++ rest)%string.
Proof.
  unfold fileSection.
  destruct (fileExists H (joinPath H baseDir file)).
  - destruct (readText H (joinPath H baseDir file)) as [content|e];
      cbn [bindR]; [|discriminate].
    intro Heq. injection Heq as <-. eexists. reflexivity.
  - intro Heq. injection Heq as <-. eexists. reflexivity.
Qed.

(** X27.  The source part of the prompt is empty, so that the prompt
    says that no source files are specified, exactly when the task
    names no file. *)
Theorem sourceContext_empty (context : option MachineContext) (task : Task) :
  sourceContext H context task = Ok "" <-> sourceFiles task = [].
Proof.
  unfold sourceContext.
  destruct (sourceFiles task) as [|f files]; [split; reflexivity|].
  split; [|discriminate].
  cbn [fileSections].
  destruct (fileSection H (baseDirOf H context) f) as [section|e] eqn:Hsection;
    cbn [bindR]; [|discriminate].
  destruct (fileSection_heading _ _ _ Hsection) as [rest ->].
  destruct (fileSections H (baseDirOf H context) files) as [sections|e];
    cbn [bindR]; [|discriminate].
  destruct sections; discriminate.
Qed.

End ComposerFacts.

Lemma missing_files_are_marked_witness :
  Composer.sourceContext Composer.emptyHost None (testingTask 1)
  = Ok "### package.json (Not Found)".
Proof.
  exact (missing_files_are_marked Composer.emptyHost None (testingTask 1)
           (fun f _ => eq_refl)).
Defined.

(** ** The build script *)

Lemma startsWith_shebang (content : string) :
  startsWith Build.shebang
    ((Build.shebang ++ String newline (String newline "")) ++ content)
  = true.
Proof.
  reflexivity.
Qed.

(** X28.  The text the build script leaves in the entry file starts
    with the shebang line and ends with the text the file had; a text
    that starts with the shebang line is left as it is, so building
    twice gives what building once gives. *)
Theorem withShebang_idempotent (content : string) :
  startsWith Build.shebang (Build.withShebang content) = true
  /\ (exists added, Build.withShebang content = (added ++ content)%string)
  /\ (Build.withShebang content = content
      <-> startsWith Build.shebang content = true)
  /\ Build.withShebang (Build.withShebang content)
     = Build.withShebang content.
Proof.
  assert (Hstarts : startsWith Build.shebang (Build.withShebang content)
                    = true).
  { unfold Build.withShebang.
    destruct (startsWith Build.shebang content) eqn:Hs; cbn [negb];
      [exact Hs | apply startsWith_shebang]. }
  split; [exact Hstarts|]. split; [|split].
  - unfold Build.withShebang.
    destruct (startsWith Build.shebang content); cbn [negb].
    + exists "". reflexivity.
    + eexists. reflexivity.
  - split.
    + intro Heq. rewrite <- Heq. exact Hstarts.
    + intro Hs. unfold Build.withShebang. rewrite Hs. reflexivity.
  - unfold Build.withShebang at 1. rewrite Hstarts. reflexivity.
Qed.

(** ** The analysis summary *)

Section ReportFacts.
Import Report.

Lemma insertByCount_Permutation (x : string * Z) (l : list (string * Z)) :
  Permutation (insertByCount x l) (x :: l).
Proof.
  induction l as [|y l IH]; cbn [insertByCount]; [reflexivity|].
  destruct (snd x <? snd y)%Z; [|reflexivity].
  rewrite IH. apply perm_swap.
Qed.

Lemma insertByCount_sorted (x : string * Z) (l : list (string * Z)) :
  StronglySorted (fun a b => (snd b <= snd a)%Z) l ->
  StronglySorted (fun a b => (snd b <= snd a)%Z) (insertByCount x l).
Proof.
  induction l as [|y l IH]; intro Hsorted; cbn [insertByCount].
  - repeat constructor.
  - inversion Hsorted as [|? ? Hl Hy]; subst.
    destruct (Z.ltb_spec (snd x) (snd y)) as [Hlt|Hge].
    + constructor; [apply IH, Hl|].
      apply Forall_forall. intros z Hz.
      apply (Permutation_in _ (insertByCount_Permutation x l)) in Hz.
      destruct Hz as [<-|Hz]; [lia|].
      rewrite Forall_forall in Hy. apply Hy, Hz.
    + constructor; [exact Hsorted|].
      constructor; [exact Hge|].
      apply Forall_forall. intros z Hz.
      rewrite Forall_forall in Hy. specialize (Hy z Hz). lia.
Qed.

Lemma insertByCount_stable (c : Z) (x : string * Z) (l : list (string * Z)) :
  filter (fun e => (snd e =? c)%Z) (insertByCount x l)
  = filter (fun e => (snd e =? c)%Z) (x :: l).
Proof.
  induction l as [|y l IH]; cbn [insertByCount]; [reflexivity|].
  destruct (Z.ltb_spec (snd x) (snd y)) as [Hlt|Hge]; [|reflexivity].
  cbn [filter] in *. rewrite IH.
  destruct (Z.eqb_spec (snd x) c) as [Hx|Hx];
    destruct (Z.eqb_spec (snd y) c) as [Hy|Hy]; try reflexivity.
  lia.
Qed.

(** X29.  The file types of the report are those of the inventory,
    each once, by falling number of files, and file types of equal
    number keep the order they have in the inventory. *)
Theorem sortByCount_stable_descending (l : list (string * Z)) :
  Permutation (sortByCount l) l
  /\ StronglySorted (fun a b => (snd b <= snd a)%Z) (sortByCount l)
  /\ forall c,
       filter (fun e => (snd e =? c)%Z) (sortByCount l)
       = filter (fun e => (snd e =? c)%Z) l.
Proof.
  unfold sortByCount.
  induction l as [|x l (Hperm & Hsorted & Hstable)]; cbn [fold_right].
  - repeat split; constructor.
  - split; [|split].
    + rewrite insertByCount_Permutation. constructor. exact Hperm.
    + apply insertByCount_sorted, Hsorted.
    + intro c. rewrite insertByCount_stable. cbn [filter].
      rewrite Hstable. reflexivity.
Qed.

Lemma highComplexityFiles_entries (whole l : list (string * AnalysisResult)) :
  (forall e, In e l -> objGet whole (fst e) = Some (snd e)) ->
  filter
    (fun f =>
       match objGet whole f with
       | Some a => negb (ar_complexity a =? 0)%Z && (20 <? ar_complexity a)%Z
       | None => false
       end)
    (map fst l)
  = map fst (filter (fun entry => isHighComplexity (snd entry)) l).
Proof.
  induction l as [|e l IH]; intro Hget; [reflexivity|].
  cbn [map filter]. rewrite (Hget e (or_introl eq_refl)).
  fold (isHighComplexity (snd e)).
  rewrite IH by (intros e' He'; apply Hget; right; exact He').
  destruct (isHighComplexity (snd e)); reflexivity.
Qed.

Lemma highComplexityCount_files (analysis : list (string * AnalysisResult)) :
  NoDup (objKeys analysis) ->
  highComplexityCount analysis = List.length (highComplexityFiles analysis).
Proof.
  intro Hnodup. unfold highComplexityCount, highComplexityFiles, objKeys.
  rewrite (highComplexityFiles_entries analysis analysis).
  - rewrite length_map. reflexivity.
  - intros [k v] Hin. apply objGet_In_unique; assumption.
Qed.

Variable P : Platform.
Variable disk : Disk.

(** X30.  After a pass, the number of files of high complexity that
    the report gives is the number of source files that the
    refactoring task of the backlog lists. *)
Theorem report_counts_refactor_files (inventoryFiles : list InventoryFile)
    (st : Analysis) (baseDir : string) (codeInventory : CodeInventory)
    (now : Date) (taskId : nat) :
  analyzeFiles P disk initialAnalysis inventoryFiles = Ok st ->
  highComplexityCount (fileAnalysis st)
  = List.length
      (sourceFiles
         (refactorTask taskId
            (machineContextOf baseDir codeInventory st now))).
Proof.
  intro Hrun. cbn [refactorTask sourceFiles machineContextOf mc_files].
  apply highComplexityCount_files.
  destruct (analyzeFiles_accumulates P disk _ _ _ Hrun) as (_ & _ & _ & Hfa).
  cbn [initialAnalysis fileAnalysis] in Hfa. rewrite Hfa.
  rewrite (proj1 (fold_objSet_entries _)).
  apply firstOccurrences_NoDup.
Qed.

End ReportFacts.

Lemma report_counts_refactor_files_witness :
  exists st,
    analyzeFiles Sample.platform LongSample.disk initialAnalysis
      [LongSample.theFile] = Ok st
    /\ Report.highComplexityCount (fileAnalysis st) = 1.
Proof.
  destruct (analyzeFiles Sample.platform LongSample.disk initialAnalysis
              [LongSample.theFile]) as [st|e] eqn:Hrun;
    [|vm_compute in Hrun; discriminate].
  exists st. split; [reflexivity|].
  rewrite (report_counts_refactor_files Sample.platform LongSample.disk
             [LongSample.theFile] st "." (makeInventory []) 0%Z 2 Hrun).
  vm_compute in Hrun. injection Hrun as <-. reflexivity.
Defined.

(** ** The ignore fragments of the analyze command *)

Lemma ignored_app (a b : list string) (name : string) :
  ignored (a ++ b) name = ignored a name || ignored b name.
Proof.
  unfold ignored. apply existsb_app.
Qed.

Lemma Found_fewer (ps qs : list string) (p : Path) (n : Node)
    (f : FileRecord) :
  (forall name, ignored qs name = false -> ignored ps name = false) ->
  Found qs p n f -> Found ps p n f.
Proof.
  intros Hless H. induction H as [p d Htext Hacc|p entries item child f Hin Hign _ IH].
  - apply Found_file; assumption.
  - apply (Found_item ps p entries item child f Hin (Hless _ Hign) IH).
Qed.

Lemma Unreadable_fewer (ps qs : list string) (p : Path) (n : Node) :
  (forall name, ignored qs name = false -> ignored ps name = false) ->
  Unreadable qs p n -> Unreadable ps p n.
Proof.
  intros Hless H. induction H as [p d Htext Hacc|p entries item child Hin Hign _ IH].
  - apply Unreadable_file; assumption.
  - apply (Unreadable_item ps p entries item child Hin (Hless _ Hign) IH).
Qed.

Lemma Found_restrict (ps qs : list string) (p : Path) (n : Node)
    (f : FileRecord) :
  Found ps p n f ->
  forall suffix,
    path f = p ++ suffix ->
    Forall (fun name => ignored qs name = false) suffix ->
    Found qs p n f.
Proof.
  intro H. induction H as [p d Htext Hacc|p entries item child f Hin Hign Hsub IH];
    intros suffix Hpath Hall.
  - apply Found_file; assumption.
  - destruct (Found_prefix _ _ _ _ Hsub) as (rest & Hrest & _).
    unfold pathJoin in Hrest. rewrite <- app_assoc in Hrest.
    rewrite Hrest in Hpath. apply app_inv_head in Hpath.
    cbn [app] in Hpath. subst suffix.
    inversion Hall as [|? ? Hitem Hothers]; subst.
    apply (Found_item qs p entries item child f Hin Hitem).
    apply (IH rest); [|exact Hothers].
    rewrite Hrest. unfold pathJoin. rewrite <- app_assoc. reflexivity.
Qed.

(** Ignoring the fragments [extra] besides those of [ps] removes from
    the records the ones with a name that holds a fragment of
    [extra], and nothing else. *)
Lemma traverse_restricted (ps qs extra : list string) (n : Node)
    (found : list FileRecord) :
  (forall name, ignored qs name = ignored extra name || ignored ps name) ->
  traverse ps [] n = Ok found ->
  exists kept,
    traverse qs [] n = Ok kept
    /\ forall f,
         In f kept
         <-> In f found
             /\ Forall (fun name => ignored extra name = false) (path f).
Proof.
  intros Hboth Hrun.
  assert (Hless : forall name,
             ignored qs name = false -> ignored ps name = false).
  { intros name Hq. rewrite Hboth in Hq. apply orb_false_iff in Hq.
    apply Hq. }
  pose proof (traverse_characterised ps n []) as Hps.
  rewrite Hrun in Hps. destruct Hps as [Hfound Hreadable].
  pose proof (traverse_characterised qs n []) as Hqs.
  destruct (traverse qs [] n) as [kept|e].
  - destruct Hqs as [Hkept _]. exists kept. split; [reflexivity|].
    intro f. rewrite Hkept, Hfound. split.
    + intro Hq. split; [apply (Found_fewer ps qs _ _ _ Hless Hq)|].
      destruct (Found_prefix _ _ _ _ Hq) as (suffix & Hpath & Hall & _).
      cbn [app] in Hpath. rewrite Hpath.
      apply Forall_impl with (2 := Hall).
      intros name Hname. rewrite Hboth in Hname.
      apply orb_false_iff in Hname. apply Hname.
    + intros [Hp Hextra].
      destruct (Found_prefix _ _ _ _ Hp) as (suffix & Hpath & Hall & _).
      cbn [app] in Hpath.
      apply (Found_restrict ps qs [] n f Hp (path f) eq_refl).
      rewrite Hpath in *. rewrite Forall_forall in *.
      intros name Hname. rewrite Hboth, (Hall name Hname), (Hextra name Hname).
      reflexivity.
  - exfalso. apply Hreadable.
    apply (Unreadable_fewer ps qs _ _ Hless). apply Hqs.
Qed.

(** X21.  The analyze command always passes its own ignore fragments,
    which lack the fragment [.next] of the default list.  When the
    traversal of the command without [--ignore] ends, so does the
    traversal with [--ignore] fragments, which records the same files
    but those with a name that holds one of the fragments, and so does
    the traversal with the default list, which records the same files
    but those with a name that holds [.next]. *)
Theorem analyze_command_ignores (entries : list (string * Node))
    (ignore : list string) (found : list FileRecord) :
  traverseDirectory (Some (Dir entries)) (analyzeOptions []) = Ok found ->
  (exists kept,
      traverseDirectory (Some (Dir entries)) (analyzeOptions ignore) = Ok kept
      /\ forall f,
           In f kept
           <-> In f found
               /\ Forall (fun name => ignored ignore name = false) (path f))
  /\ (exists byDefault,
         traverseDirectory (Some (Dir entries)) None = Ok byDefault
         /\ forall f,
              In f byDefault
              <-> In f found
                  /\ Forall (fun name => includes ".next" name = false)
                            (path f)).
Proof.
  cbn [traverseDirectory analyzeOptions ignorePatternsOf app].
  intro Hrun. split.
  - apply (traverse_restricted _ _ ignore _ _ (ignored_app ignore _) Hrun).
  - destruct (traverse_restricted
                [".git"; "node_modules"; "dist"; "build"]
                defaultIgnorePatterns [".next"] (Dir entries) found)
      as (byDefault & Hdefault & Hmembers).
    + intro name. unfold ignored, defaultIgnorePatterns. cbn [existsb].
      destruct (includes ".git" name), (includes "node_modules" name),
        (includes ".next" name), (includes "dist" name),
        (includes "build" name); reflexivity.
    + exact Hrun.
    + exists byDefault. split; [exact Hdefault|].
      intro f. rewrite Hmembers.
      assert (Hsame : forall name,
                 ignored [".next"] name = false
                 <-> includes ".next" name = false).
      { intro name. unfold ignored. cbn [existsb].
        rewrite orb_false_r. reflexivity. }
      split; intros [Hin Hall]; (split; [exact Hin|]);
        apply Forall_impl with (2 := Hall); intros name; apply Hsame.
Qed.

Lemma analyze_command_ignores_witness :
  exists kept,
    traverseDirectory Sample.oneSource (analyzeOptions ["a."]) = Ok kept
    /\ forall f, ~ In f kept.
Proof.
  destruct (traverseDirectory Sample.oneSource (analyzeOptions []))
    as [found|e] eqn:Hrun; [|vm_compute in Hrun; discriminate].
  destruct (analyze_command_ignores
              [("a.js", Sample.file sample_if_else)] ["a."] found Hrun)
    as [(kept & Hkept & Hmembers) _].
  exists kept. split; [exact Hkept|].
  intros f Hf. apply Hmembers in Hf. destruct Hf as [Hin Hall].
  vm_compute in Hrun. injection Hrun as <-.
  destruct Hin as [<-|[]].
  inversion Hall as [|? ? Hname _]; subst. discriminate Hname.
Defined.
